(** * Multipack dataloader: first-fit-decreasing packing, the allocator,
      the batch producer / consumer and the length estimate.

    Shallow embedding of [src/axolotl/utils/dataloader.py].

    Conventions of the embedding.
    - Sample lengths, capacities and cumulative sums are Python / int64
      integers; they are modelled as [Z].  Lengths are [len(...)] values and
      the capacity is a configuration value, far away from the 64-bit limits,
      so no wrap-around is modelled.
    - Positions, window lengths and counts ([start_index], [left], [right],
      [mid], the number of ranks [n]) are [nat]: [np.full((n,), c)] rejects
      a negative [n].  [rank] is a [Z] because a Python list accepts
      negative subscripts.
    - A slice [x[i : i + k]] is [firstn k (skipn i x)]: Python clamps slices
      at the end of the array.
    - Loops whose trip count is not structural carry a fuel argument; for
      each of them a lemma shows that the fuel handed over by the caller is
      never exhausted before the loop condition fails.
    - The producer thread and the bounded queue are modelled by the
      sequence of items the producer puts on the queue; the consumer reads
      that sequence in order.  Waiting on a full queue and the final
      [batch_gen_thread.join()] are not modelled.
    - [np.sort] and [np.argsort] are modelled by a stable insertion sort.
      The sorted values do not depend on how a sort orders equal values,
      so the model of [np.sort] is exact.  The order that [np.argsort]
      gives to the positions of equal values does: compiled code runs the
      insertion sort on arrays of fewer than 16 elements only, and an
      unstable quicksort on longer ones.  Statements about the order among
      equal values are therefore made for arrays of fewer than 16
      elements; every other statement uses only that [np.argsort] returns
      a permutation of the positions that lists the values in ascending
      order. *)

From Stdlib Require Import List ZArith Lia Bool Arith PeanoNat.
From Stdlib Require Import Permutation Sorted QArith Qround.
From Stdlib Require String Ascii DecimalString DecimalNat.
Import (notations) String.
Import (notations) Ascii.
Import ListNotations.
Local Open Scope Z_scope.

(** ** The numpy primitives used by the source *)

Module np.

Section ByKey.
Context {A : Type} (key : A -> Z).

    (** One pass of the insertion sort: [x] goes in front of the first
        element whose key is not smaller. *)
Fixpoint insert (x : A) (l : list A) : list A :=
      match l with
      | [] => [x]
      | y :: l' => if key x <=? key y then x :: l else y :: insert x l'
      end.

Fixpoint sort_by (l : list A) : list A :=
      match l with
      | [] => []
      | x :: l' => insert x (sort_by l')
      end.
End ByKey.

  (** [np.sort(a)]: the values in ascending order. *)
Definition sort (a : list Z) : list Z := sort_by (fun x => x) a.

  (** [np.argsort(a)]: the positions of [a] in ascending order of value.
      Compiled code sorts with a quicksort that hands every range of fewer
      than 16 elements to an insertion sort.  The model is that insertion
      sort, which is stable (equal values keep their positions' order): on
      arrays of fewer than 16 elements it is the order the program
      computes.  On longer arrays the quicksort may leave equal values in
      another order; there the model stands for the program only in what
      does not depend on the order among equal values, namely that the
      result is a permutation of the positions listing the values in
      ascending order ([argsort_perm], [take_indices_argsort]).  Whatever
      is stated about the order among equal values is stated for arrays of
      fewer than 16 elements. *)
Definition argsort (a : list Z) : list nat :=
    sort_by (fun i => nth i a 0) (seq 0 (length a)).

  (** [a[indices]] *)
Definition take_indices (a : list Z) (indices : list nat) : list Z :=
    map (fun i => nth i a 0) indices.

  (** [np.cumsum(a)] *)
Fixpoint cumsum_from (acc : Z) (a : list Z) : list Z :=
    match a with
    | [] => []
    | x :: a' => (acc + x) :: cumsum_from (acc + x) a'
    end.

Definition cumsum (a : list Z) : list Z := cumsum_from 0 a.

  (** [np.searchsorted(a, v, "right")]: the bisection
      [while lo < hi: mid = (lo + hi) >> 1;
         if a[mid] <= v: lo = mid + 1 else: hi = mid]. *)
Fixpoint searchsorted_loop (fuel : nat) (a : list Z) (v : Z) (lo hi : nat)
    : nat :=
    match fuel with
    | O => lo
    | S fuel' =>
        if (lo <? hi)%nat then
          let mid := ((lo + hi) / 2)%nat in
          if nth mid a 0 <=? v
          then searchsorted_loop fuel' a v (mid + 1)%nat hi
          else searchsorted_loop fuel' a v lo mid
        else lo
    end.

Definition searchsorted_right (a : list Z) (v : Z) : nat :=
    searchsorted_loop (length a) a v 0%nat (length a).

  (** [np.sum(a)] *)
Definition sum (a : list Z) : Z := fold_right Z.add 0 a.

End np.

(** ** First-fit-decreasing: the feasibility oracle and the packer *)

(** The inner [for idx in range(n)] of [ffd_check]: the first bin with
    [bins[idx] >= size] is charged; [None] when [not_found] stays true. *)
Fixpoint first_fit (bins : list Z) (size : Z) : option (list Z) :=
  match bins with
  | [] => None
  | b :: bins' =>
      if size <=? b then Some ((b - size) :: bins')
      else option_map (cons b) (first_fit bins' size)
  end.

(** The outer [for size in a] of [ffd_check]. *)
Fixpoint ffd_check_loop (sizes : list Z) (bins : list Z) : bool :=
  match sizes with
  | [] => true
  | size :: rest =>
      match first_fit bins size with
      | None => false
      | Some bins' => ffd_check_loop rest bins'
      end
  end.

Definition ffd_check (a : list Z) (c : Z) (n : nat) : bool :=
  let a := rev (np.sort a) in
  let bins := repeat c n in
  ffd_check_loop a bins.

(** The inner [for idx in range(len(bins))] of [ffd_with_result], over the
    two parallel lists [bins] and [bins_result]; [None] when [add_new]
    stays true. *)
Fixpoint first_fit_result (bins : list Z) (bins_result : list (list nat))
  (size : Z) (item : nat) : option (list Z * list (list nat)) :=
  match bins, bins_result with
  | b :: bins', r :: bins_result' =>
      if size <=? b then Some ((b - size) :: bins', (r ++ [item]) :: bins_result')
      else
        match first_fit_result bins' bins_result' size item with
        | Some (bs, rs) => Some (b :: bs, r :: rs)
        | None => None
        end
  | _, _ => None
  end.

(** The outer [for a_id, size in enumerate(a)] of [ffd_with_result]; the
    list [items] pairs [indices[a_id] + start_index] with [size]. *)
Fixpoint ffd_result_loop (c : Z) (items : list (nat * Z))
  (bins : list Z) (bins_result : list (list nat))
  : list Z * list (list nat) :=
  match items with
  | [] => (bins, bins_result)
  | (item, size) :: rest =>
      match first_fit_result bins bins_result size item with
      | Some (bins', bins_result') => ffd_result_loop c rest bins' bins_result'
      | None =>
          ffd_result_loop c rest (bins ++ [c - size]) (bins_result ++ [[item]])
      end
  end.

(** The items in processing order: [indices = np.argsort(a)[::-1]],
    [a = a[indices]], each index offset by [start_index]. *)
Definition ffd_items (a : list Z) (start_index : nat) : list (nat * Z) :=
  let indices := rev (np.argsort a) in
  let a := np.take_indices a indices in
  combine (map (fun i => (i + start_index)%nat) indices) a.

Definition ffd_with_result (a : list Z) (c : Z) (start_index : nat)
  : list (list nat) * nat :=
  let '(_, bins_result) := ffd_result_loop c (ffd_items a start_index) [] [] in
  (bins_result, length (np.take_indices a (rev (np.argsort a)))).

(** ** The allocator *)

(** [l[i]] on a Python list: negative subscripts count from the end, a
    subscript out of range raises [IndexError] ([None]). *)
Definition py_getitem {A : Type} (l : list A) (i : Z) : option A :=
  if 0 <=? i then nth_error l (Z.to_nat i)
  else if - Z.of_nat (length l) <=? i
       then nth_error l (Z.to_nat (Z.of_nat (length l) + i))
       else None.

(** The generator's local variables [s], [start_index] and [result]. *)
Record alloc_state : Type := mk_alloc_state {
  st_s : Z;
  st_start_index : nat;
  st_result : list (list nat)
}.

(** What one pass through the body of [while True] does. *)
Inductive alloc_step : Type :=
| Break
| RaiseIndexError
| Yield (out : list nat * nat * Z * Z) (st' : alloc_state).

(** How a run of the generator ends; [Suspended] is a run cut by the fuel. *)
Inductive alloc_end : Type :=
| StopIteration
| Raised
| Suspended.

Section Allocate.

Variables (lengths lengths_cumsum : list Z) (rank : Z) (c : Z) (n : nat).

  (** [lengths[start_index : start_index + k]] *)
Definition window (start_index k : nat) : list Z :=
    firstn k (skipn start_index lengths).

  (** [while right - left > 1] *)
Fixpoint bisect (fuel : nat) (start_index left right : nat) : nat :=
    match fuel with
    | O => left
    | S fuel' =>
        if (1 <? right - left)%nat then
          let mid := ((left + right) / 2)%nat in
          if ffd_check (window start_index mid) c n
          then bisect fuel' start_index mid right
          else bisect fuel' start_index left mid
        else left
    end.

  (** [right = 1 + np.searchsorted(lengths_cumsum[start_index:], s + c * n,
      "right")] *)
Definition initial_right (st : alloc_state) : nat :=
    (1 + np.searchsorted_right (skipn (st_start_index st) lengths_cumsum)
           (st_s st + c * Z.of_nat n))%nat.

  (** The value of [left] when the binary search is left. *)
Definition chosen_left (st : alloc_state) : nat :=
    bisect (initial_right st - 1) (st_start_index st) 1 (initial_right st).

  (** [ffd_with_result(lengths[start_index : start_index + left], c,
      start_index)] *)
Definition round_batch (st : alloc_state) : list (list nat) * nat :=
    ffd_with_result (window (st_start_index st) (chosen_left st)) c
      (st_start_index st).

(** The body of [while True].  The read [lengths_cumsum[start_index - 1]]
    is unchecked in compiled code; past the end of the array it is given
    the value 0 here.  With [lengths_cumsum = np.cumsum(lengths)] that only
    happens in a pass that raises right after: a pass that yields leaves
    its cursor inside the input (lemma [reachable_cursor_ok]). *)
Definition allocate_step (st : alloc_state) : alloc_step :=
    let left := chosen_left st in
    let '(batch, tot_seqs) := round_batch st in
    if (length batch <? n)%nat then Break
    else
      let start_index := (st_start_index st + left)%nat in
      let s := nth (start_index - 1) lengths_cumsum 0 in
      match py_getitem batch rank with
      | None => RaiseIndexError
      | Some bin =>
          let result := st_result st ++ [bin] in
          Yield (bin, tot_seqs, s, Z.of_nat (length result) * c * Z.of_nat n)
                (mk_alloc_state s start_index result)
      end.

Fixpoint allocate_loop (fuel : nat) (st : alloc_state)
    : list (list nat * nat * Z * Z) * alloc_end :=
    match fuel with
    | O => ([], Suspended)
    | S fuel' =>
        match allocate_step st with
        | Break => ([], StopIteration)
        | RaiseIndexError => ([], Raised)
        | Yield out st' =>
            let '(outs, e) := allocate_loop fuel' st' in (out :: outs, e)
        end
    end.

Definition initial_state : alloc_state := mk_alloc_state 0 0 [].

  (** The whole run of the generator: everything it yields and how it ends.
      Every round moves the cursor by at least one position, so one pass
      per sample and a last one are enough. *)
Definition allocate : list (list nat * nat * Z * Z) * alloc_end :=
    allocate_loop (S (length lengths)) initial_state.

  (** The states in which the loop body is entered. *)
Inductive reachable : alloc_state -> Prop :=
  | reachable_init : reachable initial_state
  | reachable_step st out st' :
      reachable st -> allocate_step st = Yield out st' -> reachable st'.

End Allocate.

(** ** The dataloader *)

Inductive exn : Type :=
| AssertionError
| ZeroDivisionError
| KeyError
| IndexError
| ValueError.

(** A computation that returns or raises. *)
Definition res (A : Type) : Type := (exn + A)%type.

Definition ret {A : Type} (x : A) : res A := inr x.
Definition raise {A : Type} (e : exn) : res A := inl e.

Definition bind {A B : Type} (m : res A) (k : A -> res B) : res B :=
  match m with
  | inl e => inl e
  | inr x => k x
  end.

Notation "x <- m ;; k" := (bind m (fun x => k))
  (at level 61, m at next level, right associativity).

Fixpoint mapM {A B : Type} (f : A -> res B) (l : list A) : res (list B) :=
  match l with
  | [] => ret []
  | x :: l' => y <- f x ;; ys <- mapM f l' ;; ret (y :: ys)
  end.

(** A sample, and the packed record built from a bin: a dictionary from
    feature names to arrays, in insertion order. *)
Definition dict : Type := list (String.string * list Z).

Fixpoint dict_get (d : dict) (k : String.string) : option (list Z) :=
  match d with
  | [] => None
  | (k', v) :: d' => if String.eqb k k' then Some v else dict_get d' k
  end.

(** [d[k] = v] *)
Fixpoint dict_set (d : dict) (k : String.string) (v : list Z) : dict :=
  match d with
  | [] => [(k, v)]
  | (k', v') :: d' =>
      if String.eqb k k' then (k, v) :: d' else (k', v') :: dict_set d' k v
  end.

(** [x[i]] on a list, for a subscript that is a position. *)
Definition getitem {A : Type} (l : list A) (i : nat) : res A :=
  match nth_error l i with
  | Some x => ret x
  | None => raise IndexError
  end.

(** [np.concatenate(arrays)] needs at least one array. *)
Definition np_concatenate (arrays : list (list Z)) : res (list Z) :=
  match arrays with
  | [] => raise ValueError
  | _ => ret (concat arrays)
  end.

(** The dataset: its rows and the keys of [dataset.features]. *)
Record dataset_t : Type := mk_dataset {
  rows : list dict;
  features : list String.string
}.

(** The sampler, when there is one: the order it yields in each epoch. *)
Record sampler_t : Type := mk_sampler {
  has_set_epoch : bool;
  epoch : Z;
  order : Z -> list nat
}.

Record MultipackDistributedDataloader : Type := mk_dataloader {
  dataset : dataset_t;
  lengths : list Z;
  sampler : option sampler_t;
  batch_size : Z;
  sample_packing_seq_len_multiplier : Z;
  seq_max_length : Z;
  batch_max_length : Z;
  num_replicas : nat;
  rank : Z;
  total_num_tokens : option Z;
  eff_total_used : Z;
  eff_total_slots : Z;
  packing_efficiency_estimate : Q;
  device_count : Z
}.

(** [total_num_tokens] is falsy when it is [None] or [0]. *)
Definition truthy (x : option Z) : bool :=
  match x with
  | Some v => negb (v =? 0)
  | None => false
  end.

(** [len(sample["input_ids"])] *)
Definition sample_length (sample : dict) : res Z :=
  match dict_get sample "input_ids" with
  | Some ids => ret (Z.of_nat (length ids))
  | None => raise KeyError
  end.

Definition __init__ (dataset : dataset_t) (seq_max_length batch_size : Z)
  (sampler : option sampler_t) (packing_efficiency_estimate : Q)
  (sample_packing_seq_len_multiplier device_count : Z)
  (total_num_tokens : option Z) : res MultipackDistributedDataloader :=
  lengths <- mapM sample_length (rows dataset) ;;
  (* assert batch_size % sample_packing_seq_len_multiplier == 0 *)
  if sample_packing_seq_len_multiplier =? 0 then raise ZeroDivisionError
  else if negb (batch_size mod sample_packing_seq_len_multiplier =? 0)
  then raise AssertionError
  (* assert batch_size >= sample_packing_seq_len_multiplier *)
  else if negb (sample_packing_seq_len_multiplier <=? batch_size)
  then raise AssertionError
  else
    ret {| dataset := dataset;
           lengths := lengths;
           sampler := sampler;
           batch_size := batch_size;
           sample_packing_seq_len_multiplier := sample_packing_seq_len_multiplier;
           seq_max_length := seq_max_length;
           batch_max_length := batch_size * seq_max_length;
           num_replicas := 1;
           rank := 0;
           total_num_tokens := total_num_tokens;
           eff_total_used := 0;
           eff_total_slots := 0;
           packing_efficiency_estimate :=
             (if Qeq_bool packing_efficiency_estimate 0 then 1%Q
              else packing_efficiency_estimate);
           device_count := device_count |}.

(** The bin capacity handed to the allocator by [generate_batches]. *)
Definition capacity (self : MultipackDistributedDataloader) : Z :=
  seq_max_length self * sample_packing_seq_len_multiplier self.

Definition set_stats_of (self : MultipackDistributedDataloader)
  (used slots : Z) : MultipackDistributedDataloader :=
  {| dataset := dataset self;
     lengths := lengths self;
     sampler := sampler self;
     batch_size := batch_size self;
     sample_packing_seq_len_multiplier := sample_packing_seq_len_multiplier self;
     seq_max_length := seq_max_length self;
     batch_max_length := batch_max_length self;
     num_replicas := num_replicas self;
     rank := rank self;
     total_num_tokens := total_num_tokens self;
     eff_total_used := used;
     eff_total_slots := slots;
     packing_efficiency_estimate := packing_efficiency_estimate self;
     device_count := device_count self |}.

(** The epoch order: [[idx for idx in self.sampler]] or
    [range(0, len(self.dataset))]. *)
Definition epoch_indices (self : MultipackDistributedDataloader) : list nat :=
  match sampler self with
  | Some smp => order smp (epoch smp)
  | None => seq 0 (length (rows (dataset self)))
  end.

(** The loop [for batch, tot_seqs, total_used, total_slots in alloc_iter]:
    the puts on the queue so far, the object with its statistics, and the
    exception that ended the loop, if any. *)
Fixpoint put_rounds (indices : list nat) (set_stats : bool)
  (outs : list (list nat * nat * Z * Z))
  (self : MultipackDistributedDataloader)
  : list (list nat) * MultipackDistributedDataloader * option exn :=
  match outs with
  | [] => ([], self, None)
  | (batch, _, total_used, total_slots) :: outs' =>
      match mapM (getitem indices) batch with
      | inl e => ([], self, Some e)
      | inr item =>
          let self' :=
            if set_stats then set_stats_of self total_used total_slots
            else self in
          let '(puts, self'', e) := put_rounds indices set_stats outs' self' in
          (item :: puts, self'', e)
      end
  end.

(** [generate_batches]: what it puts on the queue, the object afterwards,
    and the exception it raises, if any. *)
Definition generate_batches (self : MultipackDistributedDataloader)
  (set_stats : bool)
  : list (list nat) * MultipackDistributedDataloader * option exn :=
  let indices := epoch_indices self in
  match mapM (getitem (lengths self)) indices with
  | inl e => ([], self, Some e)
  | inr lengths =>
      let lengths_cumsum := np.cumsum lengths in
      let '(outs, e) :=
        allocate lengths lengths_cumsum (rank self) (capacity self)
          (num_replicas self) in
      let '(puts, self', e') := put_rounds indices set_stats outs self in
      match e' with
      | Some x => (puts, self', Some x)
      | None =>
          match e with
          | Raised => (puts, self', Some IndexError)
          | _ => (puts, self', None)
          end
      end
  end.

(** [_generate_batches_thread]: everything the producer puts on the batch
    queue, in order; [None] is the terminal marker. *)
Definition _generate_batches_thread (self : MultipackDistributedDataloader)
  : list (option (list nat)) * MultipackDistributedDataloader :=
  let '(puts, self', e) := generate_batches self true in
  match e with
  | Some _ => (map Some puts ++ [None], self')
  | None => (map Some puts, self')
  end.

(** [_len_est].  The floating-point expression is evaluated over the
    rationals; [x // batch_size] on floats is the floor of the quotient. *)
Definition _len_est (self : MultipackDistributedDataloader)
  : res (Z * MultipackDistributedDataloader) :=
  let total :=
    if truthy (total_num_tokens self)
    then match total_num_tokens self with Some v => v | None => 0 end
    else np.sum (lengths self) in
  let self' :=
    {| dataset := dataset self;
       lengths := lengths self;
       sampler := sampler self;
       batch_size := batch_size self;
       sample_packing_seq_len_multiplier :=
         sample_packing_seq_len_multiplier self;
       seq_max_length := seq_max_length self;
       batch_max_length := batch_max_length self;
       num_replicas := num_replicas self;
       rank := rank self;
       total_num_tokens := Some total;
       eff_total_used := eff_total_used self;
       eff_total_slots := eff_total_slots self;
       packing_efficiency_estimate := packing_efficiency_estimate self;
       device_count := device_count self |} in
  if device_count self =? 0 then raise ZeroDivisionError
  else
    let lengths_sum_per_device := total / device_count self in
    if Qeq_bool (packing_efficiency_estimate self) 0
       || (seq_max_length self =? 0) || (batch_size self =? 0)
    then raise ZeroDivisionError
    else
      ret (Qfloor ((99 # 100) * inject_Z lengths_sum_per_device
                   / packing_efficiency_estimate self
                   / inject_Z (seq_max_length self)
                   / inject_Z (batch_size self)) - 1,
           self').

Definition __len__ (self : MultipackDistributedDataloader) : res Z :=
  r <- _len_est self ;; ret (Z.max 1 (fst r)).

(** *** The batch consumer *)

(** How a run of [__iter__] ends: it returns, it raises, or it stays
    blocked in [self.batch_queue.get()] on an empty queue that nobody
    fills any more. *)
Inductive iter_end : Type :=
| Returned
| Raising (e : exn)
| Blocked.

Definition enumerate {A : Type} (l : list A) : list (nat * A) :=
  combine (seq 0 (length l)) l.

(** [[(attn_mask_cum_idx + idx + 1) * np.array(item[feature])
      for idx, item in enumerate(batched_data) if feature in item]] *)
Definition attention_arrays (feature : String.string) (attn_mask_cum_idx : Z)
  (batched_data : list dict) : list (list Z) :=
  flat_map (fun '(idx, item) =>
              match dict_get item feature with
              | Some mask =>
                  [map (Z.mul (attn_mask_cum_idx + Z.of_nat idx + 1)) mask]
              | None => []
              end) (enumerate batched_data).

(** [[np.array(item[feature]) for item in batched_data if feature in item]] *)
Definition plain_arrays (feature : String.string) (batched_data : list dict)
  : list (list Z) :=
  flat_map (fun item =>
              match dict_get item feature with
              | Some v => [v]
              | None => []
              end) batched_data.

(** The body of [for feature in features], on the pair
    [(attn_mask_cum_idx, concatenated)]. *)
Definition assemble_feature (batched_data : list dict)
  (acc : res (Z * dict)) (feature : String.string) : res (Z * dict) :=
  a <- acc ;;
  let '(attn_mask_cum_idx, concatenated) := a in
  if String.eqb feature "attention_mask" then
    let arrays := attention_arrays feature attn_mask_cum_idx batched_data in
    let attn_mask_cum_idx :=
      attn_mask_cum_idx + Z.of_nat (length batched_data) in
    v <- np_concatenate arrays ;;
    ret (attn_mask_cum_idx, dict_set concatenated feature v)
  else
    let arrays := plain_arrays feature batched_data in
    v <- np_concatenate arrays ;;
    ret (attn_mask_cum_idx, dict_set concatenated feature v).

(** One pass through the body of [while True] in [__iter__], from
    [chunked_data = []] to [chunked_data.append(concatenated)]. *)
Definition assemble (self : MultipackDistributedDataloader)
  (batch : list nat) : res (list dict) :=
  let chunked_data := [] in
  let attn_mask_cum_idx := 0 in
  let concatenated := [] in
  batched_data <- mapM (getitem (rows (dataset self))) batch ;;
  r <- fold_left (assemble_feature batched_data) (features (dataset self))
         (ret (attn_mask_cum_idx, concatenated)) ;;
  ret (chunked_data ++ [snd r]).

Section Consumer.

Context {B : Type} (collate_fn : list dict -> B).

  (** The [while True] loop of [__iter__] against the items that arrive on
      the batch queue. *)
Fixpoint iter_loop (self : MultipackDistributedDataloader)
    (queue : list (option (list nat))) (len_remaining : Z)
    : list B * iter_end :=
    match queue with
    | [] => ([], Blocked)
    | None :: _ => ([], Returned)
    | Some batch :: queue' =>
        match assemble self batch with
        | inl e => ([], Raising e)
        | inr chunked_data =>
            let out := collate_fn chunked_data in
            let len_remaining := len_remaining - 1 in
            if len_remaining =? 0 then ([out], Returned)
            else
              let '(outs, e) := iter_loop self queue' len_remaining in
              (out :: outs, e)
        end
    end.

  (** [self.sampler.set_epoch(self.sampler.epoch + 1)], when the sampler
      has the method. *)
Definition advance_epoch (self : MultipackDistributedDataloader)
    : MultipackDistributedDataloader :=
    match sampler self with
    | Some smp =>
        if has_set_epoch smp then
          {| dataset := dataset self;
             lengths := lengths self;
             sampler := Some (mk_sampler true (epoch smp + 1) (order smp));
             batch_size := batch_size self;
             sample_packing_seq_len_multiplier :=
               sample_packing_seq_len_multiplier self;
             seq_max_length := seq_max_length self;
             batch_max_length := batch_max_length self;
             num_replicas := num_replicas self;
             rank := rank self;
             total_num_tokens := total_num_tokens self;
             eff_total_used := eff_total_used self;
             eff_total_slots := eff_total_slots self;
             packing_efficiency_estimate := packing_efficiency_estimate self;
             device_count := device_count self |}
        else self
    | None => self
    end.

  (** [__iter__]: the producer thread is started on the object with the
      epoch advanced; the consumer sees its puts in order. *)
Definition __iter__ (self : MultipackDistributedDataloader)
    : list B * iter_end :=
    let self := advance_epoch self in
    let queue := fst (_generate_batches_thread self) in
    match _len_est self with
    | inl e => ([], Raising e)
    | inr (len_remaining, self) => iter_loop self queue len_remaining
    end.

End Consumer.

(** ** The remaining functions of the module *)

(** [chunk]: the loop [while batch := tuple(itertools.islice(it, n))]. *)
Fixpoint chunk_loop {A : Type} (fuel : nat) (it : list A) (n : nat)
  : list (list A) :=
  match fuel with
  | O => []
  | S fuel' =>
      match firstn n it with
      | [] => []
      | batch => batch :: chunk_loop fuel' (skipn n it) n
      end
  end.

(** [chunk(iterable, n)], run to its end: the tuples it yields, or the
    [ValueError] it raises.  Every pass takes at least one element, so one
    pass per element and a last one are enough. *)
Definition chunk {A : Type} (iterable : list A) (n : Z)
  : res (list (list A)) :=
  if n <? 1 then raise ValueError
  else ret (chunk_loop (S (length iterable)) iterable (Z.to_nat n)).

(** [efficiency]: [self.eff_total_used / self.eff_total_slots], the
    quotient taken over the rationals. *)
Definition efficiency (self : MultipackDistributedDataloader) : res Q :=
  if eff_total_slots self =? 0 then raise ZeroDivisionError
  else ret (inject_Z (eff_total_used self)
            / inject_Z (eff_total_slots self))%Q.

(** How a call of [len_w_stats] ends.  [generate_batches] returns nothing,
    so unpacking its result raises [TypeError]; a put on a full queue that
    nobody reads never returns. *)
Inductive call_end (A : Type) : Type :=
| Returns (v : A)
| Raises (e : exn)
| RaisesTypeError
| NeverReturns.

Arguments Returns {A} v.
Arguments Raises {A} e.
Arguments RaisesTypeError {A}.
Arguments NeverReturns {A}.

(** [len_w_stats], called while no iterator reads the batch queue, which
    has room for [queue_room] more items. *)
Definition len_w_stats (self : MultipackDistributedDataloader)
  (queue_room : nat) : call_end Z :=
  if eff_total_used self =? 0 then
    (* batches, _ = self.generate_batches(set_stats=True) *)
    let '(puts, _, e) := generate_batches self true in
    if (queue_room <? length puts)%nat then NeverReturns
    else
      match e with
      | Some x => Raises x
      | None => RaisesTypeError
      end
  else
    match efficiency self with
    | inl e => Raises e
    | inr _ =>
        match _len_est self with
        | inl e => Raises e
        | inr (v, _) => Returns (Z.max 1 v)
        end
    end.

(** [hash_indices], up to the hash: [str(i)] for an index, [sep.join(l)],
    and the text [",".join(map(str, lst))] that is handed to SHA-256. *)
Definition str (i : nat) : String.string :=
  DecimalString.NilEmpty.string_of_uint (Nat.to_uint i).

Fixpoint join (sep : String.string) (l : list String.string)
  : String.string :=
  match l with
  | [] => ""%string
  | x :: l' =>
      match l' with
      | [] => x
      | _ => (x ++ sep ++ join sep l')%string
      end
  end.

Definition hash_indices_text (lst : list nat) : String.string :=
  join "," (map str lst).

(** ** Vocabulary of the properties *)

(** The order that a stable ascending sort by [key] establishes between
    elements that carry a position [pos]: smaller key first, and among
    equal keys the smaller position first. *)
Definition stable_lt {A : Type} (key : A -> Z) (pos : A -> nat) (x y : A)
  : Prop :=
  key x < key y \/ (key x = key y /\ (pos x < pos y)%nat).

(** The sum of the sizes of the items recorded in a bin, [size_of] giving
    the size of the item behind an index. *)
Definition bin_load (size_of : nat -> Z) (r : list nat) : Z :=
  np.sum (map size_of r).

(** The packer's two lists agree: [bins[k]] is the room left in bin [k]. *)
Definition room_ok (size_of : nat -> Z) (c : Z) (bins : list Z)
  (bins_result : list (list nat)) : Prop :=
  Forall2 (fun b r => b = c - bin_load size_of r) bins bins_result.

(** The sum of the sample lengths of the members of a bin. *)
Definition bin_sum (lengths : list Z) (bin : list nat) : Z :=
  bin_load (fun i => nth i lengths 0) bin.

(** The order in which the packer takes up two recorded items of the array
    [a] (indices offset by [base]) when the ascending sort is stable, as it
    is for fewer than 16 items: the larger size first and, among equal
    sizes, the later position first. *)
Definition processed_before (a : list Z) (base : nat) (i j : nat) : Prop :=
  stable_lt (fun i => nth (i - base) a 0) (fun i => i) j i.

(** The loop heads [(left, right)] that the binary search of the round
    starting in [st] passes through. *)
Inductive search_state (lengths lengths_cumsum : list Z) (c : Z) (n : nat)
  (st : alloc_state) : nat -> nat -> Prop :=
| search_enter :
    search_state lengths lengths_cumsum c n st
      1 (initial_right lengths_cumsum c n st)
| search_up left right :
    search_state lengths lengths_cumsum c n st left right ->
    (1 < right - left)%nat ->
    ffd_check (window lengths (st_start_index st) ((left + right) / 2)) c n
      = true ->
    search_state lengths lengths_cumsum c n st ((left + right) / 2) right
| search_down left right :
    search_state lengths lengths_cumsum c n st left right ->
    (1 < right - left)%nat ->
    ffd_check (window lengths (st_start_index st) ((left + right) / 2)) c n
      = false ->
    search_state lengths lengths_cumsum c n st left ((left + right) / 2).

(** [left] is known feasible; [right] is known infeasible or reaches past
    the end of the input. *)
Definition search_invariant (lengths : list Z) (c : Z) (n : nat)
  (st : alloc_state) (left right : nat) : Prop :=
  ffd_check (window lengths (st_start_index st) left) c n = true /\
  (ffd_check (window lengths (st_start_index st) right) c n = false \/
   (length lengths < st_start_index st + right)%nat).

(** [rank] selects one of [n] bins. *)
Definition valid_rank (rank : Z) (n : nat) : Prop :=
  - Z.of_nat n <= rank < Z.of_nat n.

(** The bin that a yielded tuple carries. *)
Definition yielded_bin (out : list nat * nat * Z * Z) : list nat :=
  fst (fst (fst out)).

(** The factors [attn_mask_cum_idx + idx + 1] that the consumer multiplies
    the masks of the members of a bin with: the segment ids of the round. *)
Definition segment_ids (feature : String.string) (attn_mask_cum_idx : Z)
  (batched_data : list dict) : list Z :=
  flat_map (fun '(idx, item) =>
              match dict_get item feature with
              | Some _ => [attn_mask_cum_idx + Z.of_nat idx + 1]
              | None => []
              end) (enumerate batched_data).

(** Each array multiplied by its factor. *)
Fixpoint scale_arrays (ids : list Z) (arrays : list (list Z))
  : list (list Z) :=
  match ids, arrays with
  | id :: ids', m :: arrays' => map (Z.mul id) m :: scale_arrays ids' arrays'
  | _, _ => []
  end.

(** The values found under the mask feature in what a round hands to the
    aggregation function. *)
Definition mask_values (chunked_data : list dict) : list Z :=
  flat_map (fun record =>
              match dict_get record "attention_mask" with
              | Some v => v
              | None => []
              end) chunked_data.

(** The segment ids of a later round are all larger than those of an
    earlier round. *)
Definition ids_increase_across_rounds (outs : list (list dict)) : Prop :=
  forall i j earlier later x y,
    (i < j)%nat ->
    nth_error outs i = Some earlier -> nth_error outs j = Some later ->
    In x (mask_values earlier) -> In y (mask_values later) -> x < y.

(** A row with [k] tokens, every position attended. *)
Definition example_row (k : nat) : dict :=
  [("input_ids"%string, repeat 7 k); ("attention_mask"%string, repeat 1 k)].

(** Four samples of five tokens each. *)
Definition example_dataset : dataset_t :=
  mk_dataset [example_row 5; example_row 5; example_row 5; example_row 5]
             ["input_ids"%string; "attention_mask"%string].

(** [MultipackDistributedDataloader(example_dataset, collate_fn,
    seq_max_length=10)], every other argument at its default. *)
Definition example_loader : MultipackDistributedDataloader :=
  {| dataset := example_dataset;
     lengths := [5; 5; 5; 5];
     sampler := None;
     batch_size := 1;
     sample_packing_seq_len_multiplier := 1;
     seq_max_length := 10;
     batch_max_length := 10;
     num_replicas := 1;
     rank := 0;
     total_num_tokens := None;
     eff_total_used := 0;
     eff_total_slots := 0;
     packing_efficiency_estimate := 1%Q;
     device_count := 1 |}.

(** The example loader with a sampler that yields a position outside the
    dataset. *)
Definition example_loader_bad_sampler : MultipackDistributedDataloader :=
  {| dataset := example_dataset;
     lengths := [5; 5; 5; 5];
     sampler := Some (mk_sampler false 0 (fun _ => [0; 1; 7; 2]%nat));
     batch_size := 1;
     sample_packing_seq_len_multiplier := 1;
     seq_max_length := 10;
     batch_max_length := 10;
     num_replicas := 1;
     rank := 0;
     total_num_tokens := None;
     eff_total_used := 0;
     eff_total_slots := 0;
     packing_efficiency_estimate := 1%Q;
     device_count := 1 |}.

(** The first-fit discipline between the bins: the first item of every
    later bin is larger than the room left in every earlier bin. *)
Fixpoint no_room_for_later (size_of : nat -> Z) (bins : list Z)
  (bins_result : list (list nat)) : Prop :=
  match bins, bins_result with
  | b :: bins', _ :: bins_result' =>
      Forall (fun r => exists h t, r = h :: t /\ b < size_of h) bins_result'
      /\ no_room_for_later size_of bins' bins_result'
  | _, _ => True
  end.

(** The other components of a yielded tuple: [tot_seqs], [s] and
    [len(result) * c * n]. *)
Definition yielded_tot_seqs (out : list nat * nat * Z * Z) : nat :=
  snd (fst (fst out)).

Definition yielded_used (out : list nat * nat * Z * Z) : Z :=
  snd (fst out).

Definition yielded_slots (out : list nat * nat * Z * Z) : Z :=
  snd out.

(** The loader with another [total_num_tokens]. *)
Definition with_total_num_tokens (self : MultipackDistributedDataloader)
  (t : Z) : MultipackDistributedDataloader :=
  {| dataset := dataset self;
     lengths := lengths self;
     sampler := sampler self;
     batch_size := batch_size self;
     sample_packing_seq_len_multiplier := sample_packing_seq_len_multiplier self;
     seq_max_length := seq_max_length self;
     batch_max_length := batch_max_length self;
     num_replicas := num_replicas self;
     rank := rank self;
     total_num_tokens := Some t;
     eff_total_used := eff_total_used self;
     eff_total_slots := eff_total_slots self;
     packing_efficiency_estimate := packing_efficiency_estimate self;
     device_count := device_count self |}.

(** The loader with another [packing_efficiency_estimate]. *)
Definition with_packing_efficiency_estimate
  (self : MultipackDistributedDataloader) (e : Q)
  : MultipackDistributedDataloader :=
  {| dataset := dataset self;
     lengths := lengths self;
     sampler := sampler self;
     batch_size := batch_size self;
     sample_packing_seq_len_multiplier := sample_packing_seq_len_multiplier self;
     seq_max_length := seq_max_length self;
     batch_max_length := batch_max_length self;
     num_replicas := num_replicas self;
     rank := rank self;
     total_num_tokens := total_num_tokens self;
     eff_total_used := eff_total_used self;
     eff_total_slots := eff_total_slots self;
     packing_efficiency_estimate := e;
     device_count := device_count self |}.

(** The rational that [_len_est] takes the floor of. *)
Definition len_est_quotient (share : Z) (e : Q) (seq_max_length batch_size : Z)
  : Q :=
  ((99 # 100) * inject_Z share / e / inject_Z seq_max_length
   / inject_Z batch_size)%Q.

(** A string without a comma. *)
Fixpoint comma_free (s : String.string) : Prop :=
  match s with
  | String.EmptyString => True
  | String.String c s' => c <> ","%char /\ comma_free s'
  end.

(** * Properties *)

(** ** Sorting *)

Section SortFacts.

Context {A : Type} (key : A -> Z).

Lemma insert_perm (x : A) (l : list A) :
    Permutation (np.insert key x l) (x :: l).
Proof.
    induction l as [|y l IH]; simpl.
    - apply Permutation_refl.
    - destruct (key x <=? key y).
      + apply Permutation_refl.
      + eapply perm_trans; [apply perm_skip, IH | apply perm_swap].
Qed.

Lemma sort_by_perm (l : list A) : Permutation (np.sort_by key l) l.
Proof.
    induction l as [|x l IH]; simpl.
    - constructor.
    - eapply perm_trans; [apply insert_perm | apply perm_skip, IH].
Qed.

Lemma map_insert (x : A) (l : list A) :
    map key (np.insert key x l) = np.insert (fun z => z) (key x) (map key l).
Proof.
    induction l as [|y l IH]; simpl; [reflexivity|].
    destruct (key x <=? key y); simpl; [reflexivity | now rewrite IH].
Qed.

Lemma map_sort_by (l : list A) :
    map key (np.sort_by key l) = np.sort_by (fun z => z) (map key l).
Proof.
    induction l as [|x l IH]; simpl; [reflexivity|].
    now rewrite map_insert, IH.
Qed.

Variable pos : A -> nat.

Lemma insert_stable (x : A) (l : list A) :
    StronglySorted (stable_lt key pos) l ->
    Forall (fun y => (pos x < pos y)%nat) l ->
    StronglySorted (stable_lt key pos) (np.insert key x l).
Proof.
    induction l as [|y l IH]; intros Hs Hp; simpl.
    - repeat constructor.
    - apply StronglySorted_inv in Hs as [Hs Hy].
      apply Forall_cons_iff in Hp as [Hxy Hp].
      destruct (key x <=? key y) eqn:E.
      + apply Z.leb_le in E.
        constructor; [constructor; assumption|].
        constructor.
        * unfold stable_lt; lia.
        * rewrite Forall_forall in *.
          intros z Hz. specialize (Hy z Hz). specialize (Hp z Hz).
          unfold stable_lt in *; lia.
      + apply Z.leb_gt in E.
        constructor; [apply IH; assumption|].
        eapply Permutation_Forall.
        * apply Permutation_sym, insert_perm.
        * constructor; [unfold stable_lt; lia | assumption].
Qed.

Lemma sort_by_stable (l : list A) :
    StronglySorted (fun x y => (pos x < pos y)%nat) l ->
    StronglySorted (stable_lt key pos) (np.sort_by key l).
Proof.
    induction l as [|x l IH]; intros Hs; simpl.
    - constructor.
    - apply StronglySorted_inv in Hs as [Hs Hx].
      apply insert_stable; [apply IH, Hs|].
      eapply Permutation_Forall;
        [apply Permutation_sym, sort_by_perm | exact Hx].
Qed.

End SortFacts.

Lemma StronglySorted_app_iff {A : Type} (R : A -> A -> Prop) (l1 l2 : list A) :
  StronglySorted R (l1 ++ l2) <->
  StronglySorted R l1 /\ StronglySorted R l2 /\
  (forall x y, In x l1 -> In y l2 -> R x y).
Proof.
  induction l1 as [|a l1 IH]; simpl.
  - split.
    + intros H; repeat split; [constructor | assumption | contradiction].
    + intros (_ & H & _); exact H.
  - split.
    + intros H. apply StronglySorted_inv in H as [H Ha].
      apply IH in H as (H1 & H2 & H12).
      rewrite Forall_app in Ha. destruct Ha as [Ha1 Ha2].
      repeat split; [constructor; assumption | assumption |].
      intros x y [<-|Hx] Hy.
      * rewrite Forall_forall in Ha2; auto.
      * auto.
    + intros (H1 & H2 & H12).
      apply StronglySorted_inv in H1 as [H1 Ha].
      constructor.
      * apply IH; repeat split; auto.
      * rewrite Forall_app; split; [assumption|].
        rewrite Forall_forall; intros y Hy; apply H12; auto.
Qed.

Lemma StronglySorted_rev {A : Type} (R : A -> A -> Prop) (l : list A) :
  StronglySorted R l -> StronglySorted (fun x y => R y x) (rev l).
Proof.
  induction 1 as [|a l Hs IH Ha]; simpl.
  - constructor.
  - apply StronglySorted_app_iff; repeat split.
    + exact IH.
    + repeat constructor.
    + intros x y Hx [<-|[]]. apply in_rev in Hx.
      rewrite Forall_forall in Ha; auto.
Qed.

Lemma StronglySorted_map {A B : Type} (f : A -> B) (R : B -> B -> Prop)
  (l : list A) :
  StronglySorted (fun x y => R (f x) (f y)) l -> StronglySorted R (map f l).
Proof.
  induction 1 as [|a l Hs IH Ha]; simpl; constructor; [assumption|].
  rewrite Forall_map; exact Ha.
Qed.

Lemma StronglySorted_weaken {A : Type} (R S : A -> A -> Prop) (l : list A) :
  (forall x y, In x l -> In y l -> R x y -> S x y) ->
  StronglySorted R l -> StronglySorted S l.
Proof.
  intros HRS Hs; induction Hs as [|a l Hs IH Ha]; constructor.
  - apply IH; intros; apply HRS; simpl; auto.
  - rewrite Forall_forall in *; intros y Hy.
    apply HRS; simpl; auto.
Qed.

Lemma seq_strongly_sorted (start len : nat) :
  StronglySorted lt (seq start len).
Proof.
  revert start; induction len as [|len IH]; intros start; simpl.
  - constructor.
  - constructor; [apply IH|].
    rewrite Forall_forall; intros y Hy; apply in_seq in Hy; lia.
Qed.

Lemma map_nth_seq (a : list Z) :
  map (fun i => nth i a 0) (seq 0 (length a)) = a.
Proof.
  induction a as [|x a IH]; simpl; [reflexivity|].
  f_equal. rewrite <- seq_shift, map_map. exact IH.
Qed.

(** [a[np.argsort(a)]] is [np.sort(a)]. *)
Lemma take_indices_argsort (a : list Z) :
  np.take_indices a (np.argsort a) = np.sort a.
Proof.
  unfold np.take_indices, np.argsort, np.sort.
  now rewrite map_sort_by, map_nth_seq.
Qed.

Lemma argsort_perm (a : list Z) :
  Permutation (np.argsort a) (seq 0 (length a)).
Proof. apply sort_by_perm. Qed.

Lemma argsort_length (a : list Z) : length (np.argsort a) = length a.
Proof.
  rewrite (Permutation_length (argsort_perm a)). apply length_seq.
Qed.

Lemma sort_perm (a : list Z) : Permutation (np.sort a) a.
Proof. apply sort_by_perm. Qed.

(** The insertion sort behind [np.argsort] lists the positions by ascending
    value, equal values by ascending position. *)
Lemma argsort_stable (a : list Z) :
  StronglySorted (stable_lt (fun i => nth i a 0) (fun i => i)) (np.argsort a).
Proof.
  apply sort_by_stable. apply seq_strongly_sorted.
Qed.

Lemma np_sum_perm (l l' : list Z) :
  Permutation l l' -> np.sum l = np.sum l'.
Proof.
  induction 1; unfold np.sum in *; simpl; lia.
Qed.

Lemma np_sum_app (l l' : list Z) : np.sum (l ++ l') = np.sum l + np.sum l'.
Proof.
  induction l; unfold np.sum in *; simpl; lia.
Qed.

(** ** First fit *)

Lemma first_fit_result_spec (bins : list Z) (bins_result : list (list nat))
  (size : Z) (item : nat) :
  length bins = length bins_result ->
  match first_fit_result bins bins_result size item with
  | Some (bs, rs) =>
      first_fit bins size = Some bs /\ length bs = length rs /\
      length rs = length bins_result
  | None => first_fit bins size = None
  end.
Proof.
  revert bins_result; induction bins as [|b bins IH];
    intros [|r bins_result] Hlen; simpl in *; try discriminate; auto.
  destruct (size <=? b); simpl.
  - repeat split; congruence.
  - injection Hlen as Hlen. specialize (IH _ Hlen).
    destruct (first_fit_result bins bins_result size item) as [[bs rs]|].
    + destruct IH as (-> & H1 & H2); simpl; repeat split; congruence.
    + now rewrite IH.
Qed.

Lemma first_fit_app (bins rest : list Z) (size : Z) :
  first_fit (bins ++ rest) size =
  match first_fit bins size with
  | Some bs => Some (bs ++ rest)
  | None => option_map (app bins) (first_fit rest size)
  end.
Proof.
  induction bins as [|b bins IH]; simpl.
  - now destruct (first_fit rest size).
  - destruct (size <=? b); [reflexivity|].
    rewrite IH. destruct (first_fit bins size); simpl; [reflexivity|].
    now destruct (first_fit rest size).
Qed.

Lemma first_fit_repeat (c : Z) (k : nat) (size : Z) :
  first_fit (repeat c k) size =
  match k with
  | O => None
  | S k' => if size <=? c then Some ((c - size) :: repeat c k') else None
  end.
Proof.
  induction k as [|k IH]; simpl; [reflexivity|].
  destruct (size <=? c) eqn:E; [reflexivity|].
  rewrite IH. destruct k; reflexivity.
Qed.

Lemma first_fit_nonneg (bins bs : list Z) (size : Z) :
  first_fit bins size = Some bs ->
  Forall (fun b => 0 <= b) bins -> Forall (fun b => 0 <= b) bs.
Proof.
  revert bs; induction bins as [|b bins IH]; intros bs; simpl;
    [discriminate|].
  destruct (size <=? b) eqn:E.
  - intros [= <-] H. apply Forall_cons_iff in H as [Hb H].
    apply Z.leb_le in E. constructor; [lia | assumption].
  - destruct (first_fit bins size) as [bs'|]; simpl; [|discriminate].
    intros [= <-] H. apply Forall_cons_iff in H as [Hb H].
    constructor; [assumption | now apply IH].
Qed.

(** A placement takes [size] out of the free room. *)
Lemma first_fit_sum (bins bs : list Z) (size : Z) :
  first_fit bins size = Some bs -> np.sum bs = np.sum bins - size.
Proof.
  revert bs; induction bins as [|b bins IH]; intros bs; simpl;
    [discriminate|].
  destruct (size <=? b).
  - intros [= <-]. unfold np.sum; simpl; lia.
  - destruct (first_fit bins size) as [bs'|]; simpl; [|discriminate].
    intros [= <-]. specialize (IH _ eq_refl).
    unfold np.sum in *; simpl; lia.
Qed.

(** The oracle accepts only what fits in the total room. *)
Lemma ffd_check_loop_sum (sizes bins : list Z) :
  ffd_check_loop sizes bins = true ->
  Forall (fun b => 0 <= b) bins ->
  np.sum sizes <= np.sum bins.
Proof.
  revert bins; induction sizes as [|size sizes IH]; intros bins; simpl.
  - intros _ H. unfold np.sum at 1; simpl.
    induction H; unfold np.sum in *; simpl; lia.
  - destruct (first_fit bins size) as [bs|] eqn:E; [|discriminate].
    intros Hc Hb.
    specialize (IH _ Hc (first_fit_nonneg _ _ _ E Hb)).
    rewrite (first_fit_sum _ _ _ E) in IH.
    unfold np.sum in *; simpl; lia.
Qed.

Lemma np_sum_repeat (c : Z) (n : nat) : np.sum (repeat c n) = c * Z.of_nat n.
Proof.
  induction n as [|n IH]; unfold np.sum in *; simpl repeat; simpl fold_right;
    lia.
Qed.

Lemma ffd_check_sum (a : list Z) (c : Z) (n : nat) :
  0 <= c -> ffd_check a c n = true -> np.sum a <= c * Z.of_nat n.
Proof.
  intros Hc H. unfold ffd_check in H.
  apply ffd_check_loop_sum in H.
  - rewrite np_sum_repeat in H.
    rewrite <- (np_sum_perm _ _ (sort_perm a)).
    rewrite (np_sum_perm _ _ (Permutation_rev (np.sort a))). exact H.
  - apply Forall_forall. intros b Hb. apply repeat_spec in Hb. lia.
Qed.

(** The packer and the oracle walk in step for as long as the oracle has a
    bin left: the packer's bins are the oracle's touched bins. *)
Lemma ffd_result_loop_sim (c : Z) (items : list (nat * Z)) :
  forall (bins : list Z) (bins_result : list (list nat)) (k : nat),
    length bins = length bins_result ->
    ffd_check_loop (map snd items) (bins ++ repeat c k) = true ->
    Forall (fun b => 0 <= b) bins ->
    (length (snd (ffd_result_loop c items bins bins_result))
       <= length bins_result + k)%nat /\
    Forall (fun b => 0 <= b) (fst (ffd_result_loop c items bins bins_result)).
Proof.
  induction items as [|[item size] items IH]; intros bins br k Hlen Hc Hb;
    simpl in *.
  - split; [lia | assumption].
  - rewrite first_fit_app in Hc.
    pose proof (first_fit_result_spec bins br size item Hlen) as Hs.
    destruct (first_fit_result bins br size item) as [[bs rs]|].
    + destruct Hs as (Hf & H1 & H2). rewrite Hf in Hc.
      destruct (IH bs rs k H1 Hc (first_fit_nonneg _ _ _ Hf Hb)) as [Ha Hb'].
      split; [lia | assumption].
    + rewrite Hs, first_fit_repeat in Hc.
      destruct k as [|k]; simpl in Hc; [discriminate|].
      destruct (size <=? c) eqn:E; simpl in Hc; [|discriminate].
      apply Z.leb_le in E.
      replace (bins ++ (c - size) :: repeat c k)
        with ((bins ++ [c - size]) ++ repeat c k) in Hc
        by (rewrite <- app_assoc; reflexivity).
      destruct (IH (bins ++ [c - size]) (br ++ [[item]]) k) as [Ha Hb'].
      * rewrite !length_app; simpl; lia.
      * exact Hc.
      * apply Forall_app; split; [assumption|]. constructor; [lia|constructor].
      * rewrite length_app in Ha; simpl in Ha. split; [lia | assumption].
Qed.

(** *** What the bins hold *)

Section Load.

  (** The size of the item recorded under an index. *)
Variable size_of : nat -> Z.
Variable c : Z.

Lemma first_fit_result_room (bins : list Z) (bins_result : list (list nat))
    (size : Z) (item : nat) (bs : list Z) (rs : list (list nat)) :
    size_of item = size ->
    room_ok size_of c bins bins_result ->
    first_fit_result bins bins_result size item = Some (bs, rs) ->
    room_ok size_of c bs rs.
Proof.
    intros Hsz H; revert bs rs.
    induction H as [|b r bins br Hbr H IH]; intros bs rs; simpl;
      [discriminate|].
    destruct (size <=? b).
    - intros [= <- <-]. constructor; [|assumption].
      unfold bin_load in *. rewrite map_app, np_sum_app.
      unfold np.sum at 2; simpl. lia.
    - destruct (first_fit_result bins br size item) as [[bs' rs']|];
        [|discriminate].
      intros [= <- <-]. constructor; [assumption | now apply IH].
Qed.

Lemma ffd_result_loop_room (items : list (nat * Z)) :
    forall (bins : list Z) (bins_result : list (list nat)),
      Forall (fun p => size_of (fst p) = snd p) items ->
      room_ok size_of c bins bins_result ->
      room_ok size_of c (fst (ffd_result_loop c items bins bins_result))
              (snd (ffd_result_loop c items bins bins_result)).
Proof.
    induction items as [|[item size] items IH]; intros bins br Hi H; simpl.
    - exact H.
    - apply Forall_cons_iff in Hi as [Hsz Hi]. simpl in Hsz.
      destruct (first_fit_result bins br size item) as [[bs rs]|] eqn:E.
      + apply IH; [assumption|].
        eapply first_fit_result_room; eauto.
      + apply IH; [assumption|].
        apply Forall2_app; [assumption|].
        constructor; [|constructor].
        unfold bin_load, np.sum; simpl. lia.
Qed.

Lemma room_ok_capacity (bins : list Z) (bins_result : list (list nat)) :
    room_ok size_of c bins bins_result ->
    Forall (fun b => 0 <= b) bins ->
    Forall (fun r => bin_load size_of r <= c) bins_result.
Proof.
    induction 1 as [|b r bins br Hbr H IH]; intros Hb; constructor.
    - apply Forall_cons_iff in Hb as [Hb _]. lia.
    - apply IH. now apply Forall_cons_iff in Hb as [_ Hb].
Qed.

End Load.

(** *** Where the items go *)

Lemma first_fit_result_perm (bins : list Z) (bins_result : list (list nat))
  (size : Z) (item : nat) (bs : list Z) (rs : list (list nat)) :
  first_fit_result bins bins_result size item = Some (bs, rs) ->
  Permutation (concat rs) (item :: concat bins_result).
Proof.
  revert bins_result bs rs; induction bins as [|b bins IH];
    intros [|r br] bs rs; simpl; try discriminate.
  destruct (size <=? b).
  - intros [= <- <-]. simpl.
    change (item :: r ++ concat br) with ((item :: r) ++ concat br).
    apply Permutation_app_tail.
    apply Permutation_sym, Permutation_cons_append.
  - destruct (first_fit_result bins br size item) as [[bs' rs']|] eqn:E;
      [|discriminate].
    intros [= <- <-]. simpl.
    eapply perm_trans; [apply Permutation_app_head, (IH _ _ _ E)|].
    apply Permutation_sym, Permutation_middle.
Qed.

Lemma ffd_result_loop_perm (c : Z) (items : list (nat * Z)) :
  forall (bins : list Z) (bins_result : list (list nat)),
    Permutation (concat (snd (ffd_result_loop c items bins bins_result)))
                (concat bins_result ++ map fst items).
Proof.
  induction items as [|[item size] items IH]; intros bins br; simpl.
  - rewrite app_nil_r. apply Permutation_refl.
  - destruct (first_fit_result bins br size item) as [[bs rs]|] eqn:E.
    + eapply perm_trans; [apply IH|].
      eapply perm_trans;
        [apply Permutation_app_tail, (first_fit_result_perm _ _ _ _ _ _ E)|].
      simpl. apply Permutation_middle.
    + eapply perm_trans; [apply IH|].
      rewrite concat_app; simpl. rewrite <- app_assoc.
      apply Permutation_refl.
Qed.

(** *** The packer's work list *)

Lemma combine_map_map {A B C : Type} (f : A -> B) (g : A -> C) (l : list A) :
  combine (map f l) (map g l) = map (fun x => (f x, g x)) l.
Proof. induction l; simpl; congruence. Qed.

Lemma ffd_items_eq (a : list Z) (base : nat) :
  ffd_items a base =
  map (fun i => ((i + base)%nat, nth i a 0)) (rev (np.argsort a)).
Proof. unfold ffd_items, np.take_indices. apply combine_map_map. Qed.

Lemma ffd_items_fst (a : list Z) (base : nat) :
  map fst (ffd_items a base) =
  map (fun i => (i + base)%nat) (rev (np.argsort a)).
Proof. rewrite ffd_items_eq, map_map. reflexivity. Qed.

Lemma ffd_items_snd (a : list Z) (base : nat) :
  map snd (ffd_items a base) = rev (np.sort a).
Proof.
  rewrite ffd_items_eq, map_map; simpl.
  rewrite map_rev. f_equal. apply take_indices_argsort.
Qed.

Lemma ffd_items_size (a : list Z) (base : nat) :
  Forall (fun p => nth (fst p - base) a 0 = snd p) (ffd_items a base).
Proof.
  rewrite ffd_items_eq. apply Forall_map, Forall_forall.
  intros i _; simpl. f_equal. lia.
Qed.

Lemma map_add_seq (base start len : nat) :
  map (fun i => (i + base)%nat) (seq start len) = seq (start + base) len.
Proof.
  revert start; induction len as [|len IH]; intros start; simpl;
    [reflexivity|].
  f_equal. apply (IH (S start)).
Qed.

Lemma ffd_items_fst_perm (a : list Z) (base : nat) :
  Permutation (map fst (ffd_items a base)) (seq base (length a)).
Proof.
  rewrite ffd_items_fst.
  change (seq base (length a)) with (seq (0 + base) (length a)).
  rewrite <- (map_add_seq base 0 (length a)).
  apply Permutation_map.
  eapply perm_trans; [apply Permutation_sym, Permutation_rev|].
  apply argsort_perm.
Qed.

Lemma ffd_with_result_eq (a : list Z) (c : Z) (base : nat) :
  ffd_with_result a c base =
  (snd (ffd_result_loop c (ffd_items a base) [] []), length a).
Proof.
  unfold ffd_with_result.
  destruct (ffd_result_loop c (ffd_items a base) [] []) as [bins br]; simpl.
  f_equal. unfold np.take_indices.
  now rewrite length_map, length_rev, argsort_length.
Qed.

Lemma ffd_with_result_perm (a : list Z) (c : Z) (base : nat) :
  Permutation (concat (fst (ffd_with_result a c base))) (seq base (length a)).
Proof.
  rewrite ffd_with_result_eq; simpl.
  eapply perm_trans; [apply ffd_result_loop_perm|]. simpl.
  apply ffd_items_fst_perm.
Qed.

(** *** The order inside a bin *)

Lemma first_fit_result_Forall (P Q : list nat -> Prop) (item : nat) :
  (forall r, P r -> Q r) ->
  (forall r, P r -> Q (r ++ [item])) ->
  forall (bins : list Z) (bins_result : list (list nat)) (size : Z)
         (bs : list Z) (rs : list (list nat)),
    first_fit_result bins bins_result size item = Some (bs, rs) ->
    Forall P bins_result -> Forall Q rs.
Proof.
  intros HPQ Happ bins; induction bins as [|b bins IH];
    intros [|r br] size bs rs; simpl; try discriminate.
  destruct (size <=? b).
  - intros [= <- <-] H. apply Forall_cons_iff in H as [Hr H].
    constructor; [now apply Happ | eapply Forall_impl; eauto].
  - destruct (first_fit_result bins br size item) as [[bs' rs']|] eqn:E;
      [|discriminate].
    intros [= <- <-] H. apply Forall_cons_iff in H as [Hr H].
    constructor; [now apply HPQ | eapply IH; eauto].
Qed.

Section BinOrder.

Variable R : nat -> nat -> Prop.

  (** A bin is in work-list order and everything in it precedes what is
      still to be placed. *)
Let ahead (todo : list nat) (r : list nat) : Prop :=
    StronglySorted R r /\ forall x y, In x r -> In y todo -> R x y.

Lemma ffd_result_loop_sorted (c : Z) (items : list (nat * Z)) :
    forall (bins : list Z) (bins_result : list (list nat)),
      StronglySorted R (map fst items) ->
      Forall (ahead (map fst items)) bins_result ->
      Forall (StronglySorted R)
             (snd (ffd_result_loop c items bins bins_result)).
Proof.
    induction items as [|[item size] items IH]; intros bins br Hs Hb; simpl.
    - eapply Forall_impl; [|exact Hb]. now intros r [H _].
    - simpl in Hs, Hb. apply StronglySorted_inv in Hs as [Hs Hitem].
      rewrite Forall_forall in Hitem.
      assert (Hkeep : forall r, ahead (item :: map fst items) r ->
                                ahead (map fst items) r).
      { intros r [H1 H2]; split; [assumption|].
        intros x y Hx Hy; apply H2; simpl; auto. }
      assert (Hput : forall r, ahead (item :: map fst items) r ->
                               ahead (map fst items) (r ++ [item])).
      { intros r [H1 H2]; split.
        - apply StronglySorted_app_iff; repeat split;
            [assumption | repeat constructor |].
          intros x y Hx [<-|[]]. apply H2; simpl; auto.
        - intros x y Hx Hy. apply in_app_or in Hx as [Hx|[<-|[]]].
          + apply H2; simpl; auto.
          + now apply Hitem. }
      destruct (first_fit_result bins br size item) as [[bs rs]|] eqn:E.
      + apply IH; [assumption|].
        eapply first_fit_result_Forall; [exact Hkeep | exact Hput | exact E |].
        exact Hb.
      + apply IH; [assumption|].
        apply Forall_app; split.
        * eapply Forall_impl; [exact Hkeep | exact Hb].
        * constructor; [|constructor].
          split; [repeat constructor|].
          intros x y [<-|[]] Hy. now apply Hitem.
Qed.

End BinOrder.

(** With the insertion sort behind [np.argsort], the work list and every
    bin are in [processed_before] order. *)
Lemma ffd_items_order (a : list Z) (base : nat) :
  StronglySorted (processed_before a base) (map fst (ffd_items a base)).
Proof.
  rewrite ffd_items_fst, map_rev.
  apply StronglySorted_rev with (R := fun i j => processed_before a base j i).
  apply StronglySorted_map.
  eapply StronglySorted_weaken; [|apply argsort_stable].
  intros x y _ _ H. unfold processed_before, stable_lt in *.
  replace (x + base - base)%nat with x by lia.
  replace (y + base - base)%nat with y by lia. lia.
Qed.

Lemma ffd_with_result_order (a : list Z) (c : Z) (base : nat) :
  Forall (StronglySorted (processed_before a base))
         (fst (ffd_with_result a c base)).
Proof.
  rewrite ffd_with_result_eq; simpl.
  apply ffd_result_loop_sorted; [apply ffd_items_order | constructor].
Qed.

Lemma sort_descending (a : list Z) :
  StronglySorted (fun x y => y <= x) (rev (np.sort a)).
Proof.
  apply StronglySorted_rev with (R := fun x y => x <= y).
  rewrite <- take_indices_argsort. unfold np.take_indices.
  apply StronglySorted_map.
  eapply StronglySorted_weaken; [|apply argsort_stable].
  intros x y _ _ H. unfold stable_lt in H. lia.
Qed.

(** ** The allocator *)

Section AllocateFacts.

Variables (lengths lengths_cumsum : list Z) (rank : Z) (c : Z) (n : nat).

Lemma window_length (start k : nat) :
    length (window lengths start k) = Nat.min k (length lengths - start).
Proof. unfold window. now rewrite length_firstn, length_skipn. Qed.

Lemma window_nth (start k i : nat) :
    (i < length (window lengths start k))%nat ->
    nth i (window lengths start k) 0 = nth (start + i) lengths 0.
Proof.
    rewrite window_length. intros Hi. unfold window.
    rewrite nth_firstn, nth_skipn.
    destruct (i <? k)%nat eqn:E; [reflexivity|].
    apply Nat.ltb_ge in E. lia.
Qed.

Lemma window_sum (start k : nat) :
    np.sum (firstn (start + k) lengths) =
    np.sum (firstn start lengths) + np.sum (window lengths start k).
Proof.
    unfold window.
    rewrite <- (firstn_skipn start lengths) at 1.
    rewrite firstn_app, np_sum_app. f_equal.
    - rewrite firstn_firstn.
      replace (Nat.min (start + k) start) with start by lia. reflexivity.
    - rewrite length_firstn.
      destruct (Nat.le_gt_cases start (length lengths)) as [H|H].
      + replace (start + k - Nat.min start (length lengths))%nat with k by lia.
        reflexivity.
      + rewrite (skipn_all2 lengths) by lia. now rewrite !firstn_nil.
Qed.

  (** *** The binary search *)

Lemma bisect_spec (fuel start left right : nat) :
    let L := bisect lengths c n fuel start left right in
    (left <= L)%nat /\
    (L = left \/ ffd_check (window lengths start L) c n = true) /\
    (L = left \/ L < right)%nat.
Proof.
    revert left right; induction fuel as [|fuel IH]; intros left right;
      cbn [bisect].
    - repeat split; auto.
    - destruct (1 <? right - left)%nat eqn:E; [|repeat split; auto].
      apply Nat.ltb_lt in E.
      assert (Hmid : (left < (left + right) / 2 < right)%nat).
      { split.
        - apply Nat.div_le_lower_bound; lia.
        - apply Nat.Div0.div_lt_upper_bound; lia. }
      destruct (ffd_check (window lengths start ((left + right) / 2)) c n)
        eqn:Hc.
      + destruct (IH ((left + right) / 2)%nat right) as (H1 & H2 & H3).
        repeat split.
        * lia.
        * right. destruct H2 as [->|H2]; assumption.
        * right. destruct H3 as [->|H3]; lia.
      + destruct (IH left ((left + right) / 2)%nat) as (H1 & H2 & H3).
        repeat split.
        * lia.
        * exact H2.
        * destruct H3 as [H3|H3]; [left; assumption | right; lia].
Qed.

  (** The fuel is never what stops the search. *)
Lemma bisect_fuel (fuel fuel' start left right : nat) :
    (right - left <= S fuel)%nat -> (right - left <= S fuel')%nat ->
    bisect lengths c n fuel start left right =
    bisect lengths c n fuel' start left right.
Proof.
    revert fuel' left right; induction fuel as [|fuel IH];
      intros [|fuel'] left right H H'; cbn [bisect]; try reflexivity.
    - destruct (1 <? right - left)%nat eqn:E; [|reflexivity].
      apply Nat.ltb_lt in E. lia.
    - destruct (1 <? right - left)%nat eqn:E; [|reflexivity].
      apply Nat.ltb_lt in E. lia.
    - destruct (1 <? right - left)%nat eqn:E; [|reflexivity].
      apply Nat.ltb_lt in E.
      assert (Hmid : (left < (left + right) / 2 < right)%nat).
      { split.
        - apply Nat.div_le_lower_bound; lia.
        - apply Nat.Div0.div_lt_upper_bound; lia. }
      destruct (ffd_check (window lengths start ((left + right) / 2)) c n);
        apply IH; lia.
Qed.

(** The fuel handed to the search by [chosen_left] is enough: any larger
    fuel gives the same [left]. *)
Lemma chosen_left_fuel (st : alloc_state) (k : nat) :
  bisect lengths c n (initial_right lengths_cumsum c n st - 1 + k)
    (st_start_index st) 1 (initial_right lengths_cumsum c n st)
  = chosen_left lengths lengths_cumsum c n st.
Proof. unfold chosen_left. apply bisect_fuel; lia. Qed.

Lemma chosen_left_spec (st : alloc_state) :
    let L := chosen_left lengths lengths_cumsum c n st in
    (1 <= L)%nat /\
    (L = 1%nat \/
     ffd_check (window lengths (st_start_index st) L) c n = true) /\
    (L = 1%nat \/ L < initial_right lengths_cumsum c n st)%nat.
Proof. apply bisect_spec. Qed.

  (** *** The packer on a window *)

Lemma bin_load_ext (f g : nat -> Z) (r : list nat) :
    (forall i, In i r -> f i = g i) -> bin_load f r = bin_load g r.
Proof.
    intros H. unfold bin_load. f_equal. apply map_ext_in. exact H.
Qed.

Lemma packer_members (a : list Z) (base : nat) (r : list nat) (i : nat) :
    In r (fst (ffd_with_result a c base)) -> In i r ->
    (base <= i < base + length a)%nat.
Proof.
    intros Hr Hi.
    assert (H : In i (concat (fst (ffd_with_result a c base)))).
    { apply in_concat. exists r; auto. }
    apply (Permutation_in _ (ffd_with_result_perm a c base)) in H.
    apply in_seq in H. exact H.
Qed.

Lemma packer_window_load (start k : nat) (r : list nat) :
    In r (fst (ffd_with_result (window lengths start k) c start)) ->
    bin_sum lengths r =
    bin_load (fun i => nth (i - start) (window lengths start k) 0) r.
Proof.
    intros Hr. apply bin_load_ext. intros i Hi.
    pose proof (packer_members _ _ _ _ Hr Hi) as H.
    rewrite window_nth by lia. f_equal. lia.
Qed.

  (** What the oracle accepts for [n] bins the packer puts into at most [n]
      bins, none of them over capacity. *)
Lemma packer_of_feasible (a : list Z) (base : nat) :
    ffd_check a c n = true ->
    (length (fst (ffd_with_result a c base)) <= n)%nat /\
    Forall (fun r => bin_load (fun i => nth (i - base) a 0) r <= c)
           (fst (ffd_with_result a c base)).
Proof.
    intros H. unfold ffd_check in H.
    rewrite <- (ffd_items_snd a base) in H.
    rewrite ffd_with_result_eq; simpl.
    destruct (ffd_result_loop_sim c (ffd_items a base) [] [] n eq_refl H)
      as [Hn Hb]; [constructor|].
    split; [exact Hn|].
    eapply room_ok_capacity; [|exact Hb].
    apply ffd_result_loop_room; [apply ffd_items_size | constructor].
Qed.

Lemma packer_of_one (x : Z) (base : nat) :
    ffd_with_result [x] c base = ([[base]], 1%nat).
Proof. reflexivity. Qed.

Lemma packer_of_none (base : nat) :
    ffd_with_result [] c base = ([], 0%nat).
Proof. reflexivity. Qed.

Lemma window_one (start : nat) :
    (window lengths start 1 = [] /\ (length lengths <= start)%nat) \/
    (window lengths start 1 = [nth start lengths 0] /\
     (start < length lengths)%nat).
Proof.
    unfold window.
    destruct (Nat.le_gt_cases (length lengths) start) as [H|H].
    - left. rewrite skipn_all2 by assumption. auto.
    - right. split; [|assumption].
      destruct (skipn start lengths) as [|x l] eqn:E.
      + apply (f_equal (@length Z)) in E. rewrite length_skipn in E.
        simpl in E. lia.
      + simpl. f_equal.
        rewrite <- (Nat.add_0_r start), <- nth_skipn, E. reflexivity.
Qed.

  (** Every bin of a round is within capacity when no sample is longer
      than the capacity. *)
Lemma round_batch_capacity (st : alloc_state) :
    Forall (fun x => x <= c) lengths ->
    Forall (fun bin => bin_sum lengths bin <= c)
           (fst (round_batch lengths lengths_cumsum c n st)).
Proof.
    intros Hle. unfold round_batch.
    destruct (chosen_left_spec st) as (_ & [H1|Hc] & _).
    - rewrite H1.
      destruct (window_one (st_start_index st)) as [[-> _]|[-> Hlt]].
      + constructor.
      + rewrite packer_of_one; simpl. constructor; [|constructor].
        unfold bin_sum, bin_load, np.sum; simpl.
        rewrite Forall_forall in Hle.
        specialize (Hle _ (nth_In lengths 0 Hlt)). lia.
    - apply Forall_forall. intros r Hr.
      rewrite (packer_window_load _ _ _ Hr).
      destruct (packer_of_feasible _ (st_start_index st) Hc) as [_ H].
      rewrite Forall_forall in H. now apply H.
Qed.

  (** The packer opens at most [n] bins on the chosen window. *)
Lemma round_batch_count (st : alloc_state) :
    (1 <= n)%nat ->
    (length (fst (round_batch lengths lengths_cumsum c n st)) <= n)%nat.
Proof.
    intros Hn. unfold round_batch.
    destruct (chosen_left_spec st) as (_ & [H1|Hc] & _).
    - rewrite H1.
      destruct (window_one (st_start_index st)) as [[-> _]|[-> _]].
      + simpl. lia.
      + rewrite packer_of_one. simpl. lia.
    - now apply packer_of_feasible.
Qed.

End AllocateFacts.

Lemma py_getitem_In {A : Type} (l : list A) (i : Z) (x : A) :
  py_getitem l i = Some x -> In x l.
Proof.
  unfold py_getitem.
  destruct (0 <=? i); [apply nth_error_In|].
  destruct (- Z.of_nat (length l) <=? i); [apply nth_error_In | discriminate].
Qed.

Lemma py_getitem_valid {A : Type} (l : list A) (i : Z) (n : nat) :
  valid_rank i n -> (n <= length l)%nat -> exists x, py_getitem l i = Some x.
Proof.
  unfold valid_rank, py_getitem. intros Hi Hn.
  destruct (0 <=? i) eqn:E.
  - apply Z.leb_le in E.
    destruct (nth_error l (Z.to_nat i)) as [x|] eqn:Hx; [eauto|].
    apply nth_error_None in Hx. lia.
  - apply Z.leb_gt in E.
    destruct (- Z.of_nat (length l) <=? i) eqn:E'.
    + destruct (nth_error l (Z.to_nat (Z.of_nat (length l) + i))) as [x|]
        eqn:Hx; [eauto|].
      apply nth_error_None in Hx. lia.
    + apply Z.leb_gt in E'. lia.
Qed.

Section AllocateRun.

Variables (lengths lengths_cumsum : list Z) (rank : Z) (c : Z) (n : nat).

Let step := allocate_step lengths lengths_cumsum rank c n.
Let batch_of (st : alloc_state) :=
    fst (round_batch lengths lengths_cumsum c n st).
Let left_of := chosen_left lengths lengths_cumsum c n.

  (** The three ways through the loop body. *)
Lemma allocate_step_cases (st : alloc_state) :
    ((length (batch_of st) < n)%nat /\ step st = Break) \/
    ((n <= length (batch_of st))%nat /\
     py_getitem (batch_of st) rank = None /\ step st = RaiseIndexError) \/
    ((n <= length (batch_of st))%nat /\
     exists bin,
       py_getitem (batch_of st) rank = Some bin /\
       step st =
       Yield (bin, snd (round_batch lengths lengths_cumsum c n st),
              nth (st_start_index st + left_of st - 1) lengths_cumsum 0,
              Z.of_nat (length (st_result st ++ [bin])) * c * Z.of_nat n)
             (mk_alloc_state
                (nth (st_start_index st + left_of st - 1) lengths_cumsum 0)
                (st_start_index st + left_of st)
                (st_result st ++ [bin]))).
Proof.
    unfold step, batch_of, left_of, allocate_step.
    destruct (round_batch lengths lengths_cumsum c n st) as [batch tot];
      simpl fst; simpl snd.
    destruct (length batch <? n)%nat eqn:E.
    - left. apply Nat.ltb_lt in E. auto.
    - right. apply Nat.ltb_ge in E.
      destruct (py_getitem batch rank) as [bin|]; [right | left]; eauto.
Qed.

Lemma batch_nonempty_in_range (st : alloc_state) :
    batch_of st <> [] -> (st_start_index st < length lengths)%nat.
Proof.
    unfold batch_of, round_batch. intros H.
    destruct (Nat.le_gt_cases (length lengths) (st_start_index st))
      as [Hle|Hlt]; [|exact Hlt].
    exfalso. apply H.
    unfold window. rewrite skipn_all2 by assumption.
    now rewrite firstn_nil.
Qed.

  (** What an emitted round does to the state. *)
Lemma allocate_step_yield (st st' : alloc_state)
    (out : list nat * nat * Z * Z) :
    step st = Yield out st' ->
    In (yielded_bin out) (batch_of st) /\
    (n <= length (batch_of st))%nat /\
    st_start_index st' = (st_start_index st + left_of st)%nat /\
    st_s st' = nth (st_start_index st' - 1) lengths_cumsum 0 /\
    (st_start_index st < st_start_index st')%nat /\
    (st_start_index st < length lengths)%nat.
Proof.
    intros H.
    destruct (allocate_step_cases st)
      as [[_ E]|[(_ & _ & E)|(Hn & bin & Hb & E)]];
      rewrite E in H; try discriminate.
    injection H as <- <-. simpl.
    apply py_getitem_In in Hb.
    pose proof (chosen_left_spec lengths lengths_cumsum c n st) as (H1 & _).
    fold left_of in H1.
    repeat split; try assumption; try lia.
    apply batch_nonempty_in_range. intros E'. rewrite E' in Hb. exact Hb.
Qed.

  (** Past the end of the input nothing is emitted. *)
Lemma allocate_step_exhausted (st st' : alloc_state)
    (out : list nat * nat * Z * Z) :
    (length lengths <= st_start_index st)%nat -> step st <> Yield out st'.
Proof.
    intros Hle H. apply allocate_step_yield in H. lia.
Qed.

  (** The generator is never cut short by its fuel, and it emits at most
      one round per remaining sample. *)
Lemma allocate_loop_ends (fuel : nat) :
    forall st,
      (length lengths - st_start_index st < fuel)%nat ->
      snd (allocate_loop lengths lengths_cumsum rank c n fuel st)
        <> Suspended /\
      (length (fst (allocate_loop lengths lengths_cumsum rank c n fuel st))
         <= length lengths - st_start_index st)%nat.
Proof.
    induction fuel as [|fuel IH]; intros st Hf; [lia|].
    cbn [allocate_loop]. fold step.
    destruct (step st) as [| |out st'] eqn:E; simpl;
      try (split; [discriminate | lia]).
    apply allocate_step_yield in E as (_ & _ & _ & _ & Hlt & Hin).
    destruct (IH st') as [H1 H2]; [lia|].
    destruct (allocate_loop lengths lengths_cumsum rank c n fuel st')
      as [outs e]; simpl in *.
    split; [assumption | lia].
Qed.

  (** More fuel changes nothing. *)
Lemma allocate_loop_fuel (fuel : nat) :
    forall st k,
      (length lengths - st_start_index st < fuel)%nat ->
      allocate_loop lengths lengths_cumsum rank c n (fuel + k) st =
      allocate_loop lengths lengths_cumsum rank c n fuel st.
Proof.
    induction fuel as [|fuel IH]; intros st k Hf; [lia|].
    cbn [allocate_loop Nat.add]. fold step.
    destruct (step st) as [| |out st'] eqn:E; try reflexivity.
    apply allocate_step_yield in E as (_ & _ & _ & _ & Hlt & Hin).
    rewrite IH by lia. reflexivity.
Qed.

  (** Whatever the generator yields was emitted by the loop body in a
      state reachable from the state the loop is entered in. *)
Lemma allocate_loop_yields (P : alloc_state -> Prop)
    (Q : list nat * nat * Z * Z -> Prop) :
    (forall st out st', P st -> step st = Yield out st' -> Q out /\ P st') ->
    forall fuel st,
      P st ->
      Forall Q (fst (allocate_loop lengths lengths_cumsum rank c n fuel st)).
Proof.
    intros Hstep fuel; induction fuel as [|fuel IH]; intros st HP;
      cbn [allocate_loop]; [constructor|]. fold step.
    destruct (step st) as [| |out st'] eqn:E; simpl; try constructor.
    destruct (Hstep _ _ _ HP E) as [HQ HP'].
    specialize (IH st' HP').
    destruct (allocate_loop lengths lengths_cumsum rank c n fuel st').
    simpl in *. constructor; assumption.
Qed.

  (** A run that ends in [StopIteration] ends in a reachable state where
      the loop body breaks. *)
Lemma allocate_loop_stop (fuel : nat) :
    forall st,
      reachable lengths lengths_cumsum rank c n st ->
      snd (allocate_loop lengths lengths_cumsum rank c n fuel st)
        = StopIteration ->
      exists st_end,
        reachable lengths lengths_cumsum rank c n st_end /\
        step st_end = Break.
Proof.
    induction fuel as [|fuel IH]; intros st Hr; cbn [allocate_loop];
      [discriminate|]. fold step.
    destruct (step st) as [| |out st'] eqn:E; simpl; try discriminate.
    - eauto.
    - intros H. apply (IH st').
      + econstructor; eauto.
      + destruct (allocate_loop lengths lengths_cumsum rank c n fuel st').
        exact H.
Qed.

  (** With a valid rank and at least one bin the loop body never raises. *)
Lemma allocate_step_no_raise (st : alloc_state) :
    valid_rank rank n -> step st <> RaiseIndexError.
Proof.
    intros Hr H.
    destruct (allocate_step_cases st)
      as [[_ E]|[(Hn & Hb & _)|(_ & bin & _ & E)]];
      try (rewrite E in H; discriminate).
    destruct (py_getitem_valid (batch_of st) rank n Hr Hn) as [x Hx].
    congruence.
Qed.

Lemma allocate_loop_no_raise (fuel : nat) :
    valid_rank rank n ->
    forall st,
      snd (allocate_loop lengths lengths_cumsum rank c n fuel st) <> Raised.
Proof.
    intros Hr; induction fuel as [|fuel IH]; intros st; cbn [allocate_loop];
      [discriminate|]. fold step.
    destruct (step st) as [| |out st'] eqn:E; simpl; try discriminate.
    - now apply allocate_step_no_raise in E.
    - specialize (IH st').
      destruct (allocate_loop lengths lengths_cumsum rank c n fuel st').
      exact IH.
Qed.

End AllocateRun.

(** ** The cumulative sums and the bisection over them *)

Lemma cumsum_from_length (acc : Z) (a : list Z) :
  length (np.cumsum_from acc a) = length a.
Proof. revert acc; induction a; intros acc; simpl; auto. Qed.

Lemma cumsum_from_nth (a : list Z) :
  forall acc i,
    (i < length a)%nat ->
    nth i (np.cumsum_from acc a) 0 = acc + np.sum (firstn (S i) a).
Proof.
  induction a as [|x a IH]; intros acc i Hi; simpl in Hi; [lia|].
  destruct i as [|i].
  - simpl. unfold np.sum; simpl. destruct a; simpl; lia.
  - cbn [np.cumsum_from nth]. rewrite IH by lia.
    change (firstn (S (S i)) (x :: a)) with (x :: firstn (S i) a).
    unfold np.sum; simpl fold_right. lia.
Qed.

Lemma cumsum_length (a : list Z) : length (np.cumsum a) = length a.
Proof. apply cumsum_from_length. Qed.

Lemma cumsum_nth (a : list Z) (i : nat) :
  (i < length a)%nat -> nth i (np.cumsum a) 0 = np.sum (firstn (S i) a).
Proof. intros H. unfold np.cumsum. rewrite cumsum_from_nth by assumption. lia. Qed.

Lemma searchsorted_loop_spec (a : list Z) (v : Z) (fuel : nat) :
  forall lo hi,
    (lo <= hi <= length a)%nat ->
    (hi - lo <= fuel)%nat ->
    ((hi < length a)%nat -> v < nth hi a 0) ->
    let r := np.searchsorted_loop fuel a v lo hi in
    (r <= length a)%nat /\ ((r < length a)%nat -> v < nth r a 0).
Proof.
  induction fuel as [|fuel IH]; intros lo hi Hb Hf Hhi; cbn [np.searchsorted_loop].
  - replace lo with hi by lia. split; [lia | assumption].
  - destruct (lo <? hi)%nat eqn:E.
    + apply Nat.ltb_lt in E.
      assert (Hmid : (lo <= (lo + hi) / 2 < hi)%nat).
      { split.
        - apply Nat.div_le_lower_bound; lia.
        - apply Nat.Div0.div_lt_upper_bound; lia. }
      destruct (nth ((lo + hi) / 2) a 0 <=? v) eqn:Hc.
      * apply IH; [lia | lia | assumption].
      * apply Z.leb_gt in Hc. apply IH; [lia | lia |]. intros _. lia.
    + apply Nat.ltb_ge in E. replace lo with hi by lia.
      split; [lia | assumption].
Qed.

(** [np.searchsorted(a, v, "right")] stops in front of an element larger
    than [v], or at the end. *)
Lemma searchsorted_right_spec (a : list Z) (v : Z) :
  let r := np.searchsorted_right a v in
  (r <= length a)%nat /\ ((r < length a)%nat -> v < nth r a 0).
Proof.
  unfold np.searchsorted_right. apply searchsorted_loop_spec; lia.
Qed.

(** ** The invariant of the binary search *)

Section SearchInvariant.

Variables (lengths : list Z) (rank : Z) (c : Z) (n : nat).

Let lengths_cumsum := np.cumsum lengths.

Hypothesis lengths_fit : Forall (fun x => 0 <= x <= c) lengths.
Hypothesis some_rank : (1 <= n)%nat.

  (** Between rounds [s] is the sum of the lengths consumed so far. *)
Let cursor_ok (st : alloc_state) : Prop :=
    (st_start_index st <= length lengths)%nat /\
    st_s st = np.sum (firstn (st_start_index st) lengths).

Lemma initial_right_bound (st : alloc_state) :
    (initial_right lengths_cumsum c n st
       <= 1 + (length lengths - st_start_index st))%nat.
Proof.
    unfold initial_right.
    pose proof (searchsorted_right_spec
                  (skipn (st_start_index st) lengths_cumsum)
                  (st_s st + c * Z.of_nat n)) as [H _].
    rewrite length_skipn in H.
    replace (length lengths_cumsum) with (length lengths) in H
      by (symmetry; apply cumsum_length).
    lia.
Qed.

Lemma reachable_cursor_ok (st : alloc_state) :
    reachable lengths lengths_cumsum rank c n st -> cursor_ok st.
Proof.
    induction 1 as [|st out st' Hr IH Hs].
    - split; simpl; [lia | reflexivity].
    - apply allocate_step_yield in Hs as (_ & _ & Hst & Hs' & Hlt & Hin).
      pose proof (chosen_left_spec lengths lengths_cumsum c n st)
        as (H1 & _ & H3).
      pose proof (initial_right_bound st) as Hb.
      assert (Hle : (st_start_index st' <= length lengths)%nat) by lia.
      split; [exact Hle|].
      rewrite Hs'. unfold lengths_cumsum. rewrite cumsum_nth by lia.
      f_equal. f_equal. lia.
Qed.

Lemma capacity_nonneg : lengths <> [] -> 0 <= c.
Proof.
    destruct lengths as [|x l]; [congruence|]. intros _.
    apply Forall_cons_iff in lengths_fit as [H _]. lia.
Qed.

  (** One sample always fits. *)
Lemma window_one_feasible (start : nat) :
    ffd_check (window lengths start 1) c n = true.
Proof.
    destruct (window_one lengths start) as [[-> _]|[-> Hlt]].
    - reflexivity.
    - destruct n as [|n']; [lia|].
      unfold ffd_check. cbn.
      pose proof lengths_fit as H. rewrite Forall_forall in H.
      specialize (H _ (nth_In lengths 0 Hlt)).
      destruct (nth start lengths 0 <=? c) eqn:E; [reflexivity|].
      apply Z.leb_gt in E. lia.
Qed.

  (** The first [right] is infeasible or out of range. *)
Lemma initial_right_infeasible (st : alloc_state) :
    cursor_ok st ->
    ffd_check
      (window lengths (st_start_index st) (initial_right lengths_cumsum c n st))
      c n = false \/
    (length lengths
       < st_start_index st + initial_right lengths_cumsum c n st)%nat.
Proof.
    intros [Hle Hs].
    destruct (Nat.le_gt_cases
                (st_start_index st + initial_right lengths_cumsum c n st)
                (length lengths)) as [Hin|Hout]; [left | right; exact Hout].
    unfold initial_right in *.
    set (k := np.searchsorted_right (skipn (st_start_index st) lengths_cumsum)
                (st_s st + c * Z.of_nat n)) in *.
    pose proof (searchsorted_right_spec
                  (skipn (st_start_index st) lengths_cumsum)
                  (st_s st + c * Z.of_nat n)) as [_ H].
    fold k in H. rewrite length_skipn in H.
    replace (length lengths_cumsum) with (length lengths) in H
      by (symmetry; apply cumsum_length).
    specialize (H ltac:(lia)).
    rewrite nth_skipn in H. unfold lengths_cumsum in H.
    rewrite cumsum_nth in H by lia.
    replace (S (st_start_index st + k)) with (st_start_index st + (1 + k))%nat
      in H by lia.
    rewrite window_sum, <- Hs in H.
    destruct (ffd_check (window lengths (st_start_index st) (1 + k)) c n)
      eqn:Hc; [|reflexivity].
    apply ffd_check_sum in Hc; [lia|].
    apply capacity_nonneg. intros E. rewrite E in Hin. simpl in Hin. lia.
Qed.

Lemma search_state_invariant (st : alloc_state) (left right : nat) :
    cursor_ok st ->
    search_state lengths lengths_cumsum c n st left right ->
    search_invariant lengths c n st left right.
Proof.
    intros Hst; induction 1 as [|left right Hs [IH1 IH2] Hgap Hc
                                |left right Hs [IH1 IH2] Hgap Hc].
    - split; [apply window_one_feasible | now apply initial_right_infeasible].
    - split; assumption.
    - split; [assumption | left; assumption].
Qed.

  (** The search leaves the loop in one of its loop heads. *)
Lemma bisect_search_state (st : alloc_state) (fuel : nat) :
    forall left right,
      search_state lengths lengths_cumsum c n st left right ->
      exists right',
        search_state lengths lengths_cumsum c n st
          (bisect lengths c n fuel (st_start_index st) left right) right'.
Proof.
    induction fuel as [|fuel IH]; intros left right Hs; cbn [bisect];
      [eauto|].
    destruct (1 <? right - left)%nat eqn:E; [|eauto].
    apply Nat.ltb_lt in E.
    destruct (ffd_check
                (window lengths (st_start_index st) ((left + right) / 2)) c n)
      eqn:Hc; apply IH.
    - now apply search_up.
    - now apply search_down.
Qed.

Lemma chosen_left_search_state (st : alloc_state) :
    exists right,
      search_state lengths lengths_cumsum c n st
        (chosen_left lengths lengths_cumsum c n st) right.
Proof. apply bisect_search_state. constructor. Qed.

End SearchInvariant.

(** ** The packer: partition and order *)

(** C8.  For every size array [a], capacity [c] and base index, the bins the
    packer returns partition the input positions: put end to end they are a
    rearrangement of [base, ..., base + len(a) - 1], so no index is recorded
    twice and exactly the indices of that range are recorded; the reported
    item count is [len(a)]. *)
Theorem ffd_with_result_partition (a : list Z) (c : Z) (base : nat) :
  Permutation (concat (fst (ffd_with_result a c base))) (seq base (length a))
  /\ NoDup (concat (fst (ffd_with_result a c base)))
  /\ (forall i, In i (concat (fst (ffd_with_result a c base))) <->
                (base <= i < base + length a)%nat)
  /\ snd (ffd_with_result a c base) = length a.
Proof.
  pose proof (ffd_with_result_perm a c base) as Hp.
  split; [exact Hp|].
  split.
  { eapply Permutation_NoDup; [apply Permutation_sym, Hp | apply seq_NoDup]. }
  split; [|now rewrite ffd_with_result_eq].
  intros i. split; intros Hi.
  - apply (Permutation_in _ Hp), in_seq in Hi. lia.
  - apply (Permutation_in _ (Permutation_sym Hp)), in_seq. lia.
Qed.

(** C9, as the claim states it, fails: on the all-equal input [[5; 5]] the
    packer records the bin [[1; 0]], which is not in increasing order. *)
Lemma ffd_with_result_equal_sizes_not_increasing :
  ~ Forall (StronglySorted lt) (fst (ffd_with_result [5; 5] 10 0)).
Proof.
  intros H. apply Forall_inv in H. cbv in H.
  apply StronglySorted_inv in H as [_ H]. apply Forall_inv in H. lia.
Qed.

(** C9, amended.  The oracle and the packer both place the sizes in
    descending order (the ascending sort, reversed), and every bin lists
    its items in that order, by non-increasing size.  Ties are not broken
    stably: the reversal also reverses the order that the ascending sort
    gave to equal sizes.  For an array of fewer than 16 items, where that
    sort is the stable insertion sort, the packer therefore takes up equal
    sizes latest position first, every bin lists its indices in that
    [processed_before] order, and for an input of all-equal sizes every
    bin lists its indices in decreasing original order.  For longer arrays
    nothing is stated about the order among equal sizes. *)
Theorem ffd_processing_order (a : list Z) (c : Z) (n base : nat) :
  ffd_check a c n = ffd_check_loop (rev (np.sort a)) (repeat c n)
  /\ map snd (ffd_items a base) = rev (np.sort a)
  /\ StronglySorted (fun x y => y <= x) (rev (np.sort a))
  /\ Forall (StronglySorted
               (fun i j => nth (j - base) a 0 <= nth (i - base) a 0))
            (fst (ffd_with_result a c base))
  /\ ((length a < 16)%nat ->
      StronglySorted (processed_before a base) (map fst (ffd_items a base))
      /\ Forall (StronglySorted (processed_before a base))
                (fst (ffd_with_result a c base))
      /\ ((forall x y, In x a -> In y a -> x = y) ->
          Forall (StronglySorted (fun i j => (j < i)%nat))
                 (fst (ffd_with_result a c base)))).
Proof.
  split; [reflexivity|].
  split; [apply ffd_items_snd|].
  split; [apply sort_descending|].
  pose proof (ffd_with_result_order a c base) as Hord.
  split.
  { eapply Forall_impl; [|exact Hord]. intros r Hr.
    eapply StronglySorted_weaken; [|exact Hr].
    intros x y _ _ Hxy. unfold processed_before, stable_lt in Hxy. lia. }
  intros _.
  split; [apply ffd_items_order|].
  split; [exact Hord|].
  intros Heq. apply Forall_forall. intros r Hr.
  rewrite Forall_forall in Hord. specialize (Hord r Hr).
  eapply StronglySorted_weaken; [|exact Hord].
  intros x y Hx Hy Hxy.
  pose proof (packer_members c a base r x Hr Hx) as Bx.
  pose proof (packer_members c a base r y Hr Hy) as By.
  unfold processed_before, stable_lt in Hxy.
  assert (E : nth (y - base) a 0 = nth (x - base) a 0).
  { apply Heq; apply nth_In; lia. }
  lia.
Qed.

Lemma ffd_processing_order_witness :
  (length [5; 5]%Z < 16)%nat /\
  (forall x y, In x [5; 5] -> In y [5; 5] -> x = y) /\
  Forall (StronglySorted (fun i j => (j < i)%nat))
         (fst (ffd_with_result [5; 5] 10 0)).
Proof.
  assert (Hlen : (length [5; 5]%Z < 16)%nat) by (simpl; lia).
  assert (H : forall x y : Z, In x [5; 5] -> In y [5; 5] -> x = y).
  { intros x y [<-|[<-|[]]] [<-|[<-|[]]]; reflexivity. }
  split; [exact Hlen|]. split; [exact H|].
  exact (proj2 (proj2 (proj2 (proj2 (proj2 (proj2
           (ffd_processing_order [5; 5] 10 1 0)))) Hlen)) H).
Defined.

(** ** The allocator: capacity, acceptance, termination *)

(** C1, as the claim states it, fails: a sample longer than the capacity is
    emitted as a bin of its own ([lengths = [15]], [c = 10], [n = 1]). *)
Lemma allocate_emits_oversized_bin :
  ~ Forall (fun out => bin_sum [15] (yielded_bin out) <= 10)
           (fst (allocate [15] (np.cumsum [15]) 0 10 1)).
Proof.
  intros H. apply Forall_inv in H. cbv in H. apply H. reflexivity.
Qed.

(** C1, amended.  When no sample is longer than the capacity [c], then for
    every lengths array, worker count [n] and rank, every bin that the
    packer produces for a round has a sum of member sample lengths of at
    most [c], and so has every bin that the allocator yields. *)
Theorem allocate_bins_within_capacity
  (lengths lengths_cumsum : list Z) (rank c : Z) (n : nat) :
  Forall (fun x => x <= c) lengths ->
  (forall st,
      Forall (fun bin => bin_sum lengths bin <= c)
             (fst (round_batch lengths lengths_cumsum c n st)))
  /\ Forall (fun out => bin_sum lengths (yielded_bin out) <= c)
            (fst (allocate lengths lengths_cumsum rank c n)).
Proof.
  intros Hle.
  assert (Hall : forall st,
             Forall (fun bin => bin_sum lengths bin <= c)
                    (fst (round_batch lengths lengths_cumsum c n st))).
  { intros st. now apply round_batch_capacity. }
  split; [exact Hall|].
  unfold allocate.
  apply allocate_loop_yields with (P := fun _ => True); [|exact I].
  intros st out st' _ Hs. split; [|exact I].
  apply allocate_step_yield in Hs as (Hin & _).
  specialize (Hall st). rewrite Forall_forall in Hall. now apply Hall.
Qed.

Lemma allocate_bins_within_capacity_witness :
  Forall (fun x => x <= 10) [9; 1; 9; 1] /\
  Forall (fun out => bin_sum [9; 1; 9; 1] (yielded_bin out) <= 10)
         (fst (allocate [9; 1; 9; 1] (np.cumsum [9; 1; 9; 1]) 1 10 2)).
Proof.
  assert (H : Forall (fun x => x <= 10) [9; 1; 9; 1])
    by (repeat constructor; lia).
  split; [exact H|].
  exact (proj2 (allocate_bins_within_capacity
                  [9; 1; 9; 1] (np.cumsum [9; 1; 9; 1]) 1 10 2 H)).
Defined.

(** C6.  In every allocator iteration with worker count [n >= 1] the packer
    opens at most [n] bins on the chosen prefix, so the loop breaks exactly
    when the bin count differs from [n], and (for a rank among the [n]) a
    round is emitted exactly when the bin count equals [n]. *)
Theorem allocate_accepts_exactly_n
  (lengths lengths_cumsum : list Z) (rank c : Z) (n : nat)
  (st : alloc_state) :
  (1 <= n)%nat ->
  (length (fst (round_batch lengths lengths_cumsum c n st)) <= n)%nat
  /\ (allocate_step lengths lengths_cumsum rank c n st = Break <->
      length (fst (round_batch lengths lengths_cumsum c n st)) <> n)
  /\ (valid_rank rank n ->
      ((exists out st',
           allocate_step lengths lengths_cumsum rank c n st = Yield out st')
       <-> length (fst (round_batch lengths lengths_cumsum c n st)) = n)).
Proof.
  intros Hn.
  pose proof (round_batch_count lengths lengths_cumsum c n st Hn) as Hc.
  pose proof (allocate_step_cases lengths lengths_cumsum rank c n st) as Hs.
  split; [exact Hc|]. split.
  - destruct Hs as [[Hlt E]|[(Hge & _ & E)|(Hge & bin & _ & E)]];
      rewrite E; split; intros H; try discriminate; try lia; reflexivity.
  - intros Hr.
    destruct Hs as [[Hlt E]|[(Hge & _ & E)|(Hge & bin & _ & E)]].
    + rewrite E; split; [intros (out & st' & H); discriminate | lia].
    + exfalso.
      apply (allocate_step_no_raise lengths lengths_cumsum rank c n st Hr E).
    + rewrite E; split; [lia | eauto].
Qed.

Lemma allocate_accepts_exactly_n_witness :
  (1 <= 2)%nat /\
  (allocate_step [9; 1; 9; 1] (np.cumsum [9; 1; 9; 1]) 0 10 2 initial_state
     = Break <->
   length (fst (round_batch [9; 1; 9; 1] (np.cumsum [9; 1; 9; 1]) 10 2
                  initial_state)) <> 2%nat).
Proof.
  assert (H : (1 <= 2)%nat) by (repeat constructor).
  split; [exact H|].
  exact (proj1 (proj2 (allocate_accepts_exactly_n
                         [9; 1; 9; 1] (np.cumsum [9; 1; 9; 1]) 0 10 2
                         initial_state H))).
Defined.

(** C7.  For every lengths array the allocator terminates: its run is never
    cut by the fuel and is the same for any larger fuel, it emits at most
    one round per sample, and the cursor [start_index] strictly advances on
    every emitted round.  With [n >= 1] every emitted round has exactly [n]
    bins, so an undersized remainder is never emitted; and for a rank among
    the [n] the run ends in [StopIteration], in a state where the packer
    fills fewer than [n] bins from what is left. *)
Theorem allocate_terminates
  (lengths lengths_cumsum : list Z) (rank c : Z) (n : nat) :
  snd (allocate lengths lengths_cumsum rank c n) <> Suspended
  /\ (forall k,
         allocate_loop lengths lengths_cumsum rank c n
           (S (length lengths) + k) initial_state
         = allocate lengths lengths_cumsum rank c n)
  /\ (length (fst (allocate lengths lengths_cumsum rank c n))
        <= length lengths)%nat
  /\ (forall st out st',
         allocate_step lengths lengths_cumsum rank c n st = Yield out st' ->
         (st_start_index st < st_start_index st')%nat /\
         (st_start_index st < length lengths)%nat)
  /\ ((1 <= n)%nat ->
      forall st out st',
        allocate_step lengths lengths_cumsum rank c n st = Yield out st' ->
        length (fst (round_batch lengths lengths_cumsum c n st)) = n)
  /\ ((1 <= n)%nat -> valid_rank rank n ->
      snd (allocate lengths lengths_cumsum rank c n) = StopIteration /\
      exists st_end,
        reachable lengths lengths_cumsum rank c n st_end /\
        allocate_step lengths lengths_cumsum rank c n st_end = Break /\
        (length (fst (round_batch lengths lengths_cumsum c n st_end)) < n)%nat).
Proof.
  assert (Hfuel : (length lengths - st_start_index initial_state
                   < S (length lengths))%nat) by (simpl; lia).
  destruct (allocate_loop_ends lengths lengths_cumsum rank c n _ _ Hfuel)
    as [Hend Hcount].
  split; [exact Hend|].
  split; [intros k; now apply allocate_loop_fuel|].
  split.
  { change (st_start_index initial_state) with 0%nat in Hcount.
    rewrite Nat.sub_0_r in Hcount. exact Hcount. }
  split.
  { intros st out st' Hs.
    apply allocate_step_yield in Hs as (_ & _ & _ & _ & H1 & H2). auto. }
  split.
  { intros Hn st out st' Hs.
    pose proof (round_batch_count lengths lengths_cumsum c n st Hn).
    apply allocate_step_yield in Hs as (_ & H1 & _). lia. }
  intros Hn Hr.
  assert (Hstop : snd (allocate lengths lengths_cumsum rank c n)
                  = StopIteration).
  { pose proof (allocate_loop_no_raise lengths lengths_cumsum rank c n
                  (S (length lengths)) Hr initial_state) as Hnr.
    unfold allocate in *.
    destruct (snd (allocate_loop lengths lengths_cumsum rank c n
                     (S (length lengths)) initial_state));
      congruence. }
  split; [exact Hstop|].
  destruct (allocate_loop_stop lengths lengths_cumsum rank c n _ _
              (reachable_init _ _ _ _ _) Hstop) as (st_end & Hre & Hb).
  exists st_end. repeat split; try assumption.
  destruct (allocate_step_cases lengths lengths_cumsum rank c n st_end)
    as [[Hlt _]|[(_ & _ & E)|(_ & bin & _ & E)]];
    [exact Hlt | congruence | congruence].
Qed.

Lemma allocate_terminates_witness :
  (1 <= 1)%nat /\ valid_rank 0 1 /\
  snd (allocate [5; 5; 5; 5] (np.cumsum [5; 5; 5; 5]) 0 10 1) = StopIteration.
Proof.
  assert (Hn : (1 <= 1)%nat) by constructor.
  assert (Hr : valid_rank 0 1) by (unfold valid_rank; simpl; lia).
  split; [exact Hn|]. split; [exact Hr|].
  exact (proj1 (proj2 (proj2 (proj2 (proj2 (proj2
           (allocate_terminates
              [5; 5; 5; 5] (np.cumsum [5; 5; 5; 5]) 0 10 1))))) Hn Hr)).
Defined.

(** C5, as the claim states it, fails: the search starts from [left = 1]
    without asking the oracle, and for [lengths = [15]], [c = 10], [n = 1]
    the window of length 1 is not feasible, although it is the [left] used
    for packing. *)
Lemma bisect_left_not_always_feasible :
  reachable [15] (np.cumsum [15]) 0 10 1 initial_state /\
  search_state [15] (np.cumsum [15]) 10 1 initial_state 1 1 /\
  chosen_left [15] (np.cumsum [15]) 10 1 initial_state = 1%nat /\
  ~ search_invariant [15] 10 1 initial_state 1 1.
Proof.
  split; [constructor|].
  split; [exact (search_enter [15] (np.cumsum [15]) 10 1 initial_state)|].
  split; [reflexivity|].
  intros [H _]. cbv in H. discriminate.
Qed.

(** C5, amended.  When every sample length lies between 0 and the capacity
    [c] and there is at least one worker, then in every allocator round, at
    every loop head of the binary search, [left] is a window length whose
    prefix the oracle accepts for [n] bins of capacity [c], and [right] is
    one the oracle rejects or one that reaches past the end of the input;
    the search ends in such a loop head, so the [left] used for packing is
    feasible. *)
Theorem bisect_invariant
  (lengths : list Z) (rank c : Z) (n : nat) (st : alloc_state) :
  Forall (fun x => 0 <= x <= c) lengths ->
  (1 <= n)%nat ->
  reachable lengths (np.cumsum lengths) rank c n st ->
  (forall left right,
      search_state lengths (np.cumsum lengths) c n st left right ->
      search_invariant lengths c n st left right)
  /\ (exists right,
         search_state lengths (np.cumsum lengths) c n st
           (chosen_left lengths (np.cumsum lengths) c n st) right)
  /\ ffd_check
       (window lengths (st_start_index st)
          (chosen_left lengths (np.cumsum lengths) c n st)) c n = true.
Proof.
  intros Hfit Hn Hr.
  assert (Hok : (st_start_index st <= length lengths)%nat /\
                st_s st = np.sum (firstn (st_start_index st) lengths))
    by (eapply reachable_cursor_ok; eassumption).
  assert (Hinv : forall left right,
             search_state lengths (np.cumsum lengths) c n st left right ->
             search_invariant lengths c n st left right).
  { intros left right. now apply search_state_invariant. }
  destruct (chosen_left_search_state lengths c n st) as [right Hs].
  split; [exact Hinv|].
  split; [exists right; exact Hs|].
  exact (proj1 (Hinv _ _ Hs)).
Qed.

Lemma bisect_invariant_witness :
  Forall (fun x => 0 <= x <= 10) [9; 1; 9; 1] /\
  (1 <= 2)%nat /\
  reachable [9; 1; 9; 1] (np.cumsum [9; 1; 9; 1]) 0 10 2 initial_state /\
  ffd_check
    (window [9; 1; 9; 1] (st_start_index initial_state)
       (chosen_left [9; 1; 9; 1] (np.cumsum [9; 1; 9; 1]) 10 2 initial_state))
    10 2 = true.
Proof.
  assert (Hfit : Forall (fun x => 0 <= x <= 10) [9; 1; 9; 1])
    by (repeat constructor; lia).
  assert (Hn : (1 <= 2)%nat) by (repeat constructor).
  assert (Hr : reachable [9; 1; 9; 1] (np.cumsum [9; 1; 9; 1]) 0 10 2
                 initial_state) by constructor.
  split; [exact Hfit|]. split; [exact Hn|]. split; [exact Hr|].
  exact (proj2 (proj2 (bisect_invariant [9; 1; 9; 1] 0 10 2 initial_state
                         Hfit Hn Hr))).
Defined.

(** ** Construction *)

(** C10, as the claim states it, fails: a non-positive bin capacity is not
    rejected.  With [seq_max_length = -2048] and everything else at its
    default the constructor returns an object whose capacity is negative. *)
Lemma init_accepts_nonpositive_capacity :
  exists self,
    __init__ example_dataset (-2048) 1 None 1%Q 1 1 None = inr self /\
    capacity self <= 0.
Proof.
  eexists. split; [reflexivity|]. cbv. discriminate.
Qed.

(** C10, amended.  On a dataset whose rows all carry [input_ids] the
    constructor raises, before any iteration, exactly in these cases: the
    sequence-length multiplier is 0 ([ZeroDivisionError]), or [batch_size]
    is not a multiple of the multiplier or is smaller than it
    ([AssertionError]).  Neither the sign of [batch_size] nor the resulting
    bin capacity [seq_max_length * multiplier] is checked: as soon as the
    two assertions hold, construction succeeds. *)
Theorem init_fails_fast
  (dataset : dataset_t) (seq_max_length batch_size : Z)
  (smp : option sampler_t) (packing_efficiency_estimate : Q)
  (multiplier device_count : Z) (total_num_tokens : option Z)
  (sample_lengths : list Z) :
  mapM sample_length (rows dataset) = inr sample_lengths ->
  (multiplier = 0 ->
   __init__ dataset seq_max_length batch_size smp
     packing_efficiency_estimate multiplier device_count total_num_tokens
   = inl ZeroDivisionError)
  /\ (multiplier <> 0 ->
      batch_size mod multiplier <> 0 \/ batch_size < multiplier ->
      __init__ dataset seq_max_length batch_size smp
        packing_efficiency_estimate multiplier device_count total_num_tokens
      = inl AssertionError)
  /\ (multiplier <> 0 ->
      batch_size mod multiplier = 0 -> multiplier <= batch_size ->
      exists self,
        __init__ dataset seq_max_length batch_size smp
          packing_efficiency_estimate multiplier device_count total_num_tokens
        = inr self /\
        capacity self = seq_max_length * multiplier /\
        lengths self = sample_lengths /\
        sampler self = smp /\
        rank self = 0 /\ num_replicas self = 1%nat).
Proof.
  intros Hl. unfold __init__. rewrite Hl. cbn [bind].
  repeat split.
  - intros ->. reflexivity.
  - intros Hm Hbad.
    destruct (multiplier =? 0) eqn:E0; [apply Z.eqb_eq in E0; lia|].
    destruct (batch_size mod multiplier =? 0) eqn:E1; cbn [negb];
      [|reflexivity].
    destruct (multiplier <=? batch_size) eqn:E2; cbn [negb]; [|reflexivity].
    apply Z.eqb_eq in E1. apply Z.leb_le in E2. lia.
  - intros Hm Hmod Hle.
    destruct (multiplier =? 0) eqn:E0; [apply Z.eqb_eq in E0; lia|].
    apply Z.eqb_eq in Hmod. apply Z.leb_le in Hle.
    rewrite Hmod, Hle. cbn [negb].
    eexists. split; [reflexivity|]. repeat split.
Qed.

Lemma init_fails_fast_witness :
  mapM sample_length (rows example_dataset) = inr [5; 5; 5; 5] /\
  3 <> 0 /\ (4 mod 3 <> 0 \/ 4 < 3) /\
  __init__ example_dataset 10 4 None 1%Q 3 1 None = inl AssertionError.
Proof.
  assert (H : mapM sample_length (rows example_dataset) = inr [5; 5; 5; 5])
    by reflexivity.
  assert (H3 : 3 <> 0) by discriminate.
  assert (H4 : 4 mod 3 <> 0 \/ 4 < 3) by (left; discriminate).
  split; [exact H|]. split; [exact H3|]. split; [exact H4|].
  exact (proj1 (proj2 (init_fails_fast example_dataset 10 4 None 1%Q 3 1 None
                         [5; 5; 5; 5] H)) H3 H4).
Defined.

(** ** The batch producer *)

Lemma mapM_length {A B : Type} (f : A -> res B) (l : list A) (l' : list B) :
  mapM f l = inr l' -> length l' = length l.
Proof.
  revert l'; induction l as [|x l IH]; intros l'; simpl.
  - intros [= <-]. reflexivity.
  - destruct (f x) as [e|y]; simpl; [discriminate|].
    destruct (mapM f l) as [e|ys]; simpl; [discriminate|].
    intros [= <-]. simpl. f_equal. now apply IH.
Qed.

Lemma mapM_getitem_suffix {A : Type} (post : list A) :
  forall pre,
    mapM (getitem (pre ++ post)) (seq (length pre) (length post)) = inr post.
Proof.
  induction post as [|x post IH]; intros pre; simpl; [reflexivity|].
  unfold getitem at 1.
  rewrite nth_error_app2, Nat.sub_diag by lia. simpl.
  specialize (IH (pre ++ [x])).
  rewrite <- app_assoc, length_app, Nat.add_1_r in IH. simpl in IH.
  rewrite IH. reflexivity.
Qed.

(** [x[range(len(x))]] is [x]. *)
Lemma mapM_getitem_all {A : Type} (l : list A) :
  mapM (getitem l) (seq 0 (length l)) = inr l.
Proof. apply (mapM_getitem_suffix l []). Qed.

Lemma mapM_getitem_in_range {A : Type} (l : list A) (idxs : list nat) :
  Forall (fun i => (i < length l)%nat) idxs ->
  exists r, mapM (getitem l) idxs = inr r.
Proof.
  induction 1 as [|i idxs Hi H [r IH]]; simpl; [eauto|].
  unfold getitem at 1.
  destruct (nth_error l i) as [x|] eqn:E.
  - simpl. rewrite IH. simpl. eauto.
  - apply nth_error_None in E. lia.
Qed.

(** Everything the allocator yields lies inside the input. *)
Lemma allocate_yields_in_range
  (lengths lengths_cumsum : list Z) (rank c : Z) (n : nat) :
  Forall (fun out =>
            Forall (fun i => (i < length lengths)%nat) (yielded_bin out))
         (fst (allocate lengths lengths_cumsum rank c n)).
Proof.
  unfold allocate.
  apply allocate_loop_yields with (P := fun _ => True); [|exact I].
  intros st out st' _ Hs. split; [|exact I].
  apply allocate_step_yield in Hs as (Hin & _).
  apply Forall_forall. intros i Hi.
  unfold round_batch in Hin.
  pose proof (packer_members c _ _ _ _ Hin Hi) as H.
  rewrite window_length in H. lia.
Qed.

Lemma put_rounds_no_exception (indices : list nat) (set_stats : bool)
  (outs : list (list nat * nat * Z * Z)) :
  Forall (fun out =>
            Forall (fun i => (i < length indices)%nat) (yielded_bin out))
         outs ->
  forall self, snd (put_rounds indices set_stats outs self) = None.
Proof.
  induction 1 as [|[[[batch tot] used] slots] outs Hb H IH]; intros self;
    simpl; [reflexivity|].
  destruct (mapM_getitem_in_range indices batch Hb) as [item ->].
  match goal with
  | |- context [put_rounds indices set_stats outs ?s] =>
      specialize (IH s);
      destruct (put_rounds indices set_stats outs s) as [[puts s'] e]
  end.
  exact IH.
Qed.

(** A loader without sampler whose length array matches its dataset, with
    a rank among its replicas, never raises in [generate_batches]. *)
Lemma generate_batches_no_exception (self : MultipackDistributedDataloader)
  (set_stats : bool) :
  sampler self = None ->
  length (lengths self) = length (rows (dataset self)) ->
  valid_rank (rank self) (num_replicas self) ->
  snd (generate_batches self set_stats) = None.
Proof.
  intros Hs Hlen Hr. unfold generate_batches, epoch_indices.
  rewrite Hs, <- Hlen, mapM_getitem_all.
  pose proof (allocate_yields_in_range (lengths self)
                (np.cumsum (lengths self)) (rank self) (capacity self)
                (num_replicas self)) as Hin.
  pose proof (allocate_loop_no_raise (lengths self)
                (np.cumsum (lengths self)) (rank self) (capacity self)
                (num_replicas self) (S (length (lengths self))) Hr
                initial_state) as Hnr.
  fold (allocate (lengths self) (np.cumsum (lengths self)) (rank self)
          (capacity self) (num_replicas self)) in Hnr.
  destruct (allocate (lengths self) (np.cumsum (lengths self)) (rank self)
              (capacity self) (num_replicas self)) as [outs e].
  simpl in Hin, Hnr.
  pose proof (put_rounds_no_exception (seq 0 (length (lengths self)))
                set_stats outs) as Hp.
  rewrite length_seq in Hp. specialize (Hp Hin self).
  destruct (put_rounds (seq 0 (length (lengths self))) set_stats outs self)
    as [[puts self'] e'].
  simpl in Hp. subst e'.
  destruct e; simpl; congruence.
Qed.

Lemma generate_batches_thread_puts (self : MultipackDistributedDataloader) :
  fst (_generate_batches_thread self) =
  map Some (fst (fst (generate_batches self true))) ++
  match snd (generate_batches self true) with
  | Some _ => [None]
  | None => []
  end.
Proof.
  unfold _generate_batches_thread.
  destruct (generate_batches self true) as [[puts self'] [x|]]; simpl;
    [reflexivity | now rewrite app_nil_r].
Qed.

(** C3, as the claim states it, fails: on the example loader production
    ends normally, the allocator being exhausted after two rounds, and the
    producer has put the two bins on the queue and no terminal marker. *)
Lemma producer_normal_end_without_marker :
  snd (generate_batches example_loader true) = None /\
  fst (_generate_batches_thread example_loader)
    = [Some [1; 0]; Some [3; 2]]%nat /\
  ~ In None (fst (_generate_batches_thread example_loader)).
Proof.
  split; [reflexivity|]. split; [reflexivity|].
  cbv. intros [H|[H|[]]]; discriminate.
Qed.

(** C3, amended.  The producer pushes the terminal marker exactly when
    [generate_batches] ends by raising, and then as its last put; when
    production ends normally it pushes no marker.  In particular a loader
    without sampler, with a length array matching its dataset and a rank
    among its replicas (as the constructor builds it) never pushes the
    marker. *)
Theorem producer_terminal_marker (self : MultipackDistributedDataloader) :
  fst (_generate_batches_thread self)
  = map Some (fst (fst (generate_batches self true)))
    ++ match snd (generate_batches self true) with
       | Some _ => [None]
       | None => []
       end
  /\ (In None (fst (_generate_batches_thread self)) <->
      exists x, snd (generate_batches self true) = Some x)
  /\ (sampler self = None ->
      length (lengths self) = length (rows (dataset self)) ->
      valid_rank (rank self) (num_replicas self) ->
      snd (generate_batches self true) = None /\
      ~ In None (fst (_generate_batches_thread self))).
Proof.
  pose proof (generate_batches_thread_puts self) as Hp.
  assert (Hiff : In None (fst (_generate_batches_thread self)) <->
                 exists x, snd (generate_batches self true) = Some x).
  { rewrite Hp. split.
    - intros H. apply in_app_or in H as [H|H].
      + apply in_map_iff in H as (x & Hx & _). discriminate.
      + destruct (snd (generate_batches self true)) as [x|]; [eauto|].
        destruct H.
    - intros [x ->]. apply in_or_app. right. left. reflexivity. }
  split; [exact Hp|]. split; [exact Hiff|].
  intros Hs Hlen Hr.
  pose proof (generate_batches_no_exception self true Hs Hlen Hr) as Hn.
  split; [exact Hn|].
  intros H. apply Hiff in H as [x Hx]. congruence.
Qed.

Lemma producer_terminal_marker_witness :
  sampler example_loader = None /\
  length (lengths example_loader) = length (rows (dataset example_loader)) /\
  valid_rank (rank example_loader) (num_replicas example_loader) /\
  snd (generate_batches example_loader true) = None /\
  ~ In None (fst (_generate_batches_thread example_loader)).
Proof.
  assert (Hs : sampler example_loader = None) by reflexivity.
  assert (Hl : length (lengths example_loader)
               = length (rows (dataset example_loader))) by reflexivity.
  assert (Hr : valid_rank (rank example_loader) (num_replicas example_loader))
    by (unfold valid_rank; simpl; lia).
  split; [exact Hs|]. split; [exact Hl|]. split; [exact Hr|].
  exact (proj2 (proj2 (producer_terminal_marker example_loader)) Hs Hl Hr).
Defined.

(** ** The round budget *)

(** Once the budget is zero or negative the test [if not len_remaining]
    never fires again: only the terminal marker makes the loop return. *)
Lemma iter_loop_budget_spent {B : Type} (collate_fn : list dict -> B)
  (self : MultipackDistributedDataloader) (queue : list (option (list nat))) :
  forall len_remaining,
    len_remaining <= 0 ->
    ~ In None queue ->
    snd (iter_loop collate_fn self queue len_remaining) <> Returned.
Proof.
  induction queue as [|[batch|] queue IH]; intros r Hr Hq; simpl.
  - discriminate.
  - destruct (assemble self batch) as [e|chunked]; simpl; [discriminate|].
    destruct (r - 1 =? 0) eqn:E; [apply Z.eqb_eq in E; lia|].
    specialize (IH (r - 1) ltac:(lia) (fun H => Hq (or_intror H))).
    destruct (iter_loop collate_fn self queue (r - 1)). exact IH.
  - exfalso. apply Hq. left. reflexivity.
Qed.

(** C4, at the failing input.  For the example loader (20 tokens, one
    device, [seq_max_length = 10], [batch_size = 1]) the estimate
    [floor(0.99 * 20 / 1.0 / 10 / 1) - 1] is 0.  [__len__] reports
    [max(1, 0) = 1], but [__iter__] takes the unfloored 0 as its budget:
    the budget never reaches zero again, the iterator hands out both rounds
    the producer made, and then stays blocked on the empty queue. *)
Theorem iter_budget_not_floored :
  (exists self', _len_est example_loader = inr (0, self'))
  /\ __len__ example_loader = inr 1
  /\ length (fst (__iter__ (fun chunked_data => chunked_data) example_loader))
     = 2%nat
  /\ snd (__iter__ (fun chunked_data => chunked_data) example_loader)
     = Blocked.
Proof.
  split; [eexists; vm_compute; reflexivity|].
  split; [vm_compute; reflexivity|].
  split; vm_compute; reflexivity.
Qed.

(** ** The batch consumer *)

Lemma dict_get_set (d : dict) (k k' : String.string) (v : list Z) :
  dict_get (dict_set d k v) k' =
  if String.eqb k' k then Some v else dict_get d k'.
Proof.
  induction d as [|[k0 v0] d IH]; simpl.
  - reflexivity.
  - destruct (String.eqb k k0) eqn:E; simpl.
    + apply String.eqb_eq in E. subst k0.
      destruct (String.eqb k' k); reflexivity.
    + destruct (String.eqb k' k0) eqn:E0.
      * apply String.eqb_eq in E0. subst k0.
        rewrite String.eqb_sym in E. now rewrite E.
      * exact IH.
Qed.

Lemma np_concatenate_ok (arrays : list (list Z)) (v : list Z) :
  np_concatenate arrays = inr v -> v = concat arrays.
Proof.
  destruct arrays; simpl; [discriminate | now intros [= <-]].
Qed.

Section Assemble.

Variable batched_data : list dict.

Let am : String.string := "attention_mask"%string.

Lemma fold_assemble_raised (fs : list String.string) (e : exn) :
    fold_left (assemble_feature batched_data) fs (inl e) = inl e.
Proof. induction fs as [|f fs IH]; simpl; [reflexivity | exact IH]. Qed.

  (** A feature other than the mask leaves the counter and the mask entry
      alone. *)
Lemma assemble_feature_other (f : String.string) (cum cum' : Z)
    (d d' : dict) :
    f <> am ->
    assemble_feature batched_data (inr (cum, d)) f = inr (cum', d') ->
    cum' = cum /\ dict_get d' am = dict_get d am.
Proof.
    intros Hf. unfold assemble_feature; cbn [bind].
    destruct (String.eqb f "attention_mask") eqn:E.
    - apply String.eqb_eq in E. contradiction.
    - destruct (np_concatenate (plain_arrays f batched_data)) as [e|v];
        cbn [bind ret]; [discriminate|].
      intros [= <- <-]. split; [reflexivity|].
      rewrite dict_get_set.
      destruct (String.eqb am f) eqn:E'; [|reflexivity].
      apply String.eqb_eq in E'. congruence.
Qed.

Lemma fold_assemble_other (fs : list String.string) :
    forall cum d cum' d',
      ~ In am fs ->
      fold_left (assemble_feature batched_data) fs (inr (cum, d))
        = inr (cum', d') ->
      cum' = cum /\ dict_get d' am = dict_get d am.
Proof.
    induction fs as [|f fs IH]; intros cum d cum' d' Hn; cbn [fold_left].
    - intros [= <- <-]. auto.
    - destruct (assemble_feature batched_data (inr (cum, d)) f)
        as [e|[cum1 d1]] eqn:E.
      + rewrite fold_assemble_raised. discriminate.
      + intros H.
        apply assemble_feature_other in E as [-> E];
          [|intros ->; apply Hn; left; reflexivity].
        apply IH in H as [-> H]; [|intros Hin; apply Hn; right; exact Hin].
        split; congruence.
Qed.

  (** The mask entry of the packed record is built with the counter the
      round starts from. *)
Lemma fold_assemble_mask (fs : list String.string) :
    forall cum d cum' d',
      NoDup fs -> In am fs ->
      fold_left (assemble_feature batched_data) fs (inr (cum, d))
        = inr (cum', d') ->
      dict_get d' am = Some (concat (attention_arrays am cum batched_data)).
Proof.
    induction fs as [|f fs IH]; intros cum d cum' d' Hnd Hin;
      cbn [fold_left]; [destruct Hin|].
    apply NoDup_cons_iff in Hnd as [Hf Hnd].
    destruct (String.eqb f am) eqn:E.
    - apply String.eqb_eq in E. subst f.
      unfold assemble_feature at 2; cbn [bind].
      change (String.eqb am "attention_mask") with true. cbv iota.
      destruct (np_concatenate (attention_arrays am cum batched_data))
        as [e|v] eqn:Ev; cbn [bind ret].
      + rewrite fold_assemble_raised. discriminate.
      + intros H. apply fold_assemble_other in H as [_ H]; [|exact Hf].
        rewrite H, dict_get_set, String.eqb_refl.
        now rewrite (np_concatenate_ok _ _ Ev).
    - apply String.eqb_neq in E.
      destruct Hin as [Hin|Hin]; [congruence|].
      destruct (assemble_feature batched_data (inr (cum, d)) f)
        as [e|[cum1 d1]] eqn:E1.
      + rewrite fold_assemble_raised. discriminate.
      + apply assemble_feature_other in E1 as [-> _]; [|exact E].
        now apply IH.
Qed.

End Assemble.

Lemma assemble_mask (self : MultipackDistributedDataloader)
  (batch : list nat) (chunked_data : list dict) :
  NoDup (features (dataset self)) ->
  In "attention_mask"%string (features (dataset self)) ->
  assemble self batch = inr chunked_data ->
  exists batched_data record,
    mapM (getitem (rows (dataset self))) batch = inr batched_data /\
    chunked_data = [record] /\
    dict_get record "attention_mask"
    = Some (concat (attention_arrays "attention_mask" 0 batched_data)).
Proof.
  intros Hnd Hin. unfold assemble.
  destruct (mapM (getitem (rows (dataset self))) batch) as [e|bd];
    cbn [bind]; [discriminate|].
  destruct (fold_left (assemble_feature bd) (features (dataset self))
              (ret (0, []))) as [e|[cum d]] eqn:E; cbn [bind ret];
    [discriminate|].
  intros [= <-]. exists bd, d. repeat split.
  eapply fold_assemble_mask; eauto.
Qed.

(** Every round that [__iter__] hands out is assembled from one bin of the
    queue. *)
Lemma iter_loop_outputs {B : Type} (collate_fn : list dict -> B)
  (self : MultipackDistributedDataloader) (queue : list (option (list nat))) :
  forall len_remaining,
    Forall (fun out =>
              exists batch chunked_data,
                In (Some batch) queue /\
                assemble self batch = inr chunked_data /\
                out = collate_fn chunked_data)
           (fst (iter_loop collate_fn self queue len_remaining)).
Proof.
  induction queue as [|[batch|] queue IH]; intros r; simpl;
    try constructor.
  destruct (assemble self batch) as [e|chunked] eqn:E; simpl;
    [constructor|].
  assert (Hhere : exists b ch,
             (Some batch = Some b \/ In (Some b) queue) /\
             assemble self b = inr ch /\ collate_fn chunked = collate_fn ch)
    by (exists batch, chunked; auto).
  destruct (r - 1 =? 0); [repeat constructor; exact Hhere|].
  specialize (IH (r - 1)).
  destruct (iter_loop collate_fn self queue (r - 1)) as [outs e]; simpl in *.
  constructor; [exact Hhere|].
  eapply Forall_impl; [|exact IH].
  intros out (b & ch & H1 & H2 & H3). exists b, ch. auto.
Qed.

(** *** The segment ids of a round *)

Lemma map_snd_combine_seq {A : Type} (l : list A) (k : nat) :
  map snd (combine (seq k (length l)) l) = l.
Proof.
  revert k; induction l as [|x l IH]; intros k; simpl; [reflexivity|].
  f_equal. apply IH.
Qed.

Lemma flat_map_scaled (feature : String.string) (cum : Z)
  (l : list (nat * dict)) :
  flat_map (fun '(idx, item) =>
              match dict_get item feature with
              | Some mask => [map (Z.mul (cum + Z.of_nat idx + 1)) mask]
              | None => []
              end) l =
  scale_arrays
    (flat_map (fun '(idx, item) =>
                 match dict_get item feature with
                 | Some _ => [cum + Z.of_nat idx + 1]
                 | None => []
                 end) l)
    (plain_arrays feature (map snd l)) /\
  length (flat_map (fun '(idx, item) =>
                      match dict_get item feature with
                      | Some _ => [cum + Z.of_nat idx + 1]
                      | None => []
                      end) l) =
  length (plain_arrays feature (map snd l)).
Proof.
  unfold plain_arrays.
  induction l as [|[idx item] l [IH1 IH2]]; simpl; [split; reflexivity|].
  destruct (dict_get item feature); simpl; split; congruence.
Qed.

Lemma attention_arrays_scaled (feature : String.string) (cum : Z)
  (batched_data : list dict) :
  attention_arrays feature cum batched_data =
  scale_arrays (segment_ids feature cum batched_data)
               (plain_arrays feature batched_data).
Proof.
  unfold attention_arrays, segment_ids.
  rewrite (proj1 (flat_map_scaled feature cum (enumerate batched_data))).
  unfold enumerate. now rewrite map_snd_combine_seq.
Qed.

Lemma segment_ids_length (feature : String.string) (cum : Z)
  (batched_data : list dict) :
  length (segment_ids feature cum batched_data) =
  length (plain_arrays feature batched_data).
Proof.
  unfold segment_ids.
  rewrite (proj2 (flat_map_scaled feature cum (enumerate batched_data))).
  unfold enumerate. now rewrite map_snd_combine_seq.
Qed.

Lemma segment_ids_from (feature : String.string) (cum : Z)
  (batched_data : list dict) :
  forall k,
    let ids :=
      flat_map (fun '(idx, item) =>
                  match dict_get item feature with
                  | Some _ => [cum + Z.of_nat idx + 1]
                  | None => []
                  end)
               (combine (seq k (length batched_data)) batched_data) in
    StronglySorted Z.lt ids /\
    Forall (fun id =>
              cum + Z.of_nat k + 1 <= id
              <= cum + Z.of_nat k + Z.of_nat (length batched_data)) ids.
Proof.
  induction batched_data as [|item l IH]; intros k; cbn zeta.
  - simpl. split; constructor.
  - cbn [length seq combine flat_map].
    destruct (IH (S k)) as [Hs Hb]. cbn zeta in Hs, Hb.
    assert (Hb' : Forall
                    (fun id =>
                       cum + Z.of_nat k + 1 < id
                       <= cum + Z.of_nat k + Z.of_nat (S (length l)))
                    (flat_map
                       (fun '(idx, item0) =>
                          match dict_get item0 feature with
                          | Some _ => [cum + Z.of_nat idx + 1]
                          | None => []
                          end) (combine (seq (S k) (length l)) l))).
    { eapply Forall_impl; [|exact Hb]. intros id H; cbv beta in *. lia. }
    destruct (dict_get item feature); cbn [app].
    + split.
      * constructor; [exact Hs|].
        eapply Forall_impl; [|exact Hb']. intros id H; cbv beta in *. lia.
      * constructor; [lia|].
        eapply Forall_impl; [|exact Hb']. intros id H; cbv beta in *. lia.
    + split; [exact Hs|].
      eapply Forall_impl; [|exact Hb']. intros id H; cbv beta in *. lia.
Qed.

(** The ids of a round are strictly increasing in member order and lie
    between [counter + 1] and [counter + len(batched_data)]. *)
Lemma segment_ids_sorted (feature : String.string) (cum : Z)
  (batched_data : list dict) :
  StronglySorted Z.lt (segment_ids feature cum batched_data) /\
  Forall (fun id => cum + 1 <= id <= cum + Z.of_nat (length batched_data))
         (segment_ids feature cum batched_data).
Proof.
  destruct (segment_ids_from feature cum batched_data 0) as [Hs Hb].
  split; [exact Hs|].
  eapply Forall_impl; [|exact Hb]. intros id H; cbv beta in *. lia.
Qed.

(** C2, as the claim states it, fails: the counter is set back to 0 at the
    top of every pass of the consumer's loop.  On the example loader both
    rounds carry the ids 1 and 2, so the ids of the second round are not
    larger than those of the first. *)
Lemma segment_ids_repeat_across_rounds :
  exists outs,
    iter_loop (fun chunked_data => chunked_data) example_loader
      [Some [1; 0]; Some [3; 2]; None]%nat 5 = (outs, Returned) /\
    map mask_values outs
    = [[1; 1; 1; 1; 1; 2; 2; 2; 2; 2]; [1; 1; 1; 1; 1; 2; 2; 2; 2; 2]] /\
    ~ ids_increase_across_rounds outs.
Proof.
  eexists. split; [vm_compute; reflexivity|].
  split; [reflexivity|].
  intros H.
  specialize (H 0%nat 1%nat _ _ 1 1 (Nat.lt_0_succ 0) eq_refl eq_refl).
  cbv in H.
  assert (Habs : (1 ?= 1) = Lt) by (apply H; left; reflexivity).
  discriminate.
Qed.

(** C2, amended.  Every round that the consumer hands out is assembled
    with the segment counter starting from 0: the mask feature of its
    record is the members' masks, each multiplied by its segment id, and
    the ids of a round are one per member carrying the feature, positive,
    at most the number of members, and strictly increasing in member
    order.  Nothing is promised across rounds: every round starts again
    from 1. *)
Theorem segment_ids_per_round {B : Type} (collate_fn : list dict -> B)
  (self : MultipackDistributedDataloader)
  (queue : list (option (list nat))) (len_remaining : Z) :
  NoDup (features (dataset self)) ->
  In "attention_mask"%string (features (dataset self)) ->
  Forall (fun out =>
            exists batch batched_data record,
              In (Some batch) queue /\
              mapM (getitem (rows (dataset self))) batch = inr batched_data /\
              out = collate_fn [record] /\
              dict_get record "attention_mask"
              = Some (concat
                        (scale_arrays
                           (segment_ids "attention_mask" 0 batched_data)
                           (plain_arrays "attention_mask" batched_data))) /\
              length (segment_ids "attention_mask" 0 batched_data)
              = length (plain_arrays "attention_mask" batched_data) /\
              StronglySorted Z.lt
                (segment_ids "attention_mask" 0 batched_data) /\
              Forall (fun id => 1 <= id <= Z.of_nat (length batched_data))
                     (segment_ids "attention_mask" 0 batched_data))
         (fst (iter_loop collate_fn self queue len_remaining)).
Proof.
  intros Hnd Hin.
  eapply Forall_impl; [|apply iter_loop_outputs].
  intros out (batch & chunked & Hq & Ha & ->).
  destruct (assemble_mask self batch chunked Hnd Hin Ha)
    as (bd & record & Hbd & -> & Hmask).
  exists batch, bd, record.
  destruct (segment_ids_sorted "attention_mask" 0 bd) as [Hs Hb].
  repeat split; try assumption.
  - rewrite Hmask. now rewrite attention_arrays_scaled.
  - apply segment_ids_length.
Qed.

Lemma segment_ids_per_round_witness :
  NoDup (features (dataset example_loader)) /\
  In "attention_mask"%string (features (dataset example_loader)) /\
  Forall (fun out =>
            exists batch batched_data record,
              In (Some batch) [Some [1; 0]; Some [3; 2]; None]%nat /\
              mapM (getitem (rows (dataset example_loader))) batch
              = inr batched_data /\
              out = [record] /\
              dict_get record "attention_mask"
              = Some (concat
                        (scale_arrays
                           (segment_ids "attention_mask" 0 batched_data)
                           (plain_arrays "attention_mask" batched_data))) /\
              length (segment_ids "attention_mask" 0 batched_data)
              = length (plain_arrays "attention_mask" batched_data) /\
              StronglySorted Z.lt
                (segment_ids "attention_mask" 0 batched_data) /\
              Forall (fun id => 1 <= id <= Z.of_nat (length batched_data))
                     (segment_ids "attention_mask" 0 batched_data))
         (fst (iter_loop (fun chunked_data => chunked_data) example_loader
                 [Some [1; 0]; Some [3; 2]; None]%nat 5)).
Proof.
  assert (Hnd : NoDup (features (dataset example_loader))).
  { simpl. constructor.
    - intros [H|[]]. discriminate.
    - constructor; [intros []|constructor]. }
  assert (Hin : In "attention_mask"%string
                  (features (dataset example_loader)))
    by (simpl; right; left; reflexivity).
  split; [exact Hnd|]. split; [exact Hin|].
  exact (segment_ids_per_round (fun chunked_data => chunked_data)
           example_loader [Some [1; 0]; Some [3; 2]; None]%nat 5 Hnd Hin).
Defined.

(** ** Worked examples *)

(** Scenario A of the specification: four samples of length 5, capacity
    10, one worker: exactly two rounds, each a bin of two samples. *)
Example allocate_scenario_a :
  allocate [5; 5; 5; 5] (np.cumsum [5; 5; 5; 5]) 0 10 1
  = ([([1; 0]%nat, 2%nat, 10, 10); ([3; 2]%nat, 2%nat, 20, 20)],
     StopIteration).
Proof. reflexivity. Qed.

(** Scenario B: lengths 9, 1, 9, 1, capacity 10, two workers: the packer
    fills two bins of sum 10 each. *)
Example ffd_with_result_scenario_b :
  ffd_with_result [9; 1; 9; 1] 10 0 = ([[2; 3]; [0; 1]]%nat, 4%nat).
Proof. reflexivity. Qed.

Example ffd_check_scenario_b : ffd_check [9; 1; 9; 1] 10 2 = true.
Proof. reflexivity. Qed.

Example ffd_check_oversized : ffd_check [15] 10 1 = false.
Proof. reflexivity. Qed.

(** With no worker at all the generator ends by raising. *)
Example allocate_no_worker :
  allocate [5] (np.cumsum [5]) 0 10 0 = ([([0]%nat, 1%nat, 5, 0)], Raised).
Proof. reflexivity. Qed.

(** A failure in [generate_batches] makes the producer push the terminal
    marker. *)
Example producer_marker_on_failure :
  snd (generate_batches example_loader_bad_sampler true) = Some IndexError /\
  fst (_generate_batches_thread example_loader_bad_sampler) = [None].
Proof. split; reflexivity. Qed.

(** The constructor builds the example loader. *)
Example init_example_loader :
  __init__ example_dataset 10 1 None 1%Q 1 1 None = inr example_loader.
Proof. reflexivity. Qed.

(** * Further properties of the code *)

(** ** The feasibility oracle *)

Lemma insert_comm (x y : Z) (l : list Z) :
  np.insert (fun z => z) x (np.insert (fun z => z) y l) =
  np.insert (fun z => z) y (np.insert (fun z => z) x l).
Proof.
  induction l as [|z l IH]; simpl.
  - destruct (x <=? y) eqn:E1, (y <=? x) eqn:E2; try reflexivity.
    + apply Z.leb_le in E1, E2. assert (x = y) by lia. now subst.
    + apply Z.leb_gt in E1, E2. lia.
  - destruct (y <=? z) eqn:Ey, (x <=? z) eqn:Ex; simpl;
      rewrite ?Ex, ?Ey;
      destruct (x <=? y) eqn:E1, (y <=? x) eqn:E2;
      rewrite ?IH; try reflexivity;
      rewrite ?Z.leb_le, ?Z.leb_gt in *;
      try (exfalso; lia).
    assert (x = y) by lia. now subst.
Qed.

(** [np.sort] depends on the values only, not on their order. *)
Lemma sort_of_permutation (a b : list Z) :
  Permutation a b -> np.sort a = np.sort b.
Proof.
  unfold np.sort. induction 1; simpl.
  - reflexivity.
  - now f_equal.
  - apply insert_comm.
  - congruence.
Qed.

(** X1.  The oracle accepts only what fits in the total room: for a
    capacity [c >= 0], if [ffd_check(a, c, n)] is true then
    [sum(a) <= n * c]. *)
Theorem ffd_check_necessary (a : list Z) (c : Z) (n : nat) :
  0 <= c -> ffd_check a c n = true -> np.sum a <= Z.of_nat n * c.
Proof.
  intros Hc H. rewrite Z.mul_comm. now apply ffd_check_sum.
Qed.

Lemma ffd_check_necessary_witness :
  0 <= 10 /\ ffd_check [9; 1; 9; 1] 10 2 = true /\
  np.sum [9; 1; 9; 1] <= Z.of_nat 2 * 10.
Proof.
  assert (Hc : 0 <= 10) by discriminate.
  assert (H : ffd_check [9; 1; 9; 1] 10 2 = true) by reflexivity.
  split; [exact Hc|]. split; [exact H|].
  exact (ffd_check_necessary [9; 1; 9; 1] 10 2 Hc H).
Defined.

(** X2.  The oracle decides on the multiset of sizes: rearranging the input
    array does not change its answer. *)
Theorem ffd_check_permutation (a b : list Z) (c : Z) (n : nat) :
  Permutation a b -> ffd_check a c n = ffd_check b c n.
Proof.
  intros H. unfold ffd_check. now rewrite (sort_of_permutation a b H).
Qed.

Lemma ffd_check_permutation_witness :
  Permutation [9; 1; 9; 1] [1; 9; 9; 1] /\
  ffd_check [9; 1; 9; 1] 10 2 = ffd_check [1; 9; 9; 1] 10 2.
Proof.
  assert (H : Permutation [9; 1; 9; 1] [1; 9; 9; 1]) by apply perm_swap.
  split; [exact H|].
  exact (ffd_check_permutation [9; 1; 9; 1] [1; 9; 9; 1] 10 2 H).
Defined.

Lemma ffd_check_loop_enough_bins (c : Z) (sizes : list Z) :
  forall bins k,
    Forall (fun x => x <= c) sizes ->
    (length sizes <= k)%nat ->
    ffd_check_loop sizes (bins ++ repeat c k) = true.
Proof.
  induction sizes as [|size sizes IH]; intros bins k Hle Hk; simpl;
    [reflexivity|].
  apply Forall_cons_iff in Hle as [Hs Hle]. simpl in Hk.
  rewrite first_fit_app.
  destruct (first_fit bins size) as [bs|].
  - apply IH; [assumption | lia].
  - rewrite first_fit_repeat. destruct k as [|k]; [lia|].
    apply Z.leb_le in Hs. rewrite Hs. simpl.
    replace (bins ++ (c - size) :: repeat c k)
      with ((bins ++ [c - size]) ++ repeat c k)
      by (rewrite <- app_assoc; reflexivity).
    apply IH; [assumption | lia].
Qed.

(** X3.  As many bins as items are always enough: when no item is larger
    than the capacity and there are at most [n] items, the oracle
    accepts. *)
Theorem ffd_check_one_bin_each (a : list Z) (c : Z) (n : nat) :
  Forall (fun x => x <= c) a -> (length a <= n)%nat ->
  ffd_check a c n = true.
Proof.
  intros Hle Hn. unfold ffd_check.
  apply (ffd_check_loop_enough_bins c (rev (np.sort a)) [] n).
  - apply Forall_rev.
    eapply Permutation_Forall; [apply Permutation_sym, sort_perm | exact Hle].
  - rewrite length_rev, (Permutation_length (sort_perm a)). exact Hn.
Qed.

Lemma ffd_check_one_bin_each_witness :
  Forall (fun x => x <= 10) [9; 10; 3] /\ (length [9; 10; 3] <= 3)%nat /\
  ffd_check [9; 10; 3] 10 3 = true.
Proof.
  assert (H : Forall (fun x => x <= 10) [9; 10; 3])
    by (repeat constructor; lia).
  assert (Hn : (length [9; 10; 3] <= 3)%nat) by (simpl; lia).
  split; [exact H|]. split; [exact Hn|].
  exact (ffd_check_one_bin_each [9; 10; 3] 10 3 H Hn).
Defined.

Lemma first_fit_bounded (c : Z) (bins bs : list Z) (size : Z) :
  0 <= size ->
  Forall (fun b => b <= c) bins ->
  first_fit bins size = Some bs ->
  size <= c /\ Forall (fun b => b <= c) bs.
Proof.
  intros Hs H; revert bs; induction H as [|b bins Hb H IH]; intros bs; simpl;
    [discriminate|].
  destruct (size <=? b) eqn:E.
  - apply Z.leb_le in E. intros [= <-].
    split; [lia|]. constructor; [lia | assumption].
  - destruct (first_fit bins size) as [bs'|]; simpl; [|discriminate].
    intros [= <-]. destruct (IH _ eq_refl) as [H1 H2].
    split; [assumption|]. constructor; assumption.
Qed.

Lemma ffd_check_loop_items_fit (c : Z) (sizes : list Z) :
  forall bins,
    Forall (fun x => 0 <= x) sizes ->
    Forall (fun b => b <= c) bins ->
    ffd_check_loop sizes bins = true ->
    Forall (fun x => x <= c) sizes.
Proof.
  induction sizes as [|size sizes IH]; intros bins Hs Hb; simpl;
    [constructor|].
  apply Forall_cons_iff in Hs as [Hs0 Hs].
  destruct (first_fit bins size) as [bs|] eqn:E; [|discriminate].
  destruct (first_fit_bounded c bins bs size Hs0 Hb E) as [H1 H2].
  intros Hc. constructor; [assumption | eauto].
Qed.

(** X4.  For sizes that are not negative the oracle rejects every input
    with an item larger than the capacity: what it accepts has all its
    items within [c]. *)
Theorem ffd_check_items_fit (a : list Z) (c : Z) (n : nat) :
  Forall (fun x => 0 <= x) a -> ffd_check a c n = true ->
  Forall (fun x => x <= c) a.
Proof.
  intros Hs H. unfold ffd_check in H.
  apply (ffd_check_loop_items_fit c) in H.
  - eapply Permutation_Forall; [|exact H].
    eapply perm_trans; [apply Permutation_sym, Permutation_rev|].
    apply sort_perm.
  - apply Forall_rev.
    eapply Permutation_Forall; [apply Permutation_sym, sort_perm | exact Hs].
  - apply Forall_forall. intros b Hb. apply repeat_spec in Hb. lia.
Qed.

Lemma ffd_check_items_fit_witness :
  Forall (fun x => 0 <= x) [9; 1; 9; 1] /\
  ffd_check [9; 1; 9; 1] 10 2 = true /\
  Forall (fun x => x <= 10) [9; 1; 9; 1].
Proof.
  assert (Hs : Forall (fun x => 0 <= x) [9; 1; 9; 1])
    by (repeat constructor; lia).
  assert (H : ffd_check [9; 1; 9; 1] 10 2 = true) by reflexivity.
  split; [exact Hs|]. split; [exact H|].
  exact (ffd_check_items_fit [9; 1; 9; 1] 10 2 Hs H).
Defined.

Lemma ffd_check_loop_more_bins (sizes : list Z) :
  forall bins rest,
    ffd_check_loop sizes bins = true ->
    ffd_check_loop sizes (bins ++ rest) = true.
Proof.
  induction sizes as [|size sizes IH]; intros bins rest; simpl;
    [reflexivity|].
  rewrite first_fit_app.
  destruct (first_fit bins size) as [bs|]; [apply IH | discriminate].
Qed.

(** X5.  More bins never hurt: what the oracle accepts for [n] bins it
    accepts for every larger number of bins. *)
Theorem ffd_check_more_bins (a : list Z) (c : Z) (n k : nat) :
  ffd_check a c n = true -> ffd_check a c (n + k) = true.
Proof.
  unfold ffd_check. rewrite repeat_app. apply ffd_check_loop_more_bins.
Qed.

Lemma ffd_check_more_bins_witness :
  ffd_check [9; 1; 9; 1] 10 2 = true /\
  ffd_check [9; 1; 9; 1] 10 (2 + 3) = true.
Proof.
  assert (H : ffd_check [9; 1; 9; 1] 10 2 = true) by reflexivity.
  split; [exact H|].
  exact (ffd_check_more_bins [9; 1; 9; 1] 10 2 3 H).
Defined.

(** ** The packer *)

Lemma ffd_result_loop_lengths (c : Z) (items : list (nat * Z)) :
  forall bins bins_result,
    length bins = length bins_result ->
    length (fst (ffd_result_loop c items bins bins_result)) =
    length (snd (ffd_result_loop c items bins bins_result)) /\
    (length bins_result
     <= length (snd (ffd_result_loop c items bins bins_result))
     <= length bins_result + length items)%nat.
Proof.
  induction items as [|[item size] items IH]; intros bins br Hlen; simpl.
  - split; [assumption | lia].
  - pose proof (first_fit_result_spec bins br size item Hlen) as Hs.
    destruct (first_fit_result bins br size item) as [[bs rs]|].
    + destruct Hs as (_ & H1 & H2).
      destruct (IH bs rs H1) as [Ha Hb]. split; [assumption | lia].
    + destruct (IH (bins ++ [c - size]) (br ++ [[item]])) as [Ha Hb].
      * rewrite !length_app; simpl; lia.
      * rewrite length_app in Hb; simpl in Hb. split; [assumption | lia].
Qed.

Lemma ffd_result_loop_nonneg (c : Z) (items : list (nat * Z)) :
  forall bins bins_result,
    length bins = length bins_result ->
    Forall (fun p => snd p <= c) items ->
    Forall (fun b => 0 <= b) bins ->
    Forall (fun b => 0 <= b) (fst (ffd_result_loop c items bins bins_result)).
Proof.
  induction items as [|[item size] items IH]; intros bins br Hlen Hi Hb;
    simpl; [assumption|].
  apply Forall_cons_iff in Hi as [Hs Hi]. simpl in Hs.
  pose proof (first_fit_result_spec bins br size item Hlen) as Hsp.
  destruct (first_fit_result bins br size item) as [[bs rs]|].
  - destruct Hsp as (Hf & H1 & _).
    apply IH; [assumption | assumption |].
    eapply first_fit_nonneg; eauto.
  - apply IH; [rewrite !length_app; simpl; lia | assumption |].
    apply Forall_app; split; [assumption|].
    constructor; [lia | constructor].
Qed.

Lemma ffd_items_sizes_in (a : list Z) (base : nat) (p : nat * Z) :
  In p (ffd_items a base) -> In (snd p) a.
Proof.
  intros H. apply (in_map snd) in H. rewrite ffd_items_snd in H.
  apply in_rev in H.
  exact (Permutation_in _ (sort_perm a) H).
Qed.

(** X6.  Whenever no item is larger than the capacity, no bin of the
    packer is over capacity, however many bins it has to open. *)
Theorem ffd_with_result_capacity (a : list Z) (c : Z) (base : nat) :
  Forall (fun x => x <= c) a ->
  Forall (fun r => bin_load (fun i => nth (i - base) a 0) r <= c)
         (fst (ffd_with_result a c base)).
Proof.
  intros Hle. rewrite ffd_with_result_eq; simpl.
  eapply room_ok_capacity.
  - apply ffd_result_loop_room; [apply ffd_items_size | constructor].
  - apply ffd_result_loop_nonneg; [reflexivity | | constructor].
    apply Forall_forall. intros p Hp.
    rewrite Forall_forall in Hle. apply Hle.
    now apply (ffd_items_sizes_in a base).
Qed.

Lemma ffd_with_result_capacity_witness :
  Forall (fun x => x <= 10) [6; 6; 6] /\
  Forall (fun r => bin_load (fun i => nth (Nat.sub i 0) [6; 6; 6] 0) r <= 10)
         (fst (ffd_with_result [6; 6; 6] 10 0)).
Proof.
  assert (H : Forall (fun x => x <= 10) [6; 6; 6])
    by (repeat constructor; lia).
  split; [exact H|].
  exact (ffd_with_result_capacity [6; 6; 6] 10 0 H).
Defined.

Lemma ffd_result_loop_converse (c : Z) (items : list (nat * Z)) :
  forall bins bins_result k,
    length bins = length bins_result ->
    Forall (fun p => snd p <= c) items ->
    (length (snd (ffd_result_loop c items bins bins_result))
       <= length bins_result + k)%nat ->
    ffd_check_loop (map snd items) (bins ++ repeat c k) = true.
Proof.
  induction items as [|[item size] items IH]; intros bins br k Hlen Hi Hk;
    simpl in *; [reflexivity|].
  apply Forall_cons_iff in Hi as [Hs Hi]. simpl in Hs.
  rewrite first_fit_app.
  pose proof (first_fit_result_spec bins br size item Hlen) as Hsp.
  destruct (first_fit_result bins br size item) as [[bs rs]|].
  - destruct Hsp as (-> & H1 & H2). apply (IH bs rs k); [assumption.. | lia].
  - rewrite Hsp, first_fit_repeat.
    assert (Hlen' : length (bins ++ [c - size]) = length (br ++ [[item]]))
      by (rewrite !length_app; simpl; lia).
    destruct (ffd_result_loop_lengths c items _ _ Hlen') as [_ [Hlow _]].
    rewrite length_app in Hlow; simpl in Hlow.
    destruct k as [|k]; [lia|].
    apply Z.leb_le in Hs. rewrite Hs. simpl.
    replace (bins ++ (c - size) :: repeat c k)
      with ((bins ++ [c - size]) ++ repeat c k)
      by (rewrite <- app_assoc; reflexivity).
    apply (IH _ (br ++ [[item]])); [assumption | assumption |].
    rewrite length_app; simpl. lia.
Qed.

(** X7.  The oracle and the packer agree: when no item is larger than the
    capacity, [ffd_check(a, c, n)] is true exactly when
    [ffd_with_result(a, c, _)] opens at most [n] bins. *)
Theorem ffd_check_iff_bin_count (a : list Z) (c : Z) (n base : nat) :
  Forall (fun x => x <= c) a ->
  (ffd_check a c n = true <->
   (length (fst (ffd_with_result a c base)) <= n)%nat).
Proof.
  intros Hle. split.
  - intros H. now apply packer_of_feasible.
  - rewrite ffd_with_result_eq; simpl. intros H.
    unfold ffd_check. rewrite <- (ffd_items_snd a base).
    apply (ffd_result_loop_converse c (ffd_items a base) [] [] n);
      [reflexivity | | exact H].
    apply Forall_forall. intros p Hp.
    rewrite Forall_forall in Hle. apply Hle.
    now apply (ffd_items_sizes_in a base).
Qed.

Lemma ffd_check_iff_bin_count_witness :
  Forall (fun x => x <= 10) [6; 6; 6] /\
  (ffd_check [6; 6; 6] 10 2 = true <->
   (length (fst (ffd_with_result [6; 6; 6]%Z 10%Z 0)) <= 2)%nat).
Proof.
  assert (H : Forall (fun x => x <= 10) [6; 6; 6])
    by (repeat constructor; lia).
  split; [exact H|].
  exact (ffd_check_iff_bin_count [6; 6; 6] 10 2 0 H).
Defined.

Lemma ffd_result_loop_nonempty (c : Z) (items : list (nat * Z)) :
  forall bins bins_result,
    Forall (fun r => r <> []) bins_result ->
    Forall (fun r => r <> [])
           (snd (ffd_result_loop c items bins bins_result)).
Proof.
  induction items as [|[item size] items IH]; intros bins br Hne; simpl;
    [assumption|].
  destruct (first_fit_result bins br size item) as [[bs rs]|] eqn:E.
  - apply IH.
    eapply (first_fit_result_Forall (fun r => r <> []) (fun r => r <> []));
      [auto | | exact E | exact Hne].
    intros r _ H. now apply app_eq_nil in H as [_ H].
  - apply IH. apply Forall_app; split; [assumption|].
    constructor; [discriminate | constructor].
Qed.

(** X8.  The packer never returns an empty bin and never more bins than
    items; in particular it returns no bin at all for an empty array. *)
Theorem ffd_with_result_bins_nonempty (a : list Z) (c : Z) (base : nat) :
  Forall (fun r => r <> []) (fst (ffd_with_result a c base))
  /\ (length (fst (ffd_with_result a c base)) <= length a)%nat
  /\ (a = [] -> fst (ffd_with_result a c base) = []).
Proof.
  rewrite ffd_with_result_eq; simpl.
  destruct (ffd_result_loop_lengths c (ffd_items a base) [] [] eq_refl)
    as [_ [_ Hup]].
  assert (Hlen : length (ffd_items a base) = length a).
  { rewrite <- (length_map fst), ffd_items_fst, length_map, length_rev.
    apply argsort_length. }
  rewrite Hlen in Hup. simpl in Hup.
  split; [apply ffd_result_loop_nonempty; constructor|].
  split; [exact Hup|].
  intros ->. reflexivity.
Qed.

Lemma first_fit_result_none (bins : list Z) (bins_result : list (list nat))
  (size : Z) (item : nat) :
  length bins = length bins_result ->
  first_fit_result bins bins_result size item = None ->
  Forall (fun b => b < size) bins.
Proof.
  revert bins_result; induction bins as [|b bins IH];
    intros [|r br] Hlen; simpl in *; try discriminate; [constructor|].
  destruct (size <=? b) eqn:E; [discriminate|].
  apply Z.leb_gt in E. injection Hlen as Hlen.
  destruct (first_fit_result bins br size item) as [[bs rs]|] eqn:E';
    [discriminate|].
  intros _. constructor; [assumption | eauto].
Qed.

Section FirstFit.

Variable size_of : nat -> Z.

Lemma no_room_placed (bins : list Z) :
  forall (bins_result : list (list nat)) (size : Z) (item : nat)
         (bs : list Z) (rs : list (list nat)),
    0 <= size ->
    no_room_for_later size_of bins bins_result ->
    first_fit_result bins bins_result size item = Some (bs, rs) ->
    no_room_for_later size_of bs rs.
Proof.
  induction bins as [|b bins IH]; intros [|r br] size item bs rs Hs Hn;
    simpl; try discriminate.
  destruct Hn as [Hhead Hrest].
  destruct (size <=? b).
  - intros [= <- <-]. simpl. split; [|assumption].
    eapply Forall_impl; [|exact Hhead].
    intros r' (h & t & -> & Hlt). exists h, t. split; [reflexivity | lia].
  - destruct (first_fit_result bins br size item) as [[bs' rs']|] eqn:E;
      [|discriminate].
    intros [= <- <-]. simpl. split; [|eapply IH; eauto].
    eapply (first_fit_result_Forall
              (fun r => exists h t, r = h :: t /\ b < size_of h)
              (fun r => exists h t, r = h :: t /\ b < size_of h));
      [auto | | exact E | exact Hhead].
    intros r' (h & t & -> & Hlt). exists h, (t ++ [item]). auto.
Qed.

Lemma no_room_opened (bins : list Z) :
  forall (bins_result : list (list nat)) (item : nat) (x : Z),
    length bins = length bins_result ->
    no_room_for_later size_of bins bins_result ->
    Forall (fun b => b < size_of item) bins ->
    no_room_for_later size_of (bins ++ [x]) (bins_result ++ [[item]]).
Proof.
  induction bins as [|b bins IH]; intros [|r br] item x Hlen Hn Hb;
    simpl in *; try discriminate.
  - split; [constructor | exact I].
  - destruct Hn as [Hhead Hrest].
    apply Forall_cons_iff in Hb as [Hb0 Hb].
    injection Hlen as Hlen. split.
    + apply Forall_app; split; [assumption|].
      constructor; [|constructor]. exists item, []. auto.
    + now apply IH.
Qed.

Lemma ffd_result_loop_no_room (c : Z) (items : list (nat * Z)) :
  forall bins bins_result,
    length bins = length bins_result ->
    Forall (fun p => size_of (fst p) = snd p /\ 0 <= snd p) items ->
    no_room_for_later size_of bins bins_result ->
    no_room_for_later size_of
      (fst (ffd_result_loop c items bins bins_result))
      (snd (ffd_result_loop c items bins bins_result)).
Proof.
  induction items as [|[item size] items IH]; intros bins br Hlen Hi Hn;
    simpl; [assumption|].
  apply Forall_cons_iff in Hi as [[Hsz Hs] Hi]. simpl in Hsz, Hs.
  pose proof (first_fit_result_spec bins br size item Hlen) as Hsp.
  destruct (first_fit_result bins br size item) as [[bs rs]|] eqn:E.
  - destruct Hsp as (_ & H1 & _).
    apply IH; [assumption | assumption |].
    eapply no_room_placed; eauto.
  - apply IH; [rewrite !length_app; simpl; lia | assumption |].
    apply no_room_opened; [assumption | assumption |].
    rewrite Hsz. eapply first_fit_result_none; eauto.
Qed.

Lemma no_room_nth (c : Z) (bins : list Z) (bins_result : list (list nat)) :
  room_ok size_of c bins bins_result ->
  no_room_for_later size_of bins bins_result ->
  forall i j ri rj,
    (i < j)%nat ->
    nth_error bins_result i = Some ri ->
    nth_error bins_result j = Some rj ->
    exists h t, rj = h :: t /\ c < bin_load size_of ri + size_of h.
Proof.
  induction 1 as [|b r bins br Hb H IH]; intros Hn i j ri rj Hij Hi Hj.
  - destruct i; discriminate.
  - destruct Hn as [Hhead Hrest].
    destruct j as [|j]; [lia|]. simpl in Hj.
    destruct i as [|i]; simpl in Hi.
    + injection Hi as <-. apply nth_error_In in Hj.
      rewrite Forall_forall in Hhead.
      destruct (Hhead _ Hj) as (h & t & -> & Hlt).
      exists h, t. split; [reflexivity | lia].
    + apply (IH Hrest i j); [lia | assumption | assumption].
Qed.

End FirstFit.

(** X9.  First fit, between the bins of a result: for sizes that are not
    negative, the item that opened a later bin does not fit into what is
    left of any earlier bin, so no later bin could have been spared by
    putting its first item into an earlier one. *)
Theorem ffd_with_result_first_fit (a : list Z) (c : Z) (base : nat) :
  Forall (fun x => 0 <= x) a ->
  forall i j ri rj,
    (i < j)%nat ->
    nth_error (fst (ffd_with_result a c base)) i = Some ri ->
    nth_error (fst (ffd_with_result a c base)) j = Some rj ->
    exists h t,
      rj = h :: t /\
      c < bin_load (fun k => nth (k - base) a 0) ri + nth (h - base) a 0.
Proof.
  intros Hs. rewrite ffd_with_result_eq; simpl.
  apply (no_room_nth (fun k => nth (k - base) a 0) c
           (fst (ffd_result_loop c (ffd_items a base) [] []))).
  - apply ffd_result_loop_room; [apply ffd_items_size | constructor].
  - apply ffd_result_loop_no_room; [reflexivity | | exact I].
    apply Forall_forall. intros p Hp. split.
    + pose proof (ffd_items_size a base) as H.
      rewrite Forall_forall in H. now apply H.
    + rewrite Forall_forall in Hs. apply Hs.
      now apply (ffd_items_sizes_in a base).
Qed.

Lemma ffd_with_result_first_fit_witness :
  Forall (fun x => 0 <= x) [6; 6; 6] /\
  exists h t,
    [1%nat] = h :: t /\
    10 < bin_load (fun k => nth (Nat.sub k 0) [6; 6; 6] 0) [2%nat]
         + nth (Nat.sub h 0) [6; 6; 6] 0.
Proof.
  assert (H : Forall (fun x => 0 <= x) [6; 6; 6])
    by (repeat constructor; lia).
  split; [exact H|].
  exact (ffd_with_result_first_fit [6; 6; 6] 10 0 H 0%nat 1%nat
           [2%nat] [1%nat] (Nat.lt_0_succ 0) eq_refl eq_refl).
Defined.

(** ** The allocator *)

Section AllocateMore.

Variables (lengths : list Z) (rank : Z) (c : Z) (n : nat).

(** With [lengths_cumsum = np.cumsum(lengths)] the cursor stays inside
    the input and [s] is the sum of the lengths in front of it. *)
Lemma reachable_cursor (st : alloc_state) :
  reachable lengths (np.cumsum lengths) rank c n st ->
  (st_start_index st <= length lengths)%nat /\
  st_s st = np.sum (firstn (st_start_index st) lengths).
Proof.
  induction 1 as [|st out st' Hr IH Hs].
  - split; simpl; [lia | reflexivity].
  - apply allocate_step_yield in Hs as (_ & _ & Hst & Hs' & Hlt & Hin).
    pose proof (chosen_left_spec lengths (np.cumsum lengths) c n st)
      as (H1 & _ & H3).
    assert (Hb : (initial_right (np.cumsum lengths) c n st
                  <= 1 + (length lengths - st_start_index st))%nat).
    { unfold initial_right.
      pose proof (searchsorted_right_spec
                    (skipn (st_start_index st) (np.cumsum lengths))
                    (st_s st + c * Z.of_nat n)) as [H _].
      rewrite length_skipn, cumsum_length in H. lia. }
    assert (Hle : (st_start_index st' <= length lengths)%nat) by lia.
    split; [exact Hle|].
    rewrite Hs'. rewrite cumsum_nth by lia.
    f_equal. f_equal. lia.
Qed.

(** The search is left with [right] at most one above [left]. *)
Lemma bisect_exit (st : alloc_state) (fuel : nat) :
  forall left right,
    search_state lengths (np.cumsum lengths) c n st left right ->
    (left <= right)%nat -> (right - left <= S fuel)%nat ->
    exists right',
      search_state lengths (np.cumsum lengths) c n st
        (bisect lengths c n fuel (st_start_index st) left right) right' /\
      (bisect lengths c n fuel (st_start_index st) left right <= right'
       <= bisect lengths c n fuel (st_start_index st) left right + 1)%nat.
Proof.
  induction fuel as [|fuel IH]; intros left right Hs Hle Hgap;
    cbn [bisect].
  - exists right. split; [assumption | lia].
  - destruct (1 <? right - left)%nat eqn:E.
    + apply Nat.ltb_lt in E.
      assert (Hmid : (left < (left + right) / 2 < right)%nat).
      { split.
        - apply Nat.div_le_lower_bound; lia.
        - apply Nat.Div0.div_lt_upper_bound; lia. }
      destruct (ffd_check
                  (window lengths (st_start_index st) ((left + right) / 2))
                  c n) eqn:Hc; apply IH; try lia.
      * now apply search_up.
      * now apply search_down.
    + apply Nat.ltb_ge in E. exists right. split; [assumption | lia].
Qed.

End AllocateMore.

(** X10.  The window of a round cannot be extended by one sample.  When
    every sample length lies between 0 and the capacity and [n >= 1], the
    [left] chosen in any round is such that the window of [left + 1]
    samples is rejected by the oracle or reaches past the end of the
    input. *)
Theorem allocate_window_maximal
  (lengths : list Z) (rank c : Z) (n : nat) (st : alloc_state) :
  Forall (fun x => 0 <= x <= c) lengths ->
  (1 <= n)%nat ->
  reachable lengths (np.cumsum lengths) rank c n st ->
  ffd_check
    (window lengths (st_start_index st)
       (chosen_left lengths (np.cumsum lengths) c n st + 1)) c n = false
  \/ (length lengths
      < st_start_index st + (chosen_left lengths (np.cumsum lengths) c n st + 1))%nat.
Proof.
  intros Hfit Hn Hr.
  assert (Hok := reachable_cursor lengths rank c n st Hr).
  destruct (bisect_exit lengths c n st
              (initial_right (np.cumsum lengths) c n st - 1)
              1 (initial_right (np.cumsum lengths) c n st))
    as (right' & Hs & Hb).
  - constructor.
  - unfold initial_right. lia.
  - lia.
  - fold (chosen_left lengths (np.cumsum lengths) c n st) in Hs, Hb.
    destruct (search_state_invariant lengths c n Hfit Hn st _ _ Hok Hs)
      as [Hfeas Hright].
    set (L := chosen_left lengths (np.cumsum lengths) c n st) in *.
    assert (Hcase : right' = L \/ right' = (L + 1)%nat) by lia.
    destruct Hcase as [->| ->].
    + destruct Hright as [Hinf|Hout]; [congruence | right; lia].
    + exact Hright.
Qed.

Lemma allocate_window_maximal_witness :
  Forall (fun x => 0 <= x <= 10) [5; 5; 5; 5] /\
  (1 <= 1)%nat /\
  reachable [5; 5; 5; 5] (np.cumsum [5; 5; 5; 5]) 0 10 1 initial_state /\
  (ffd_check
     (window [5; 5; 5; 5] (st_start_index initial_state)
        (chosen_left [5; 5; 5; 5] (np.cumsum [5; 5; 5; 5]) 10 1
           initial_state + 1)) 10 1 = false
   \/ (length [5; 5; 5; 5]%Z
       < st_start_index initial_state
         + (chosen_left [5; 5; 5; 5]%Z (np.cumsum [5; 5; 5; 5]%Z) 10%Z 1
              initial_state + 1))%nat).
Proof.
  assert (Hfit : Forall (fun x => 0 <= x <= 10) [5; 5; 5; 5])
    by (repeat constructor; lia).
  assert (Hn : (1 <= 1)%nat) by constructor.
  assert (Hr : reachable [5; 5; 5; 5] (np.cumsum [5; 5; 5; 5]) 0 10 1
                 initial_state) by constructor.
  split; [exact Hfit|]. split; [exact Hn|]. split; [exact Hr|].
  exact (allocate_window_maximal [5; 5; 5; 5] 0 10 1 initial_state
           Hfit Hn Hr).
Defined.

Section AllocateAccounting.

Variables (lengths : list Z) (rank : Z) (c : Z) (n : nat).

Let cum := np.cumsum lengths.

Lemma allocate_yield_fields (st st' : alloc_state)
  (out : list nat * nat * Z * Z) :
  reachable lengths cum rank c n st ->
  allocate_step lengths cum rank c n st = Yield out st' ->
  yielded_tot_seqs out = chosen_left lengths cum c n st /\
  st_start_index st' = (st_start_index st + yielded_tot_seqs out)%nat /\
  (st_start_index st' <= length lengths)%nat /\
  yielded_used out = np.sum (firstn (st_start_index st') lengths) /\
  yielded_used out
  = st_s st + np.sum (window lengths (st_start_index st)
                        (yielded_tot_seqs out)) /\
  st_s st' = yielded_used out /\
  st_result st' = st_result st ++ [yielded_bin out] /\
  yielded_slots out
  = Z.of_nat (S (length (st_result st))) * c * Z.of_nat n.
Proof.
  intros Hr Hs.
  assert (Hr' : reachable lengths cum rank c n st')
    by (econstructor; eauto).
  destruct (reachable_cursor lengths rank c n st Hr) as [Hle Hsum].
  destruct (reachable_cursor lengths rank c n st' Hr') as [Hle' Hsum'].
  pose proof (allocate_step_yield _ _ _ _ _ _ _ _ Hs)
    as (_ & _ & Hst & _ & _ & _).
  destruct (allocate_step_cases lengths cum rank c n st)
    as [[_ E]|[(_ & _ & E)|(_ & bin & _ & E)]];
    rewrite E in Hs; try discriminate.
  injection Hs as <- <-.
  unfold yielded_tot_seqs, yielded_used, yielded_slots, yielded_bin in *.
  cbn [fst snd st_start_index st_s st_result] in *.
  assert (Htot : snd (round_batch lengths cum c n st)
                 = chosen_left lengths cum c n st).
  { unfold round_batch. rewrite ffd_with_result_eq. cbn [snd].
    rewrite window_length. lia. }
  rewrite Htot.
  repeat split; try assumption; try reflexivity.
  - rewrite Hsum', window_sum, <- Hsum. reflexivity.
  - rewrite length_app, Nat.add_1_r. reflexivity.
Qed.

End AllocateAccounting.

(** X11.  What an emitted round reports, for
    [lengths_cumsum = np.cumsum(lengths)]: [tot_seqs] is the number of
    samples of the window, the cursor advances by exactly that many and
    stays inside the input, [s] is the sum of the lengths of all samples
    consumed so far (the previous [s] plus the lengths of the window), and
    the slot count is [len(result) * c * n] with [result] one bin
    longer. *)
Theorem allocate_yield_accounting
  (lengths : list Z) (rank c : Z) (n : nat) (st st' : alloc_state)
  (out : list nat * nat * Z * Z) :
  reachable lengths (np.cumsum lengths) rank c n st ->
  allocate_step lengths (np.cumsum lengths) rank c n st = Yield out st' ->
  yielded_tot_seqs out = chosen_left lengths (np.cumsum lengths) c n st /\
  st_start_index st' = (st_start_index st + yielded_tot_seqs out)%nat /\
  (st_start_index st' <= length lengths)%nat /\
  yielded_used out = np.sum (firstn (st_start_index st') lengths) /\
  yielded_used out
  = st_s st + np.sum (window lengths (st_start_index st)
                        (yielded_tot_seqs out)) /\
  st_s st' = yielded_used out /\
  st_result st' = st_result st ++ [yielded_bin out] /\
  yielded_slots out = Z.of_nat (S (length (st_result st))) * c * Z.of_nat n.
Proof. apply allocate_yield_fields. Qed.

Lemma allocate_yield_accounting_witness :
  reachable [5; 5; 5; 5] (np.cumsum [5; 5; 5; 5]) 0 10 1 initial_state /\
  allocate_step [5; 5; 5; 5] (np.cumsum [5; 5; 5; 5]) 0 10 1 initial_state
  = Yield ([1; 0]%nat, 2%nat, 10, 10) (mk_alloc_state 10 2 [[1; 0]%nat]) /\
  yielded_used ([1; 0]%nat, 2%nat, 10, 10)
  = np.sum (firstn (st_start_index (mk_alloc_state 10 2 [[1; 0]%nat]))
              [5; 5; 5; 5]).
Proof.
  assert (Hr : reachable [5; 5; 5; 5] (np.cumsum [5; 5; 5; 5]) 0 10 1
                 initial_state) by constructor.
  assert (Hs : allocate_step [5; 5; 5; 5] (np.cumsum [5; 5; 5; 5]) 0 10 1
                 initial_state
               = Yield ([1; 0]%nat, 2%nat, 10, 10)
                       (mk_alloc_state 10 2 [[1; 0]%nat])) by reflexivity.
  split; [exact Hr|]. split; [exact Hs|].
  exact (proj1 (proj2 (proj2 (proj2
           (allocate_yield_accounting [5; 5; 5; 5] 0 10 1 initial_state
              _ _ Hr Hs))))).
Defined.

Lemma allocate_loop_slots
  (lengths lengths_cumsum : list Z) (rank c : Z) (n : nat) (fuel : nat) :
  forall st k out,
    nth_error (fst (allocate_loop lengths lengths_cumsum rank c n fuel st)) k
    = Some out ->
    yielded_slots out
    = Z.of_nat (length (st_result st) + k + 1) * c * Z.of_nat n.
Proof.
  induction fuel as [|fuel IH]; intros st k out; cbn [allocate_loop].
  - destruct k; discriminate.
  - destruct (allocate_step_cases lengths lengths_cumsum rank c n st)
      as [[_ E]|[(_ & _ & E)|(_ & bin & _ & E)]]; rewrite E.
    + destruct k; discriminate.
    + destruct k; discriminate.
    + specialize (IH (mk_alloc_state
                        (nth (st_start_index st
                              + chosen_left lengths lengths_cumsum c n st - 1)
                           lengths_cumsum 0)
                        (st_start_index st
                         + chosen_left lengths lengths_cumsum c n st)
                        (st_result st ++ [bin]))).
      destruct (allocate_loop lengths lengths_cumsum rank c n fuel _)
        as [outs e]. simpl fst in *.
      destruct k as [|k]; simpl.
      * intros [= <-]. unfold yielded_slots; cbn [snd].
        rewrite length_app. cbn [length]. rewrite Nat.add_0_r. reflexivity.
      * intros H. rewrite (IH _ _ H). cbn [st_result].
        rewrite length_app. cbn [length].
        replace (length (st_result st) + 1 + k + 1)%nat
          with (length (st_result st) + S k + 1)%nat by lia.
        reflexivity.
Qed.

(** X12.  The token budget reported with the [k]-th emitted round
    (counting from 0) is [(k + 1) * c * n]. *)
Theorem allocate_slots_by_round
  (lengths lengths_cumsum : list Z) (rank c : Z) (n k : nat)
  (out : list nat * nat * Z * Z) :
  nth_error (fst (allocate lengths lengths_cumsum rank c n)) k = Some out ->
  yielded_slots out = Z.of_nat (k + 1) * c * Z.of_nat n.
Proof.
  intros H. unfold allocate in H.
  apply allocate_loop_slots in H. exact H.
Qed.

Lemma allocate_slots_by_round_witness :
  nth_error (fst (allocate [5; 5; 5; 5] (np.cumsum [5; 5; 5; 5]) 0 10 1)) 1
  = Some ([3; 2]%nat, 2%nat, 20, 20) /\
  yielded_slots ([3; 2]%nat, 2%nat, 20, 20)
  = Z.of_nat (1 + 1) * 10 * Z.of_nat 1.
Proof.
  assert (H : nth_error
                (fst (allocate [5; 5; 5; 5] (np.cumsum [5; 5; 5; 5]) 0 10 1))
                1 = Some ([3; 2]%nat, 2%nat, 20, 20)) by reflexivity.
  split; [exact H|].
  exact (allocate_slots_by_round [5; 5; 5; 5] (np.cumsum [5; 5; 5; 5])
           0 10 1 1 _ H).
Defined.

Lemma np_sum_nonneg (l : list Z) :
  Forall (fun x => 0 <= x) l -> 0 <= np.sum l.
Proof. induction 1; unfold np.sum in *; simpl; lia. Qed.

Lemma Forall_firstn_of {A : Type} (P : A -> Prop) (k : nat) (l : list A) :
  Forall P l -> Forall P (firstn k l).
Proof.
  intros H. rewrite <- (firstn_skipn k l) in H.
  now apply Forall_app in H as [H _].
Qed.

(** The left chosen in a reachable state is feasible. *)
Lemma chosen_left_feasible
  (lengths : list Z) (rank c : Z) (n : nat) (st : alloc_state) :
  Forall (fun x => 0 <= x <= c) lengths ->
  (1 <= n)%nat ->
  reachable lengths (np.cumsum lengths) rank c n st ->
  ffd_check
    (window lengths (st_start_index st)
       (chosen_left lengths (np.cumsum lengths) c n st)) c n = true.
Proof.
  intros Hfit Hn Hr.
  assert (Hok := reachable_cursor lengths rank c n st Hr).
  destruct (chosen_left_search_state lengths c n st) as [right Hs].
  exact (proj1 (search_state_invariant lengths c n Hfit Hn st _ _ Hok Hs)).
Qed.

Lemma allocate_used_le_slots
  (lengths : list Z) (rank c : Z) (n : nat) :
  Forall (fun x => 0 <= x <= c) lengths ->
  (1 <= n)%nat ->
  Forall (fun out => 0 <= yielded_used out <= yielded_slots out)
         (fst (allocate lengths (np.cumsum lengths) rank c n)).
Proof.
  intros Hfit Hn. unfold allocate.
  apply allocate_loop_yields
    with (P := fun st =>
                 reachable lengths (np.cumsum lengths) rank c n st /\
                 st_s st <= Z.of_nat (length (st_result st)) * c * Z.of_nat n).
  - intros st out st' [Hr Hinv] Hs.
    assert (Hr' : reachable lengths (np.cumsum lengths) rank c n st')
      by (econstructor; eauto).
    pose proof (allocate_yield_fields lengths rank c n st st' out Hr Hs)
      as (Htot & _ & _ & Hused & Hused' & Hs' & Hres & Hslots).
    pose proof (chosen_left_feasible lengths rank c n st Hfit Hn Hr) as Hf.
    rewrite <- Htot in Hf.
    apply allocate_step_yield in Hs as (_ & _ & _ & _ & _ & Hin).
    assert (Hc : 0 <= c).
    { eapply capacity_nonneg; [exact Hfit | exact Hn |].
      intros E. rewrite E in Hin. simpl in Hin. lia. }
    apply ffd_check_sum in Hf; [|exact Hc].
    assert (Hnonneg : 0 <= yielded_used out).
    { rewrite Hused. apply np_sum_nonneg, Forall_firstn_of.
      eapply Forall_impl; [|exact Hfit]. intros x Hx; cbv beta in Hx. lia. }
    assert (Hle : yielded_used out <= yielded_slots out).
    { rewrite Hused', Hslots, Nat2Z.inj_succ.
      set (k := Z.of_nat (length (st_result st))) in *.
      set (m := Z.of_nat n) in *.
      replace (Z.succ k * c * m) with (k * c * m + c * m) by ring.
      lia. }
    split; [lia|]. split; [exact Hr'|].
    rewrite Hs', Hres, length_app, Nat.add_1_r. cbn [length].
    rewrite <- Hslots. exact Hle.
  - split; [constructor | simpl; lia].
Qed.

(** X13.  The packing efficiency of a pass never exceeds 1.  When every
    sample length lies between 0 and the capacity and [n >= 1], every
    tuple the allocator yields has [0 <= s <= len(result) * c * n]: the
    tokens used so far never exceed the slots offered so far. *)
Theorem allocate_used_within_slots
  (lengths : list Z) (rank c : Z) (n : nat) :
  Forall (fun x => 0 <= x <= c) lengths ->
  (1 <= n)%nat ->
  Forall (fun out => 0 <= yielded_used out <= yielded_slots out)
         (fst (allocate lengths (np.cumsum lengths) rank c n)).
Proof. apply allocate_used_le_slots. Qed.

Lemma allocate_used_within_slots_witness :
  Forall (fun x => 0 <= x <= 10) [9; 1; 9; 1; 3] /\
  (1 <= 2)%nat /\
  Forall (fun out => 0 <= yielded_used out <= yielded_slots out)
         (fst (allocate [9; 1; 9; 1; 3] (np.cumsum [9; 1; 9; 1; 3]) 0 10 2)).
Proof.
  assert (Hfit : Forall (fun x => 0 <= x <= 10) [9; 1; 9; 1; 3])
    by (repeat constructor; lia).
  assert (Hn : (1 <= 2)%nat) by (repeat constructor).
  split; [exact Hfit|]. split; [exact Hn|].
  exact (allocate_used_within_slots [9; 1; 9; 1; 3] 0 10 2 Hfit Hn).
Defined.

(** X14.  The bins of an emitted round are a rearrangement of the window
    of the round: with [lengths_cumsum = np.cumsum(lengths)], put end to
    end they hold exactly the positions
    [start_index, ..., start_index + tot_seqs - 1], each once, and the
    yielded bin is one of them. *)
Theorem allocate_round_covers_window
  (lengths : list Z) (rank c : Z) (n : nat) (st st' : alloc_state)
  (out : list nat * nat * Z * Z) :
  reachable lengths (np.cumsum lengths) rank c n st ->
  allocate_step lengths (np.cumsum lengths) rank c n st = Yield out st' ->
  Permutation
    (concat (fst (round_batch lengths (np.cumsum lengths) c n st)))
    (seq (st_start_index st) (yielded_tot_seqs out))
  /\ In (yielded_bin out)
        (fst (round_batch lengths (np.cumsum lengths) c n st))
  /\ st_start_index st' = (st_start_index st + yielded_tot_seqs out)%nat.
Proof.
  intros Hr Hs.
  pose proof (allocate_yield_fields lengths rank c n st st' out Hr Hs)
    as (Htot & Hst & Hle & _).
  pose proof (allocate_step_yield _ _ _ _ _ _ _ _ Hs) as (Hin & _).
  split; [|split; assumption].
  unfold round_batch.
  eapply perm_trans; [apply ffd_with_result_perm|].
  rewrite window_length, Htot.
  replace (Nat.min (chosen_left lengths (np.cumsum lengths) c n st)
             (length lengths - st_start_index st))
    with (chosen_left lengths (np.cumsum lengths) c n st) by lia.
  apply Permutation_refl.
Qed.

Lemma allocate_round_covers_window_witness :
  reachable [9; 1; 9; 1] (np.cumsum [9; 1; 9; 1]) 0 10 2 initial_state /\
  allocate_step [9; 1; 9; 1] (np.cumsum [9; 1; 9; 1]) 0 10 2 initial_state
  = Yield ([2; 3]%nat, 4%nat, 20, 20) (mk_alloc_state 20 4 [[2; 3]%nat]) /\
  Permutation
    (concat (fst (round_batch [9; 1; 9; 1] (np.cumsum [9; 1; 9; 1]) 10 2
                    initial_state)))
    (seq (st_start_index initial_state)
         (yielded_tot_seqs ([2; 3]%nat, 4%nat, 20, 20))).
Proof.
  assert (Hr : reachable [9; 1; 9; 1] (np.cumsum [9; 1; 9; 1]) 0 10 2
                 initial_state) by constructor.
  assert (Hs : allocate_step [9; 1; 9; 1] (np.cumsum [9; 1; 9; 1]) 0 10 2
                 initial_state
               = Yield ([2; 3]%nat, 4%nat, 20, 20)
                       (mk_alloc_state 20 4 [[2; 3]%nat])) by reflexivity.
  split; [exact Hr|]. split; [exact Hs|].
  exact (proj1 (allocate_round_covers_window [9; 1; 9; 1] 0 10 2
                  initial_state _ _ Hr Hs)).
Defined.

Lemma NoDup_concat_member {A : Type} (l : list (list A)) (r : list A) :
  NoDup (concat l) -> In r l -> NoDup r.
Proof.
  induction l as [|x l IH]; simpl; [contradiction|].
  intros Hnd [->|Hin].
  - now apply NoDup_app_remove_r in Hnd.
  - apply IH; [now apply NoDup_app_remove_l in Hnd | assumption].
Qed.

Lemma allocate_loop_disjoint
  (lengths lengths_cumsum : list Z) (rank c : Z) (n : nat) (fuel : nat) :
  forall st,
    NoDup (concat (map yielded_bin
                     (fst (allocate_loop lengths lengths_cumsum rank c n
                             fuel st)))) /\
    Forall (fun i => (st_start_index st <= i)%nat)
           (concat (map yielded_bin
                      (fst (allocate_loop lengths lengths_cumsum rank c n
                              fuel st)))).
Proof.
  induction fuel as [|fuel IH]; intros st; cbn [allocate_loop].
  - simpl. split; constructor.
  - destruct (allocate_step lengths lengths_cumsum rank c n st)
      as [| |out st'] eqn:E; simpl; try (split; constructor).
    pose proof (allocate_step_yield _ _ _ _ _ _ _ _ E)
      as (Hin & _ & Hst & _ & Hlt & _).
    destruct (IH st') as [Hnd Hge].
    destruct (allocate_loop lengths lengths_cumsum rank c n fuel st')
      as [outs e]. simpl in *.
    assert (Hbin : Forall (fun i => (st_start_index st <= i
                                     < st_start_index st')%nat)
                          (yielded_bin out)).
    { apply Forall_forall. intros i Hi. unfold round_batch in Hin.
      pose proof (packer_members c _ _ _ _ Hin Hi) as H.
      rewrite window_length in H. lia. }
    split.
    + apply NoDup_app.
      * apply (NoDup_concat_member
                 (fst (round_batch lengths lengths_cumsum c n st)));
          [|exact Hin].
        unfold round_batch.
        eapply Permutation_NoDup;
          [apply Permutation_sym, ffd_with_result_perm | apply seq_NoDup].
      * exact Hnd.
      * intros i Hi Hi'. rewrite Forall_forall in Hbin, Hge.
        specialize (Hbin _ Hi). specialize (Hge _ Hi'). lia.
    + apply Forall_app; split.
      * eapply Forall_impl; [|exact Hbin]. intros i Hi; cbv beta in Hi. lia.
      * eapply Forall_impl; [|exact Hge]. intros i Hi; cbv beta in Hi. lia.
Qed.

(** X15.  No sample is handed out twice: over a whole run of the
    allocator, whatever arrays and parameters it is given, the bins it
    yields are pairwise disjoint and no bin repeats an index. *)
Theorem allocate_yields_disjoint
  (lengths lengths_cumsum : list Z) (rank c : Z) (n : nat) :
  NoDup (concat (map yielded_bin
                   (fst (allocate lengths lengths_cumsum rank c n)))).
Proof. apply allocate_loop_disjoint. Qed.

Lemma window_of_nothing (start k : nat) : window [] start k = [].
Proof. unfold window. now rewrite skipn_nil, firstn_nil. Qed.

(** X16.  On an empty lengths array the allocator yields nothing: with at
    least one worker it stops at once, with none it raises. *)
Theorem allocate_nothing
  (lengths_cumsum : list Z) (rank c : Z) (n : nat) :
  ((1 <= n)%nat ->
   allocate [] lengths_cumsum rank c n = ([], StopIteration))
  /\ (n = 0%nat -> allocate [] lengths_cumsum rank c n = ([], Raised)).
Proof.
  unfold allocate. cbn [length allocate_loop].
  unfold allocate_step, round_batch.
  rewrite window_of_nothing. cbn [ffd_with_result].
  rewrite packer_of_none. cbn [length].
  split.
  - intros Hn. destruct n as [|n']; [lia | reflexivity].
  - intros ->. cbn. unfold py_getitem.
    destruct (0 <=? rank); [now rewrite nth_error_nil|].
    destruct (- Z.of_nat (length (@nil (list nat))) <=? rank);
      [now rewrite nth_error_nil | reflexivity].
Qed.

Lemma allocate_nothing_witness :
  (1 <= 2)%nat /\ allocate [] (np.cumsum []) 0 10 2 = ([], StopIteration).
Proof.
  assert (Hn : (1 <= 2)%nat) by (repeat constructor).
  split; [exact Hn|].
  exact (proj1 (allocate_nothing (np.cumsum []) 0 10 2) Hn).
Defined.

(** ** The batch producer *)

Lemma mapM_getitem_map {A : Type} (l : list A) (d : A) (idxs : list nat) :
  Forall (fun i => (i < length l)%nat) idxs ->
  mapM (getitem l) idxs = inr (map (fun i => nth i l d) idxs).
Proof.
  induction 1 as [|i idxs Hi H IH]; simpl; [reflexivity|].
  unfold getitem at 1.
  destruct (nth_error l i) as [x|] eqn:E.
  - simpl. rewrite IH. simpl. unfold ret.
    now rewrite (nth_error_nth _ _ d E).
  - apply nth_error_None in E. lia.
Qed.

Lemma mapM_getitem_out_of_range {A : Type} (l : list A) (idxs : list nat) :
  Exists (fun i => (length l <= i)%nat) idxs ->
  mapM (getitem l) idxs = inl IndexError.
Proof.
  induction 1 as [i idxs Hi|i idxs H IH]; simpl; unfold getitem at 1.
  - apply nth_error_None in Hi. now rewrite Hi.
  - destruct (nth_error l i); simpl; [|reflexivity]. now rewrite IH.
Qed.

(** What [put_rounds] does when every yielded position is a position of
    the epoch order. *)
Lemma put_rounds_ok (indices : list nat) (set_stats : bool)
  (outs : list (list nat * nat * Z * Z)) :
  Forall (fun out =>
            Forall (fun i => (i < length indices)%nat) (yielded_bin out))
         outs ->
  forall self,
    put_rounds indices set_stats outs self =
    (map (fun out => map (fun p => nth p indices 0%nat) (yielded_bin out)) outs,
     fold_left (fun s out =>
                  if set_stats
                  then set_stats_of s (yielded_used out) (yielded_slots out)
                  else s) outs self,
     None).
Proof.
  induction 1 as [|[[[batch tot] used] slots] outs Hb H IH]; intros self;
    simpl; [reflexivity|].
  unfold yielded_bin in Hb; simpl in Hb.
  rewrite (mapM_getitem_map indices 0%nat batch Hb).
  rewrite IH. reflexivity.
Qed.

Lemma generate_batches_run (self : MultipackDistributedDataloader)
  (set_stats : bool) (ls : list Z) :
  mapM (getitem (lengths self)) (epoch_indices self) = inr ls ->
  generate_batches self set_stats =
  (map (fun out =>
          map (fun p => nth p (epoch_indices self) 0%nat) (yielded_bin out))
       (fst (allocate ls (np.cumsum ls) (rank self) (capacity self)
               (num_replicas self))),
   fold_left (fun s out =>
                if set_stats
                then set_stats_of s (yielded_used out) (yielded_slots out)
                else s)
             (fst (allocate ls (np.cumsum ls) (rank self) (capacity self)
                     (num_replicas self))) self,
   match snd (allocate ls (np.cumsum ls) (rank self) (capacity self)
                (num_replicas self)) with
   | Raised => Some IndexError
   | _ => None
   end).
Proof.
  intros Hls. unfold generate_batches. rewrite Hls.
  pose proof (allocate_yields_in_range ls (np.cumsum ls) (rank self)
                (capacity self) (num_replicas self)) as Hin.
  rewrite (mapM_length _ _ _ Hls) in Hin.
  destruct (allocate ls (np.cumsum ls) (rank self) (capacity self)
              (num_replicas self)) as [outs e].
  simpl fst in *. simpl snd.
  rewrite (put_rounds_ok _ set_stats outs Hin self).
  destruct e; reflexivity.
Qed.

(** X17.  [generate_batches] puts on the queue, round by round, the bin
    the allocator yields for its rank, each position of the epoch order
    translated back to the dataset index the sampler gave there; it raises
    exactly when the allocator does. *)
Theorem generate_batches_puts (self : MultipackDistributedDataloader)
  (set_stats : bool) (ls : list Z) :
  mapM (getitem (lengths self)) (epoch_indices self) = inr ls ->
  fst (fst (generate_batches self set_stats))
  = map (fun out =>
           map (fun p => nth p (epoch_indices self) 0%nat) (yielded_bin out))
        (fst (allocate ls (np.cumsum ls) (rank self) (capacity self)
                (num_replicas self)))
  /\ snd (generate_batches self set_stats)
     = match snd (allocate ls (np.cumsum ls) (rank self) (capacity self)
                    (num_replicas self)) with
       | Raised => Some IndexError
       | _ => None
       end.
Proof.
  intros Hls. rewrite (generate_batches_run self set_stats ls Hls).
  split; reflexivity.
Qed.

Lemma generate_batches_puts_witness :
  mapM (getitem (lengths example_loader)) (epoch_indices example_loader)
  = inr [5; 5; 5; 5] /\
  fst (fst (generate_batches example_loader true))
  = map (fun out =>
           map (fun p => nth p (epoch_indices example_loader) 0%nat)
               (yielded_bin out))
        (fst (allocate [5; 5; 5; 5] (np.cumsum [5; 5; 5; 5])
                (rank example_loader) (capacity example_loader)
                (num_replicas example_loader))).
Proof.
  assert (H : mapM (getitem (lengths example_loader))
                (epoch_indices example_loader) = inr [5; 5; 5; 5])
    by reflexivity.
  split; [exact H|].
  exact (proj1 (generate_batches_puts example_loader true [5; 5; 5; 5] H)).
Defined.

Lemma map_nth_seq_id (len : nat) (l : list nat) :
  Forall (fun i => (i < len)%nat) l ->
  map (fun p => nth p (seq 0 len) 0%nat) l = l.
Proof.
  induction 1 as [|i l Hi H IH]; simpl; [reflexivity|].
  rewrite seq_nth by assumption. now rewrite IH.
Qed.

(** X18.  Without a sampler the bins go on the queue as the allocator
    yields them, and no dataset index is put on the queue twice in one
    pass. *)
Theorem generate_batches_no_sampler (self : MultipackDistributedDataloader)
  (set_stats : bool) :
  sampler self = None ->
  length (lengths self) = length (rows (dataset self)) ->
  fst (fst (generate_batches self set_stats))
  = map yielded_bin
        (fst (allocate (lengths self) (np.cumsum (lengths self))
                (rank self) (capacity self) (num_replicas self)))
  /\ NoDup (concat (fst (fst (generate_batches self set_stats)))).
Proof.
  intros Hs Hlen.
  assert (Hidx : epoch_indices self = seq 0 (length (lengths self))).
  { unfold epoch_indices. now rewrite Hs, Hlen. }
  assert (Hls : mapM (getitem (lengths self)) (epoch_indices self)
                = inr (lengths self)).
  { rewrite Hidx. apply mapM_getitem_all. }
  rewrite (generate_batches_run self set_stats _ Hls). cbn [fst].
  assert (Hputs :
            map (fun out =>
                   map (fun p => nth p (epoch_indices self) 0%nat)
                       (yielded_bin out))
                (fst (allocate (lengths self) (np.cumsum (lengths self))
                        (rank self) (capacity self) (num_replicas self)))
            = map yielded_bin
                (fst (allocate (lengths self) (np.cumsum (lengths self))
                        (rank self) (capacity self) (num_replicas self)))).
  { apply map_ext_in. intros out Hout. rewrite Hidx.
    apply map_nth_seq_id.
    pose proof (allocate_yields_in_range (lengths self)
                  (np.cumsum (lengths self)) (rank self) (capacity self)
                  (num_replicas self)) as H.
    rewrite Forall_forall in H. now apply H. }
  rewrite Hputs. split; [reflexivity|].
  apply allocate_loop_disjoint.
Qed.

Lemma generate_batches_no_sampler_witness :
  sampler example_loader = None /\
  length (lengths example_loader) = length (rows (dataset example_loader)) /\
  NoDup (concat (fst (fst (generate_batches example_loader true)))).
Proof.
  assert (Hs : sampler example_loader = None) by reflexivity.
  assert (Hl : length (lengths example_loader)
               = length (rows (dataset example_loader))) by reflexivity.
  split; [exact Hs|]. split; [exact Hl|].
  exact (proj2 (generate_batches_no_sampler example_loader true Hs Hl)).
Defined.

(** X19.  A sampler that yields a position outside the length array makes
    [generate_batches] raise [IndexError] before anything is put on the
    queue; the producer thread then puts the terminal marker and nothing
    else. *)
Theorem generate_batches_bad_index (self : MultipackDistributedDataloader)
  (set_stats : bool) :
  Exists (fun i => (length (lengths self) <= i)%nat) (epoch_indices self) ->
  generate_batches self set_stats = ([], self, Some IndexError)
  /\ fst (_generate_batches_thread self) = [None].
Proof.
  intros H.
  assert (E : forall b, generate_batches self b = ([], self, Some IndexError)).
  { intros b. unfold generate_batches.
    now rewrite (mapM_getitem_out_of_range _ _ H). }
  split; [apply E|].
  unfold _generate_batches_thread. now rewrite E.
Qed.

Lemma generate_batches_bad_index_witness :
  Exists (fun i => (length (lengths example_loader_bad_sampler) <= i)%nat)
         (epoch_indices example_loader_bad_sampler) /\
  fst (_generate_batches_thread example_loader_bad_sampler) = [None].
Proof.
  assert (H : Exists
                (fun i =>
                   (length (lengths example_loader_bad_sampler) <= i)%nat)
                (epoch_indices example_loader_bad_sampler)).
  { apply Exists_cons_tl, Exists_cons_tl, Exists_cons_hd. simpl. lia. }
  split; [exact H|].
  exact (proj2 (generate_batches_bad_index example_loader_bad_sampler
                  true H)).
Defined.

(** *** The statistics *)

Lemma set_stats_of_twice (self : MultipackDistributedDataloader)
  (a b a' b' : Z) :
  set_stats_of (set_stats_of self a b) a' b' = set_stats_of self a' b'.
Proof. reflexivity. Qed.

Lemma fold_stats_last_cons (outs : list (list nat * nat * Z * Z)) :
  forall out self d,
    fold_left (fun s out =>
                 set_stats_of s (yielded_used out) (yielded_slots out))
              (out :: outs) self
    = set_stats_of self (yielded_used (last (out :: outs) d))
                        (yielded_slots (last (out :: outs) d)).
Proof.
  induction outs as [|out' outs IH]; intros out self d; [reflexivity|].
  change (fold_left
            (fun s out =>
               set_stats_of s (yielded_used out) (yielded_slots out))
            (out :: out' :: outs) self)
    with (fold_left
            (fun s out =>
               set_stats_of s (yielded_used out) (yielded_slots out))
            (out' :: outs)
            (set_stats_of self (yielded_used out) (yielded_slots out))).
  rewrite (IH out' _ d). reflexivity.
Qed.

Lemma fold_stats_last (outs : list (list nat * nat * Z * Z)) :
  forall self d,
    outs <> [] ->
    fold_left (fun s out =>
                 set_stats_of s (yielded_used out) (yielded_slots out))
              outs self
    = set_stats_of self (yielded_used (last outs d))
                        (yielded_slots (last outs d)).
Proof.
  destruct outs as [|out outs]; intros self d Hne; [congruence|].
  apply fold_stats_last_cons.
Qed.

Lemma fold_no_stats (outs : list (list nat * nat * Z * Z))
  (self : MultipackDistributedDataloader) :
  fold_left (fun s (_ : list nat * nat * Z * Z) => s) outs self = self.
Proof. induction outs; simpl; auto. Qed.

(** X20.  What a pass of [generate_batches] leaves in the object.  Without
    [set_stats], or when no round is emitted, the object is unchanged.
    With [set_stats] and at least one round, only the two statistics
    change, and they are the [s] and the slot count of the last round
    emitted: earlier rounds leave no trace. *)
Theorem generate_batches_stats (self : MultipackDistributedDataloader)
  (ls : list Z) :
  mapM (getitem (lengths self)) (epoch_indices self) = inr ls ->
  snd (fst (generate_batches self false)) = self
  /\ (fst (allocate ls (np.cumsum ls) (rank self) (capacity self)
             (num_replicas self)) = [] ->
      snd (fst (generate_batches self true)) = self)
  /\ (forall d,
         fst (allocate ls (np.cumsum ls) (rank self) (capacity self)
                (num_replicas self)) <> [] ->
         snd (fst (generate_batches self true))
         = set_stats_of self
             (yielded_used
                (last (fst (allocate ls (np.cumsum ls) (rank self)
                              (capacity self) (num_replicas self))) d))
             (yielded_slots
                (last (fst (allocate ls (np.cumsum ls) (rank self)
                              (capacity self) (num_replicas self))) d))).
Proof.
  intros Hls. rewrite !(generate_batches_run self _ ls Hls). cbn [fst snd].
  split; [apply fold_no_stats|]. split.
  - intros ->. reflexivity.
  - intros d Hne. now apply fold_stats_last.
Qed.

Lemma generate_batches_stats_witness :
  mapM (getitem (lengths example_loader)) (epoch_indices example_loader)
  = inr [5; 5; 5; 5] /\
  snd (fst (generate_batches example_loader false)) = example_loader.
Proof.
  assert (H : mapM (getitem (lengths example_loader))
                (epoch_indices example_loader) = inr [5; 5; 5; 5])
    by reflexivity.
  split; [exact H|].
  exact (proj1 (generate_batches_stats example_loader [5; 5; 5; 5] H)).
Defined.

Lemma last_in {A : Type} (l : list A) (d : A) : l <> [] -> In (last l d) l.
Proof.
  induction l as [|x l IH]; [congruence|]. intros _.
  destruct l as [|y l]; [left; reflexivity|].
  right. apply IH. discriminate.
Qed.

(** X21.  After a pass with statistics the packing efficiency is at most
    1.  For a loader without sampler whose lengths lie between 0 and the
    bin capacity, with at least one replica and statistics that start
    within bounds (as the constructor sets them: 0 and 0), a call of
    [generate_batches(set_stats=True)] leaves
    [0 <= eff_total_used <= eff_total_slots], so that [efficiency()], when
    it returns, returns a value between 0 and 1. *)
Theorem efficiency_at_most_one (self : MultipackDistributedDataloader) :
  sampler self = None ->
  length (lengths self) = length (rows (dataset self)) ->
  Forall (fun x => 0 <= x <= capacity self) (lengths self) ->
  (1 <= num_replicas self)%nat ->
  0 <= eff_total_used self <= eff_total_slots self ->
  0 <= eff_total_used (snd (fst (generate_batches self true)))
    <= eff_total_slots (snd (fst (generate_batches self true)))
  /\ forall q,
      efficiency (snd (fst (generate_batches self true))) = inr q ->
      (0 <= q <= 1)%Q.
Proof.
  intros Hs Hlen Hfit Hn Hinit.
  assert (Hls : mapM (getitem (lengths self)) (epoch_indices self)
                = inr (lengths self)).
  { unfold epoch_indices. rewrite Hs, <- Hlen. apply mapM_getitem_all. }
  assert (Hb : 0 <= eff_total_used (snd (fst (generate_batches self true)))
               <= eff_total_slots (snd (fst (generate_batches self true)))).
  { rewrite (generate_batches_run self true _ Hls). cbn [fst snd].
    pose proof (allocate_used_le_slots (lengths self) (rank self)
                  (capacity self) (num_replicas self) Hfit Hn) as Hall.
    destruct (fst (allocate (lengths self) (np.cumsum (lengths self))
                     (rank self) (capacity self) (num_replicas self)))
      as [|out outs] eqn:E; [exact Hinit|].
    rewrite (fold_stats_last (out :: outs) self out) by discriminate.
    unfold set_stats_of. cbn [eff_total_used eff_total_slots].
    rewrite Forall_forall in Hall. apply Hall.
    apply last_in. discriminate. }
  split; [exact Hb|].
  intros q. unfold efficiency.
  set (self' := snd (fst (generate_batches self true))) in *.
  destruct (eff_total_slots self' =? 0) eqn:E0; [discriminate|].
  apply Z.eqb_neq in E0. intros [= <-].
  assert (Hpos : (0 < inject_Z (eff_total_slots self'))%Q).
  { change 0%Q with (inject_Z 0). rewrite <- Zlt_Qlt. lia. }
  split.
  - apply Qle_shift_div_l; [exact Hpos|].
    rewrite Qmult_0_l. change 0%Q with (inject_Z 0).
    rewrite <- Zle_Qle. lia.
  - apply Qle_shift_div_r; [exact Hpos|].
    rewrite Qmult_1_l. rewrite <- Zle_Qle. lia.
Qed.

Lemma efficiency_at_most_one_witness :
  sampler example_loader = None /\
  length (lengths example_loader) = length (rows (dataset example_loader)) /\
  Forall (fun x => 0 <= x <= capacity example_loader)
         (lengths example_loader) /\
  (1 <= num_replicas example_loader)%nat /\
  0 <= eff_total_used example_loader <= eff_total_slots example_loader /\
  0 <= eff_total_used (snd (fst (generate_batches example_loader true)))
    <= eff_total_slots (snd (fst (generate_batches example_loader true))).
Proof.
  assert (Hs : sampler example_loader = None) by reflexivity.
  assert (Hl : length (lengths example_loader)
               = length (rows (dataset example_loader))) by reflexivity.
  assert (Hfit : Forall (fun x => 0 <= x <= capacity example_loader)
                        (lengths example_loader))
    by (repeat constructor; cbv; discriminate).
  assert (Hn : (1 <= num_replicas example_loader)%nat) by constructor.
  assert (Hi : 0 <= eff_total_used example_loader
               <= eff_total_slots example_loader)
    by (split; cbv; discriminate).
  split; [exact Hs|]. split; [exact Hl|]. split; [exact Hfit|].
  split; [exact Hn|]. split; [exact Hi|].
  exact (proj1 (efficiency_at_most_one example_loader Hs Hl Hfit Hn Hi)).
Defined.

(** ** The batch consumer *)



(** X23.  The terminal marker ends the iteration: whatever follows the
    first marker on the queue is never read, and a queue that holds a
    marker never leaves the iterator blocked. *)
Theorem iter_loop_marker {B : Type} (collate_fn : list dict -> B)
  (self : MultipackDistributedDataloader) (bins : list (list nat))
  (rest : list (option (list nat))) (len_remaining : Z) :
  iter_loop collate_fn self (map Some bins ++ None :: rest) len_remaining
  = iter_loop collate_fn self (map Some bins ++ [None]) len_remaining
  /\ snd (iter_loop collate_fn self (map Some bins ++ None :: rest)
            len_remaining) <> Blocked.
Proof.
  revert len_remaining.
  induction bins as [|batch bins IH]; intros r; simpl.
  - split; [reflexivity | discriminate].
  - destruct (assemble self batch) as [e|chunked]; simpl;
      [split; [reflexivity | discriminate]|].
    destruct (r - 1 =? 0); [split; [reflexivity | discriminate]|].
    destruct (IH (r - 1)) as [H1 H2]. rewrite H1 in *.
    destruct (iter_loop collate_fn self (map Some bins ++ [None]) (r - 1))
      as [outs e]. simpl in *. split; [reflexivity | exact H2].
Qed.

Section AssemblePlain.

Variable batched_data : list dict.

Lemma assemble_feature_sets (f : String.string) (cum cum' : Z)
  (d d' : dict) :
  assemble_feature batched_data (inr (cum, d)) f = inr (cum', d') ->
  exists v,
    d' = dict_set d f v /\
    (f <> "attention_mask"%string ->
     v = concat (plain_arrays f batched_data)).
Proof.
  unfold assemble_feature; cbn [bind].
  destruct (String.eqb f "attention_mask") eqn:E.
  - apply String.eqb_eq in E.
    destruct (np_concatenate
                (attention_arrays f cum batched_data)) as [e|v];
      cbn [bind ret]; [discriminate|].
    intros [= <- <-]. exists v. split; [reflexivity | congruence].
  - destruct (np_concatenate (plain_arrays f batched_data)) as [e|v] eqn:Ev;
      cbn [bind ret]; [discriminate|].
    intros [= <- <-]. exists v. split; [reflexivity|].
    intros _. now apply np_concatenate_ok.
Qed.

Lemma fold_assemble_keeps (f : String.string) (fs : list String.string) :
  forall cum d cum' d',
    ~ In f fs ->
    fold_left (assemble_feature batched_data) fs (inr (cum, d))
      = inr (cum', d') ->
    dict_get d' f = dict_get d f.
Proof.
  induction fs as [|g fs IH]; intros cum d cum' d' Hn; cbn [fold_left].
  - now intros [= <- <-].
  - destruct (assemble_feature batched_data (inr (cum, d)) g)
      as [e|[cum1 d1]] eqn:E.
    + rewrite fold_assemble_raised. discriminate.
    + intros H. apply assemble_feature_sets in E as (v & -> & _).
      rewrite (IH _ _ _ _ (fun Hin => Hn (or_intror Hin)) H).
      rewrite dict_get_set.
      destruct (String.eqb f g) eqn:Efg; [|reflexivity].
      apply String.eqb_eq in Efg. subst g. exfalso. apply Hn. now left.
Qed.

Lemma fold_assemble_plain (f : String.string) (fs : list String.string) :
  forall cum d cum' d',
    In f fs -> f <> "attention_mask"%string ->
    fold_left (assemble_feature batched_data) fs (inr (cum, d))
      = inr (cum', d') ->
    dict_get d' f = Some (concat (plain_arrays f batched_data)).
Proof.
  induction fs as [|g fs IH]; intros cum d cum' d' Hin Hf;
    cbn [fold_left]; [destruct Hin|].
  destruct (assemble_feature batched_data (inr (cum, d)) g)
    as [e|[cum1 d1]] eqn:E.
  - rewrite fold_assemble_raised. discriminate.
  - intros H.
    destruct (in_dec String.string_dec f fs) as [Hfs|Hfs].
    + eapply IH; eauto.
    + destruct Hin as [->|Hin]; [|contradiction].
      rewrite (fold_assemble_keeps f fs _ _ _ _ Hfs H).
      apply assemble_feature_sets in E as (v & -> & Hv).
      rewrite dict_get_set, String.eqb_refl. now rewrite (Hv Hf).
Qed.

End AssemblePlain.

(** X24.  The packed record of a round: for every feature of the dataset
    other than the mask it holds the members' arrays of that feature put
    end to end in the order of the bin, and it has no entry for anything
    that is not a feature of the dataset. *)
Theorem assemble_plain_features (self : MultipackDistributedDataloader)
  (batch : list nat) (chunked_data : list dict) :
  assemble self batch = inr chunked_data ->
  exists batched_data record,
    mapM (getitem (rows (dataset self))) batch = inr batched_data /\
    chunked_data = [record] /\
    (forall f,
        In f (features (dataset self)) -> f <> "attention_mask"%string ->
        dict_get record f = Some (concat (plain_arrays f batched_data))) /\
    (forall f, ~ In f (features (dataset self)) -> dict_get record f = None).
Proof.
  unfold assemble.
  destruct (mapM (getitem (rows (dataset self))) batch) as [e|bd];
    cbn [bind]; [discriminate|].
  destruct (fold_left (assemble_feature bd) (features (dataset self))
              (ret (0, []))) as [e|[cum d]] eqn:E; cbn [bind ret];
    [discriminate|].
  intros [= <-]. exists bd, d. repeat split.
  - intros f Hin Hf. eapply fold_assemble_plain; eauto.
  - intros f Hn. now rewrite (fold_assemble_keeps bd f _ _ _ _ _ Hn E).
Qed.

Lemma assemble_plain_features_witness :
  assemble example_loader [1; 0]%nat
  = inr [[("input_ids"%string, repeat 7 10);
          ("attention_mask"%string, repeat 1 5 ++ repeat 2 5)]] /\
  exists batched_data record,
    mapM (getitem (rows (dataset example_loader))) [1; 0]%nat
    = inr batched_data /\
    [[("input_ids"%string, repeat 7 10);
      ("attention_mask"%string, repeat 1 5 ++ repeat 2 5)]] = [record] /\
    (forall f,
        In f (features (dataset example_loader)) ->
        f <> "attention_mask"%string ->
        dict_get record f = Some (concat (plain_arrays f batched_data))) /\
    (forall f,
        ~ In f (features (dataset example_loader)) ->
        dict_get record f = None).
Proof.
  assert (H : assemble example_loader [1; 0]%nat
              = inr [[("input_ids"%string, repeat 7 10);
                      ("attention_mask"%string, repeat 1 5 ++ repeat 2 5)]])
    by reflexivity.
  split; [exact H|].
  exact (assemble_plain_features example_loader [1; 0]%nat _ H).
Defined.

(** X25.  What makes the assembly of a round fail: a bin that names an
    index outside the dataset raises [IndexError], and an empty bin raises
    [ValueError] as soon as the dataset has a feature, because
    [np.concatenate] is given no array. *)
Theorem assemble_failures (self : MultipackDistributedDataloader)
  (batch : list nat) :
  (Exists (fun i => (length (rows (dataset self)) <= i)%nat) batch ->
   assemble self batch = inl IndexError)
  /\ (batch = [] -> features (dataset self) <> [] ->
      assemble self batch = inl ValueError).
Proof.
  split.
  - intros H. unfold assemble.
    now rewrite (mapM_getitem_out_of_range _ _ H).
  - intros -> Hf. unfold assemble. cbn [mapM bind ret].
    destruct (features (dataset self)) as [|f fs]; [congruence|].
    cbn [fold_left].
    assert (E : assemble_feature [] (inr (0, [])) f = inl ValueError).
    { unfold assemble_feature; cbn [bind].
      destruct (String.eqb f "attention_mask"); reflexivity. }
    unfold ret in *. rewrite E, fold_assemble_raised. reflexivity.
Qed.

Lemma assemble_failures_witness :
  Exists (fun i => (length (rows (dataset example_loader)) <= i)%nat)
         [0; 9]%nat /\
  assemble example_loader [0; 9]%nat = inl IndexError.
Proof.
  assert (H : Exists
                (fun i => (length (rows (dataset example_loader)) <= i)%nat)
                [0; 9]%nat).
  { apply Exists_cons_tl, Exists_cons_hd. simpl. lia. }
  split; [exact H|].
  exact (proj1 (assemble_failures example_loader [0; 9]%nat) H).
Defined.

(** ** The length estimate *)

Lemma len_est_value (self : MultipackDistributedDataloader) (t : Z) :
  total_num_tokens self = Some t -> t <> 0 ->
  0 < device_count self ->
  (0 < packing_efficiency_estimate self)%Q ->
  0 < seq_max_length self -> 0 < batch_size self ->
  exists self',
    _len_est self
    = inr (Qfloor (len_est_quotient (t / device_count self)
                     (packing_efficiency_estimate self)
                     (seq_max_length self) (batch_size self)) - 1,
           self').
Proof.
  intros Ht Ht0 Hd He Hs Hb. unfold _len_est, truthy. rewrite Ht.
  apply Z.eqb_neq in Ht0. rewrite Ht0. cbn [negb].
  destruct (device_count self =? 0) eqn:Ed; [apply Z.eqb_eq in Ed; lia|].
  destruct (Qeq_bool (packing_efficiency_estimate self) 0) eqn:Ee.
  { apply Qeq_bool_iff in Ee. rewrite Ee in He.
    exfalso. exact (Qlt_irrefl 0 He). }
  destruct (seq_max_length self =? 0) eqn:Es; [apply Z.eqb_eq in Es; lia|].
  destruct (batch_size self =? 0) eqn:Eb; [apply Z.eqb_eq in Eb; lia|].
  cbn [orb]. eexists. reflexivity.
Qed.

Lemma inject_Z_pos (z : Z) : 0 < z -> (0 < inject_Z z)%Q.
Proof. intros H. change 0%Q with (inject_Z 0). rewrite <- Zlt_Qlt. exact H. Qed.

Lemma Qdiv_le_pos (x y z : Q) : (0 < z)%Q -> (x <= y)%Q -> (x / z <= y / z)%Q.
Proof.
  intros Hz H. unfold Qdiv. apply Qmult_le_compat_r; [exact H|].
  apply Qlt_le_weak, Qinv_lt_0_compat, Hz.
Qed.

Lemma len_est_quotient_mono_share (s1 s2 : Z) (e : Q) (seq batch : Z) :
  (0 < e)%Q -> 0 < seq -> 0 < batch -> s1 <= s2 ->
  (len_est_quotient s1 e seq batch <= len_est_quotient s2 e seq batch)%Q.
Proof.
  intros He Hs Hb H. unfold len_est_quotient.
  apply Qdiv_le_pos; [now apply inject_Z_pos|].
  apply Qdiv_le_pos; [now apply inject_Z_pos|].
  apply Qdiv_le_pos; [exact He|].
  apply Qmult_le_l; [reflexivity|].
  rewrite <- Zle_Qle. exact H.
Qed.

Lemma Qinv_le_contra (a b : Q) :
  (0 < a)%Q -> (a <= b)%Q -> (/ b <= / a)%Q.
Proof.
  intros Ha Hab.
  assert (Hb : (0 < b)%Q) by (eapply Qlt_le_trans; eauto).
  apply Qle_lteq in Hab as [Hlt|Heq].
  - apply Qlt_le_weak. exact (proj1 (Qinv_lt_contravar a b Ha Hb) Hlt).
  - rewrite Heq. apply Qle_refl.
Qed.

Lemma len_est_quotient_anti_eff (s : Z) (e1 e2 : Q) (seq batch : Z) :
  0 <= s -> (0 < e1)%Q -> (e1 <= e2)%Q -> 0 < seq -> 0 < batch ->
  (len_est_quotient s e2 seq batch <= len_est_quotient s e1 seq batch)%Q.
Proof.
  intros Hs He He12 Hseq Hb. unfold len_est_quotient.
  apply Qdiv_le_pos; [now apply inject_Z_pos|].
  apply Qdiv_le_pos; [now apply inject_Z_pos|].
  unfold Qdiv.
  rewrite (Qmult_comm _ (/ e2)), (Qmult_comm _ (/ e1)).
  apply Qmult_le_compat_r; [now apply Qinv_le_contra|].
  apply Qmult_le_0_compat; [discriminate|].
  change 0%Q with (inject_Z 0). rewrite <- Zle_Qle. exact Hs.
Qed.

(** X26.  The estimate does not decrease when the token count grows.
    With the float arithmetic taken over the rationals and positive
    [device_count], [packing_efficiency_estimate], [seq_max_length] and
    [batch_size]: for two non-zero token counts [t1 <= t2], [_len_est]
    with [total_num_tokens = t1] is at most [_len_est] with
    [total_num_tokens = t2], and so is the reported [__len__]. *)
Theorem len_est_monotone_in_tokens (self : MultipackDistributedDataloader)
  (t1 t2 : Z) :
  t1 <> 0 -> t2 <> 0 -> t1 <= t2 ->
  0 < device_count self ->
  (0 < packing_efficiency_estimate self)%Q ->
  0 < seq_max_length self -> 0 < batch_size self ->
  exists v1 v2 s1 s2,
    _len_est (with_total_num_tokens self t1) = inr (v1, s1) /\
    _len_est (with_total_num_tokens self t2) = inr (v2, s2) /\
    v1 <= v2 /\
    __len__ (with_total_num_tokens self t1) = inr (Z.max 1 v1) /\
    __len__ (with_total_num_tokens self t2) = inr (Z.max 1 v2) /\
    Z.max 1 v1 <= Z.max 1 v2.
Proof.
  intros H1 H2 H12 Hd He Hs Hb.
  destruct (len_est_value (with_total_num_tokens self t1) t1 eq_refl H1
              Hd He Hs Hb) as [s1 E1].
  destruct (len_est_value (with_total_num_tokens self t2) t2 eq_refl H2
              Hd He Hs Hb) as [s2 E2].
  cbn [device_count packing_efficiency_estimate seq_max_length batch_size
       with_total_num_tokens] in E1, E2.
  eexists _, _, s1, s2.
  split; [exact E1|]. split; [exact E2|].
  assert (Hle : Qfloor (len_est_quotient (t1 / device_count self)
                          (packing_efficiency_estimate self)
                          (seq_max_length self) (batch_size self)) - 1
                <= Qfloor (len_est_quotient (t2 / device_count self)
                             (packing_efficiency_estimate self)
                             (seq_max_length self) (batch_size self)) - 1).
  { apply Z.sub_le_mono_r, Qfloor_resp_le.
    apply len_est_quotient_mono_share; try assumption.
    apply Z.div_le_mono; assumption. }
  split; [exact Hle|].
  unfold __len__. rewrite E1, E2. cbn [bind ret fst].
  split; [reflexivity|]. split; [reflexivity|]. lia.
Qed.

Lemma len_est_monotone_in_tokens_witness :
  20 <> 0 /\ 1000 <> 0 /\ 20 <= 1000 /\
  0 < device_count example_loader /\
  (0 < packing_efficiency_estimate example_loader)%Q /\
  0 < seq_max_length example_loader /\ 0 < batch_size example_loader /\
  exists v1 v2 s1 s2,
    _len_est (with_total_num_tokens example_loader 20) = inr (v1, s1) /\
    _len_est (with_total_num_tokens example_loader 1000) = inr (v2, s2) /\
    v1 <= v2 /\
    __len__ (with_total_num_tokens example_loader 20) = inr (Z.max 1 v1) /\
    __len__ (with_total_num_tokens example_loader 1000) = inr (Z.max 1 v2) /\
    Z.max 1 v1 <= Z.max 1 v2.
Proof.
  assert (H1 : 20 <> 0) by discriminate.
  assert (H2 : 1000 <> 0) by discriminate.
  assert (H12 : 20 <= 1000) by discriminate.
  assert (Hd : 0 < device_count example_loader) by reflexivity.
  assert (He : (0 < packing_efficiency_estimate example_loader)%Q)
    by reflexivity.
  assert (Hs : 0 < seq_max_length example_loader) by reflexivity.
  assert (Hb : 0 < batch_size example_loader) by reflexivity.
  repeat (split; [assumption|]).
  exact (len_est_monotone_in_tokens example_loader 20 1000
           H1 H2 H12 Hd He Hs Hb).
Defined.

(** X27.  The estimate does not increase when the efficiency estimate
    grows.  With the float arithmetic taken over the rationals, a positive
    token count and positive [device_count], [seq_max_length] and
    [batch_size]: for two efficiency estimates [0 < e1 <= e2], [_len_est]
    with [e2] is at most [_len_est] with [e1]. *)
Theorem len_est_antitone_in_efficiency
  (self : MultipackDistributedDataloader) (t : Z) (e1 e2 : Q) :
  total_num_tokens self = Some t -> 0 < t ->
  0 < device_count self ->
  (0 < e1)%Q -> (e1 <= e2)%Q ->
  0 < seq_max_length self -> 0 < batch_size self ->
  exists v1 v2 s1 s2,
    _len_est (with_packing_efficiency_estimate self e1) = inr (v1, s1) /\
    _len_est (with_packing_efficiency_estimate self e2) = inr (v2, s2) /\
    v2 <= v1.
Proof.
  intros Ht Ht0 Hd He1 He12 Hs Hb.
  assert (He2 : (0 < e2)%Q) by (eapply Qlt_le_trans; eauto).
  destruct (len_est_value (with_packing_efficiency_estimate self e1) t
              Ht ltac:(lia) Hd He1 Hs Hb) as [s1 E1].
  destruct (len_est_value (with_packing_efficiency_estimate self e2) t
              Ht ltac:(lia) Hd He2 Hs Hb) as [s2 E2].
  cbn [device_count packing_efficiency_estimate seq_max_length batch_size
       with_packing_efficiency_estimate] in E1, E2.
  eexists _, _, s1, s2.
  split; [exact E1|]. split; [exact E2|].
  apply Z.sub_le_mono_r, Qfloor_resp_le.
  apply len_est_quotient_anti_eff; try assumption.
  apply Z.div_pos; lia.
Qed.

Lemma len_est_antitone_in_efficiency_witness :
  total_num_tokens (with_total_num_tokens example_loader 1000) = Some 1000 /\
  0 < 1000 /\
  0 < device_count (with_total_num_tokens example_loader 1000) /\
  (0 < 1 # 2)%Q /\ (1 # 2 <= 1)%Q /\
  0 < seq_max_length (with_total_num_tokens example_loader 1000) /\
  0 < batch_size (with_total_num_tokens example_loader 1000) /\
  exists v1 v2 s1 s2,
    _len_est (with_packing_efficiency_estimate
                (with_total_num_tokens example_loader 1000) (1 # 2))
    = inr (v1, s1) /\
    _len_est (with_packing_efficiency_estimate
                (with_total_num_tokens example_loader 1000) 1)
    = inr (v2, s2) /\
    v2 <= v1.
Proof.
  assert (Ht : total_num_tokens (with_total_num_tokens example_loader 1000)
               = Some 1000) by reflexivity.
  assert (Ht0 : 0 < 1000) by reflexivity.
  assert (Hd : 0 < device_count (with_total_num_tokens example_loader 1000))
    by reflexivity.
  assert (He1 : (0 < 1 # 2)%Q) by reflexivity.
  assert (He12 : (1 # 2 <= 1)%Q) by discriminate.
  assert (Hs : 0 < seq_max_length (with_total_num_tokens example_loader 1000))
    by reflexivity.
  assert (Hb : 0 < batch_size (with_total_num_tokens example_loader 1000))
    by reflexivity.
  repeat (split; [assumption|]).
  exact (len_est_antitone_in_efficiency
           (with_total_num_tokens example_loader 1000) 1000 (1 # 2) 1
           Ht Ht0 Hd He1 He12 Hs Hb).
Defined.

(** ** [len_w_stats] *)

(** X28.  [len_w_stats] cannot be used before statistics exist: while
    [eff_total_used] is 0 it runs a generation pass and then fails on
    unpacking the result of [generate_batches], which returns nothing, so
    it never returns a length; on a loader as the constructor builds it
    (no sampler) with room on the queue for the rounds of the pass it
    raises [TypeError].  Once both statistics are non-zero it agrees with
    [__len__]. *)
Theorem len_w_stats_outcomes (self : MultipackDistributedDataloader)
  (queue_room : nat) :
  (eff_total_used self = 0 ->
   forall v, len_w_stats self queue_room <> Returns v)
  /\ (eff_total_used self = 0 ->
      sampler self = None ->
      length (lengths self) = length (rows (dataset self)) ->
      valid_rank (rank self) (num_replicas self) ->
      (length (fst (fst (generate_batches self true))) <= queue_room)%nat ->
      len_w_stats self queue_room = RaisesTypeError)
  /\ (eff_total_used self <> 0 -> eff_total_slots self <> 0 ->
      len_w_stats self queue_room
      = match __len__ self with
        | inl e => Raises e
        | inr v => Returns v
        end).
Proof.
  unfold len_w_stats. repeat split.
  - intros -> v. cbn [Z.eqb].
    destruct (generate_batches self true) as [[puts self'] e].
    destruct (queue_room <? length puts)%nat; [discriminate|].
    destruct e; discriminate.
  - intros -> Hs Hl Hr Hroom. cbn [Z.eqb].
    pose proof (generate_batches_no_exception self true Hs Hl Hr) as He.
    destruct (generate_batches self true) as [[puts self'] e].
    cbn [fst snd] in *. subst e.
    apply Nat.ltb_ge in Hroom. now rewrite Hroom.
  - intros Hu Hsl. apply Z.eqb_neq in Hu, Hsl. rewrite Hu.
    unfold efficiency. rewrite Hsl. unfold ret at 1.
    unfold __len__.
    destruct (_len_est self) as [e|[v self']]; reflexivity.
Qed.

Lemma len_w_stats_outcomes_witness :
  eff_total_used example_loader = 0 /\
  sampler example_loader = None /\
  length (lengths example_loader) = length (rows (dataset example_loader)) /\
  valid_rank (rank example_loader) (num_replicas example_loader) /\
  (length (fst (fst (generate_batches example_loader true))) <= 10)%nat /\
  len_w_stats example_loader 10 = RaisesTypeError.
Proof.
  assert (Hu : eff_total_used example_loader = 0) by reflexivity.
  assert (Hs : sampler example_loader = None) by reflexivity.
  assert (Hl : length (lengths example_loader)
               = length (rows (dataset example_loader))) by reflexivity.
  assert (Hr : valid_rank (rank example_loader) (num_replicas example_loader))
    by (unfold valid_rank; simpl; lia).
  assert (Hq : (length (fst (fst (generate_batches example_loader true)))
                <= 10)%nat) by (vm_compute; repeat constructor).
  repeat (split; [assumption|]).
  exact (proj1 (proj2 (len_w_stats_outcomes example_loader 10))
           Hu Hs Hl Hr Hq).
Defined.

(** ** [chunk] *)

Lemma firstn_nil_iff {A : Type} (n : nat) (l : list A) :
  (1 <= n)%nat -> firstn n l = [] -> l = [].
Proof.
  destruct n; [lia|]. destruct l; [reflexivity | discriminate].
Qed.

Lemma chunk_loop_spec {A : Type} (n : nat) (fuel : nat) :
  (1 <= n)%nat ->
  forall it : list A,
    (length it < fuel)%nat ->
    concat (chunk_loop fuel it n) = it /\
    Forall (fun c => c <> [] /\ (length c <= n)%nat) (chunk_loop fuel it n) /\
    Forall (fun c => length c = n) (removelast (chunk_loop fuel it n)) /\
    (it = [] -> chunk_loop fuel it n = []) /\
    (it <> [] -> chunk_loop fuel it n <> []).
Proof.
  intros Hn. induction fuel as [|fuel IH]; intros it Hf; [lia|].
  cbn [chunk_loop].
  destruct (firstn n it) as [|x batch] eqn:E.
  - apply (firstn_nil_iff n it Hn) in E. subst it.
    repeat split; try constructor; congruence.
  - assert (Hne : it <> []) by (intros ->; rewrite firstn_nil in E; discriminate).
    assert (Hlen : (length (skipn n it) < fuel)%nat).
    { rewrite length_skipn. destruct it; [congruence|].
      cbn [length] in *. lia. }
    destruct (IH (skipn n it) Hlen) as (H1 & H2 & H3 & H4 & H5).
    repeat split.
    + cbn [concat]. rewrite H1, <- E. apply firstn_skipn.
    + constructor; [|exact H2].
      split; [discriminate|]. rewrite <- E. apply firstn_le_length.
    + destruct (chunk_loop fuel (skipn n it) n) as [|c cs] eqn:Ec.
      * constructor.
      * cbn [removelast]. constructor; [|exact H3].
        rewrite <- E, length_firstn.
        assert (Hrest : skipn n it <> []).
        { intros Es. specialize (H4 Es). congruence. }
        destruct (Nat.le_gt_cases (length it) n) as [Hle|Hgt]; [|lia].
        exfalso. apply Hrest. now apply skipn_all2.
    + congruence.
    + discriminate.
Qed.

(** X29.  [chunk] raises [ValueError] for [n < 1]; for [n >= 1] the tuples
    it yields, put end to end, are the input, none of them is empty, each
    holds at most [n] elements and every one but the last holds exactly
    [n]; an empty input yields no tuple. *)
Theorem chunk_spec {A : Type} (iterable : list A) (n : Z) :
  (n < 1 -> chunk iterable n = inl ValueError)
  /\ (1 <= n ->
      exists chunks,
        chunk iterable n = inr chunks /\
        concat chunks = iterable /\
        Forall (fun c => c <> [] /\ (length c <= Z.to_nat n)%nat) chunks /\
        Forall (fun c => length c = Z.to_nat n) (removelast chunks) /\
        (iterable = [] <-> chunks = [])).
Proof.
  unfold chunk. split.
  - intros H. apply Z.ltb_lt in H. now rewrite H.
  - intros H. assert (E : (n <? 1) = false) by (apply Z.ltb_ge; lia).
    rewrite E.
    destruct (chunk_loop_spec (Z.to_nat n) (S (length iterable))
                ltac:(lia) iterable ltac:(lia))
      as (H1 & H2 & H3 & H4 & H5).
    eexists. split; [reflexivity|].
    repeat split; try assumption.
    intros Hc. destruct iterable as [|x l]; [reflexivity|].
    exfalso. apply H5; [discriminate | exact Hc].
Qed.

Lemma chunk_spec_witness :
  1 <= 3 /\
  exists chunks,
    chunk [1; 2; 3; 4; 5; 6; 7] 3 = inr chunks /\
    concat chunks = [1; 2; 3; 4; 5; 6; 7] /\
    Forall (fun c => c <> [] /\ (length c <= Z.to_nat 3)%nat) chunks /\
    Forall (fun c => length c = Z.to_nat 3) (removelast chunks) /\
    ([1; 2; 3; 4; 5; 6; 7] = [] <-> chunks = []).
Proof.
  assert (H : 1 <= 3) by discriminate.
  split; [exact H|].
  exact (proj2 (chunk_spec [1; 2; 3; 4; 5; 6; 7] 3) H).
Defined.

Example chunk_example :
  chunk [1; 2; 3; 4; 5; 6; 7] 3 = inr [[1; 2; 3]; [4; 5; 6]; [7]].
Proof. reflexivity. Qed.

(** ** [hash_indices] *)

Lemma str_digits (d : Decimal.uint) :
  comma_free (DecimalString.NilEmpty.string_of_uint d).
Proof.
  induction d; simpl; try exact I; (split; [discriminate | assumption]).
Qed.

Lemma str_injective (i j : nat) : str i = str j -> i = j.
Proof.
  unfold str. intros H.
  apply DecimalNat.Unsigned.to_uint_inj.
  apply (f_equal DecimalString.NilEmpty.uint_of_string) in H.
  rewrite !DecimalString.NilEmpty.usu in H. congruence.
Qed.

Lemma str_nonempty (i : nat) : str i <> ""%string.
Proof.
  unfold str. intros H.
  assert (E : Nat.to_uint i = Decimal.Nil).
  { destruct (Nat.to_uint i); simpl in H; (reflexivity || discriminate). }
  apply (f_equal Nat.of_uint) in E.
  rewrite DecimalNat.Unsigned.of_to in E. simpl in E. subst i.
  discriminate.
Qed.

(** A comma-free word in front of nothing or of a comma can be read off in
    one way only. *)
Lemma comma_free_prefix (s1 : String.string) :
  forall s2 r1 r2,
    comma_free s1 -> comma_free s2 ->
    (r1 = ""%string \/ exists r, r1 = String.String ","%char r) ->
    (r2 = ""%string \/ exists r, r2 = String.String ","%char r) ->
    (s1 ++ r1)%string = (s2 ++ r2)%string ->
    s1 = s2 /\ r1 = r2.
Proof.
  induction s1 as [|c s1 IH]; intros [|c' s2] r1 r2 H1 H2 Hr1 Hr2; simpl.
  - auto.
  - intros ->. destruct H2 as [Hc _].
    destruct Hr1 as [E|[r E]]; [discriminate|].
    injection E as E _. congruence.
  - intros <-. destruct H1 as [Hc _].
    destruct Hr2 as [E|[r E]]; [discriminate|].
    injection E as E _. congruence.
  - intros [= -> E]. destruct H1 as [_ H1]. destruct H2 as [_ H2].
    destruct (IH s2 r1 r2 H1 H2 Hr1 Hr2 E) as [-> ->]. auto.
Qed.

Lemma join_cons (sep x : String.string) (l : list String.string) :
  join sep (x :: l)
  = (x ++ match l with
          | [] => ""
          | _ => sep ++ join sep l
          end)%string.
Proof.
  destruct l; simpl; [|reflexivity].
  induction x; simpl; congruence.
Qed.

Lemma join_injective (l1 : list String.string) :
  forall l2,
    Forall (fun s => comma_free s /\ s <> ""%string) l1 ->
    Forall (fun s => comma_free s /\ s <> ""%string) l2 ->
    join "," l1 = join "," l2 -> l1 = l2.
Proof.
  induction l1 as [|x l1 IH]; intros [|y l2] H1 H2.
  - reflexivity.
  - rewrite join_cons. simpl. intros E.
    apply Forall_cons_iff in H2 as [[_ Hy] _].
    destruct y; [congruence | discriminate].
  - rewrite join_cons. simpl. intros E.
    apply Forall_cons_iff in H1 as [[_ Hx] _].
    destruct x; [congruence | discriminate].
  - rewrite !join_cons. intros E.
    apply Forall_cons_iff in H1 as [[Hx _] H1].
    apply Forall_cons_iff in H2 as [[Hy _] H2].
    apply comma_free_prefix in E as [-> E]; try assumption.
    + f_equal.
      destruct l1 as [|x1 l1], l2 as [|y1 l2]; try reflexivity;
        try discriminate.
      injection E as E. now apply IH.
    + destruct l1; [left; reflexivity | right; eexists; reflexivity].
    + destruct l2; [left; reflexivity | right; eexists; reflexivity].
Qed.

(** X30.  The text that [hash_indices] hashes determines the index
    sequence: two sequences of indices with the same text
    [",".join(map(str, lst))] are equal, element by element and in the
    same order.  (The SHA-256 digest of the text is not modelled.) *)
Theorem hash_indices_text_injective (lst1 lst2 : list nat) :
  hash_indices_text lst1 = hash_indices_text lst2 -> lst1 = lst2.
Proof.
  unfold hash_indices_text. intros H.
  assert (Hall : forall l : list nat,
             Forall (fun s => comma_free s /\ s <> ""%string) (map str l)).
  { intros l. apply Forall_map, Forall_forall. intros i _.
    split; [apply str_digits | apply str_nonempty]. }
  apply join_injective in H; [|apply Hall..].
  revert lst2 H. induction lst1 as [|i l1 IH]; intros [|j l2]; simpl;
    try discriminate; [reflexivity|].
  intros [= Hij H]. f_equal; [now apply str_injective | now apply IH].
Qed.

Lemma hash_indices_text_injective_witness :
  hash_indices_text [0; 12; 3]%nat = hash_indices_text [0; 12; 3]%nat /\
  [0; 12; 3]%nat = [0; 12; 3]%nat.
Proof.
  assert (H : hash_indices_text [0; 12; 3]%nat
              = hash_indices_text [0; 12; 3]%nat) by reflexivity.
  split; [exact H|].
  exact (hash_indices_text_injective [0; 12; 3]%nat [0; 12; 3]%nat H).
Defined.

Example hash_indices_text_example :
  hash_indices_text [0; 12; 3]%nat = "0,12,3"%string /\
  hash_indices_text [] = ""%string /\
  hash_indices_text [0; 1; 23]%nat <> hash_indices_text [0; 12; 3]%nat.
Proof. repeat split. discriminate. Qed.
